(** * ZenoSend: the email deliverability verification engine

    A shallow embedding of [app/email_validation.py] and the properties of
    its verdict state machine.

    Conventions of the embedding.
    - A Python [str] is a Rocq [string]; a character is a code point below
      256 (Latin-1), which is where the engine's literals and the SMTP
      reply codes live.  The one sample that needs a character above 255
      writes it as the bytes of its UTF-8 form.
    - A Python [float] is a primitive binary64 [float].
    - A function that performs I/O or touches module state is a function of
      the [world] (resolver cache, resolver, network script, entropy, log of
      the calls made) that returns an [outcome]: a value or a raised
      exception, together with the world it leaves behind.  State changes
      made before an exception is raised persist, as in Python.
    - The network script of a world is finite.  A peer that never stops
      sending is a function from the number of a call to its answer, and a
      run against it is a run on a prefix of its answers that leaves one
      of them unread (the part on peers that never stop).
    - The libraries the module imports ([email_validator], [difflib]) are
      parameters of the development; [Difflib] below is a model of CPython's
      [difflib.get_close_matches] used to run the code on concrete inputs. *)

From Stdlib Require Import ZArith String Ascii List Bool Lia Floats DecimalString.
From Stdlib Require Import Sorting.Sorted Sorting.Permutation.
From stdpp Require Import gmap strings.
Import ListNotations.

Local Open Scope string_scope.
Local Open Scope Z_scope.

(* ===================================================================== *)
(** * Python primitives *)
(* ===================================================================== *)

Module Py.

Definition chr (n : nat) : ascii := ascii_of_nat n.
Definition ord (c : ascii) : nat := nat_of_ascii c.

Definition LF : ascii := chr 10.
Definition CR : ascii := chr 13.
Definition DQUOTE : ascii := chr 34.
Definition CRLF : string := String CR (String LF EmptyString).

Definition in_range (lo hi : nat) (c : ascii) : bool :=
  (lo <=? ord c)%nat && (ord c <=? hi)%nat.

(** [str.isspace] on one code point below 256. *)
Definition isspace (c : ascii) : bool :=
  in_range 9 13 c || in_range 28 32 c || (ord c =? 133)%nat || (ord c =? 160)%nat.

Definition mem_char (c : ascii) (chars : list ascii) : bool :=
  existsb (Ascii.eqb c) chars.

Fixpoint lstrip_with (p : ascii -> bool) (l : list ascii) : list ascii :=
  match l with
  | [] => []
  | c :: t => if p c then lstrip_with p t else l
  end.

Definition rstrip_with (p : ascii -> bool) (l : list ascii) : list ascii :=
  rev (lstrip_with p (rev l)).

Definition strip_with (p : ascii -> bool) (s : string) : string :=
  string_of_list_ascii (rstrip_with p (lstrip_with p (list_ascii_of_string s))).

(** [s.strip()] *)
Definition strip (s : string) : string := strip_with isspace s.

(** [s.strip(chars)] *)
Definition strip_chars (chars : list ascii) (s : string) : string :=
  strip_with (fun c => mem_char c chars) s.

(** [s.rstrip(chars)] *)
Definition rstrip_chars (chars : list ascii) (s : string) : string :=
  string_of_list_ascii
    (rstrip_with (fun c => mem_char c chars) (list_ascii_of_string s)).

(** [s.replace(c, "")] for a one-character [c]. *)
Fixpoint remove_char (c : ascii) (s : string) : string :=
  match s with
  | EmptyString => EmptyString
  | String a t => if Ascii.eqb a c then remove_char c t else String a (remove_char c t)
  end.

(** [str.lower] and [str.upper] on code points below 256.  Upper-casing
    U+00DF gives the two letters SS; U+00B5 and U+00FF have upper-case
    forms above 255 and are kept. *)
Definition lower_char (c : ascii) : ascii :=
  if in_range 65 90 c || (in_range 192 222 c && negb (ord c =? 215)%nat)
  then chr (ord c + 32) else c.

Fixpoint lower (s : string) : string :=
  match s with
  | EmptyString => EmptyString
  | String c t => String (lower_char c) (lower t)
  end.

Fixpoint upper (s : string) : string :=
  match s with
  | EmptyString => EmptyString
  | String c t =>
      if (ord c =? 223)%nat then String "S" (String "S" (upper t))
      else if in_range 97 122 c || (in_range 224 254 c && negb (ord c =? 247)%nat)
      then String (chr (ord c - 32)) (upper t)
      else String c (upper t)
  end.

(** [sub in s] *)
Fixpoint contains (sub s : string) : bool :=
  String.prefix sub s
  || match s with
     | EmptyString => false
     | String _ t => contains sub t
     end.

(** [s.endswith(suffix)] *)
Definition endswith (s suffix : string) : bool :=
  let n := String.length s in
  let k := String.length suffix in
  (k <=? n)%nat && String.eqb (String.substring (n - k) k s) suffix.

(** [s.split(sep)[0]] for a one-character separator. *)
Fixpoint before_char (sep : ascii) (s : string) : string :=
  match s with
  | EmptyString => EmptyString
  | String c t => if Ascii.eqb c sep then EmptyString else String c (before_char sep t)
  end.

(** [s.partition(sep)] when [sep] occurs: the text before and after its
    first occurrence. *)
Fixpoint split_first (sep : ascii) (s : string) : option (string * string) :=
  match s with
  | EmptyString => None
  | String c t =>
      if Ascii.eqb c sep then Some (EmptyString, t)
      else match split_first sep t with
           | Some (l, r) => Some (String c l, r)
           | None => None
           end
  end.

(** [str(n)] for an integer. *)
Definition str_of_Z (n : Z) : string := NilZero.string_of_int (Z.to_int n).

(** [sep.join(lines)] *)
Definition join (sep : string) (l : list string) : string := String.concat sep l.

(** [sorted(l)] on strings: insertion into an ordered list, stable. *)
Fixpoint insert_sorted (x : string) (l : list string) : list string :=
  match l with
  | [] => [x]
  | y :: t => if String.ltb x y then x :: l else y :: insert_sorted x t
  end.

Definition sorted (l : list string) : list string :=
  fold_left (fun acc x => insert_sorted x acc) l [].

(** Truth value of a string and of an optional string. *)
Definition truthy (s : string) : bool := negb (String.eqb s EmptyString).

Definition truthy_opt (o : option string) : bool :=
  match o with
  | Some s => truthy s
  | None => false
  end.

(** [x or None] on a string. *)
Definition or_none (s : string) : option string :=
  if truthy s then Some s else None.

(** [a or b] with [a] a string and [b] optional. *)
Definition str_or (a : string) (b : option string) : option string :=
  if truthy a then Some a else b.

(** [x in s] for a set or list of strings. *)
Definition mem (x : string) (l : list string) : bool := existsb (String.eqb x) l.

End Py.

(* ===================================================================== *)
(** * Exceptions and the state-and-exception monad *)
(* ===================================================================== *)

(** The exception classes the module distinguishes: [except
    EmailNotValidError] catches the first only, [except Exception] catches
    all three. *)
Inductive exn : Type :=
| EmailNotValidError
| ValueError
| Exception (msg : string).

Inductive outcome (A : Type) : Type :=
| Ret (a : A)
| Raise (e : exn).
Arguments Ret {A} a.
Arguments Raise {A} e.

(** A computation over a state [S]: the state reached is returned whether
    the computation returns or raises. *)
Definition M (S A : Type) : Type := S -> outcome A * S.

Definition ret {S A} (a : A) : M S A := fun s => (Ret a, s).

Definition raise {S A} (e : exn) : M S A := fun s => (Raise e, s).

Definition bind {S A B} (m : M S A) (k : A -> M S B) : M S B :=
  fun s =>
    match m s with
    | (Ret a, s') => k a s'
    | (Raise e, s') => (Raise e, s')
    end.

(** [try: body  except Exception: handler] *)
Definition try_except {S A} (body : M S A) (handler : exn -> M S A) : M S A :=
  fun s =>
    match body s with
    | (Ret a, s') => (Ret a, s')
    | (Raise e, s') => handler e s'
    end.

Definition get {S} : M S S := fun s => (Ret s, s).

Definition modify {S} (f : S -> S) : M S unit := fun s => (Ret tt, f s).

(** Runs a computation over a larger state [T] that embeds [S]. *)
Definition lift {S T A} (proj : T -> S) (upd : S -> T -> T) (m : M S A) : M T A :=
  fun t => let '(r, s') := m (proj t) in (r, upd s' t).

Declare Scope py_scope.
Delimit Scope py_scope with py.
Notation "x <- m ;; k" := (bind m (fun x => k))
  (at level 100, m at next level, right associativity) : py_scope.
Notation "m ;; k" := (bind m (fun _ => k))
  (at level 100, right associativity) : py_scope.
Local Open Scope py_scope.

(** [try: body  except Exception: pass] *)
Definition try_pass {S} (body : M S unit) : M S unit :=
  try_except body (fun _ => ret tt).

(** A [for] loop whose body may [return]: the body answers [Some v] for
    [return v] and [None] to go on with the next element. *)
Fixpoint for_each {S X R} (xs : list X) (body : X -> M S (option R)) : M S (option R) :=
  match xs with
  | [] => ret None
  | x :: rest =>
      r <- body x ;;
      match r with
      | Some v => ret (Some v)
      | None => for_each rest body
      end
  end.

(* ===================================================================== *)
(** * Floats: [round(x, 3)] *)
(* ===================================================================== *)

Module PyFloat.

(** The binary64 value nearest to [n / d], for positive [n] and [d]. *)
Definition nearest_ratio (neg : bool) (n d : Z) : float :=
  let '(m, e, l) := SFdiv_core_binary prec emax n 0 d 0 in
  SF2Prim (binary_round_aux prec emax neg m e l).

(** The integer nearest to [num / den], ties to even ([den > 0]). *)
Definition round_half_even (num den : Z) : Z :=
  let q := num / den in
  let r := num mod den in
  if 2 * r <? den then q
  else if den <? 2 * r then q + 1
  else if Z.even q then q else q + 1.

(** [round(x, 3)]: the exact value of [x] is rounded to three decimals,
    ties to even, and the binary64 value nearest to that decimal is
    returned.  Zeros, infinities and NaN are returned as they are. *)
Definition round3 (x : float) : float :=
  match Prim2SF x with
  | S754_finite s m e =>
      let num := 1000 * Z.pos m * 2 ^ Z.max e 0 in
      let den := 2 ^ Z.max (- e) 0 in
      let k := round_half_even num den in
      if k =? 0 then (if s then neg_zero else zero)
      else nearest_ratio s k 1000
  | _ => x
  end.

(** [min(a, b)] and [max(a, b)] as Python evaluates them on two
    arguments: the first argument is kept unless the second is strictly
    smaller (larger). *)
Definition min (a b : float) : float := if PrimFloat.ltb b a then b else a.
Definition max (a b : float) : float := if PrimFloat.ltb a b then b else a.


End PyFloat.

(* ===================================================================== *)
(** * The world: resolver cache, resolver, network, entropy *)
(* ===================================================================== *)

(** What the network answers to one blocking socket call.  [readline]
    reads [Line text] as a non-empty line whose decoding (UTF-8, errors
    ignored) is [text], [Done] as end of stream (no bytes) and [Fail] as
    an exception (time-out, reset).  Every other call (connect, write, TLS
    wrap, close) raises on [Fail] and succeeds otherwise. *)
Inductive net_ev : Type :=
| Fail
| Done
| Line (text : string).

(** The calls the module makes on its environment, as the log records
    them. *)
Inductive action : Type :=
| Resolve (domain : string) (lifetime : float)
| Connect (host : string) (port : Z) (timeout : float)
| Send (data : string)
| Recv
| StartTLS (host : string)
| CloseFile
| CloseSock.

Record world : Type := {
  _mx_cache : gmap string (bool * list string * string);
  (** [dns.resolver.resolve(domain, "MX", lifetime)]: the exchange names
      of the answer, or an exception *)
  dns : string -> float -> outcome (list string);
  (** the answers of the network to the socket calls to come, in order;
      once the script is over every call fails (times out) *)
  net : list net_ev;
  (** the numbers [random.choices] will draw *)
  entropy : list nat;
  log : list action
}.

Definition set_cache (c : gmap string (bool * list string * string)) (w : world) : world :=
  {| _mx_cache := c; dns := dns w; net := net w; entropy := entropy w; log := log w |}.

Definition set_net (n : list net_ev) (w : world) : world :=
  {| _mx_cache := _mx_cache w; dns := dns w; net := n; entropy := entropy w; log := log w |}.

Definition set_entropy (e : list nat) (w : world) : world :=
  {| _mx_cache := _mx_cache w; dns := dns w; net := net w; entropy := e; log := log w |}.

Definition add_log (a : list action) (w : world) : world :=
  {| _mx_cache := _mx_cache w; dns := dns w; net := net w; entropy := entropy w;
     log := log w ++ a |}.

(** The exception a failed socket call raises (an [OSError], which
    [except Exception] catches). *)
Definition socket_error : exn := Exception "socket error".

(** One blocking socket call: logged, then answered by the script. *)
Definition net_call (a : action) : M world net_ev :=
  fun w =>
    match net w with
    | [] => (Raise socket_error, add_log [a] w)
    | Fail :: rest => (Raise socket_error, set_net rest (add_log [a] w))
    | ev :: rest => (Ret ev, set_net rest (add_log [a] w))
    end.

Definition resolve (domain : string) (lifetime : float) : M world (list string) :=
  fun w => (dns w domain lifetime, add_log [Resolve domain lifetime] w).

(** [''.join(random.choices(alphabet, k=k))] *)
Fixpoint random_choices (alphabet : list ascii) (k : nat) : M world string :=
  match k with
  | O => ret EmptyString
  | S k' =>
      fun w =>
        let n := hd O (entropy w) in
        let c := nth (n mod Datatypes.length alphabet) alphabet Ascii.zero in
        bind (random_choices alphabet k') (fun s => ret (String c s))
             (set_entropy (tl (entropy w)) w)
  end.

(* ===================================================================== *)
(** * Configuration and tables *)
(* ===================================================================== *)

(** The module-level settings read from the environment at import. *)
Record config : Type := {
  ALLOW_SMTP_PROBE : bool;
  PROBE_BLOCKED : bool;
  DEFAULT_TIMEOUT : float;
  PROBE_MAIL_FROM : string;
  ACCEPT_ALL_PROBES : Z
}.

(** The settings when no environment variable is set. *)
Definition default_config : config := {|
  ALLOW_SMTP_PROBE := true;
  PROBE_BLOCKED := true;
  DEFAULT_TIMEOUT := 6%float;
  PROBE_MAIL_FROM := "probe@localhost.localdomain";
  ACCEPT_ALL_PROBES := 2
|}.

Definition DISPOSABLE_DOMAINS : list string :=
  ["mailinator.com"; "10minutemail.com"; "tempmail.com"; "guerrillamail.com";
   "yopmail.com"; "trashmail.com"].

Definition ROLE_ACCOUNTS : list string :=
  ["admin"; "administrator"; "support"; "info"; "hello"; "sales"; "contact"; "billing";
   "accounts"; "noreply"; "no-reply"; "security"; "abuse"; "postmaster"].

Definition FREE_PROVIDERS : list string :=
  ["gmail.com"; "googlemail.com"; "yahoo.com"; "ymail.com"; "outlook.com"; "hotmail.com";
   "live.com"; "icloud.com"; "me.com"; "aol.com"; "proton.me"; "zoho.com"; "gmx.com";
   "mail.com"].

(** A dict iterated in insertion order: an association list. *)
Definition SMTP_BLOCKLIST_PROVIDERS : list (string * string) :=
  [("gmail.com", "Google Workspace/Gmail");
   ("googlemail.com", "Google Workspace/Gmail");
   ("outlook.com", "Microsoft 365/Outlook");
   ("hotmail.com", "Microsoft 365/Hotmail");
   ("live.com", "Microsoft 365/Live");
   ("office365.com", "Microsoft 365");
   ("microsoft.com", "Microsoft 365");
   ("yahoo.com", "Yahoo");
   ("proton.me", "Proton");
   ("icloud.com", "Apple iCloud");
   ("me.com", "Apple iCloud");
   ("aol.com", "AOL")].

(** [a | b] on sets of strings, kept without repetition. *)
Definition set_union (a b : list string) : list string :=
  fold_left (fun acc x => if Py.mem x acc then acc else (acc ++ [x])%list) (a ++ b)%list [].

Definition COMMON_DOMAINS : list string :=
  Py.sorted (set_union FREE_PROVIDERS
    ["gmail.co"; "gamil.com"; "gnail.com"; "gmai.com"; "yhoo.com"; "yahoo.co"; "hotnail.com";
     "outlok.com"; "icloud.co"; "me.co"; "protonmail.com"; "pm.me"; "zoho.in"; "gmx.de";
     "mail.ru"]).

(* ===================================================================== *)
(** * Helpers *)
(* ===================================================================== *)

Definition normalize (email : string) : string :=
  Py.remove_char " " (Py.strip_chars [Py.DQUOTE; ";"%char] (Py.strip email)).

(** ** [EMAIL_REGEX] *)

(** The class [[a-zA-Z0-9!#$%&'*+/=?^_`{|}~-]] of the local part. *)
Definition local_char (c : ascii) : bool :=
  Py.in_range 97 122 c || Py.in_range 65 90 c || Py.in_range 48 57 c
  || Py.mem_char c (list_ascii_of_string "!#$%&'*+/=?^_`{|}~-").

(** The class [[A-Za-z0-9-]] of the domain. *)
Definition domain_char (c : ascii) : bool :=
  Py.in_range 65 90 c || Py.in_range 97 122 c || Py.in_range 48 57 c
  || Ascii.eqb c "-".

(** Recognises [[cls]+(?:\.[cls]+)*] on the whole of [s] and counts the
    groups [\.[cls]+] it goes through; [in_run] says that at least one
    character of the current run of [cls] has been read. *)
Fixpoint dot_runs (cls : ascii -> bool) (s : string) (in_run : bool) (groups : nat)
  : option nat :=
  match s with
  | EmptyString => if in_run then Some groups else None
  | String c t =>
      if cls c then dot_runs cls t true groups
      else if Ascii.eqb c "." then
             if in_run then dot_runs cls t false (S groups) else None
           else None
  end.

(** [$] matches at the end of the string and just before a line feed that
    ends the string. *)
Fixpoint before_final_newline (s : string) : string :=
  match s with
  | EmptyString => EmptyString
  | String c t =>
      if Ascii.eqb c Py.LF && String.eqb t EmptyString then EmptyString
      else String c (before_final_newline t)
  end.

(** [EMAIL_REGEX.match(email)]: the groups [local] and [domain] when the
    pattern matches.  Neither class contains [@], so the [@] of a match is
    the first one of the string; the local part is
    [[..]+(?:\.[..]+)*] and the domain [[..]+(?:\.[..]+)+], that is with
    one group at least. *)
Definition EMAIL_REGEX_match (email : string) : option (string * string) :=
  match Py.split_first "@" email with
  | None => None
  | Some (l, r) =>
      let d := before_final_newline r in
      match dot_runs local_char l false 0, dot_runs domain_char d false 0 with
      | Some _, Some (S _) => Some (l, d)
      | _, _ => None
      end
  end.

(* ===================================================================== *)
(** * The engine *)
(* ===================================================================== *)

(** Keys of the [checks] dict. *)
Record checks : Type := {
  c_has_valid_address_syntax : bool;
  c_has_mx_or_a_record : bool;
  c_is_disposable : bool;
  c_is_role_address : bool;
  c_is_free_provider : bool;
  c_is_accept_all : option bool;
  c_smtp_checked : bool;
  c_smtp_deliverable : bool;
  c_domain : option string
}.

(** Keys of the dict [validate_email_record] returns. *)
Record result : Type := {
  r_email : string;
  r_verdict : string;
  r_status : string;
  r_score : float;
  r_checks : checks;
  r_provider : option string;
  r_suggestion : option string;
  r_reason : string
}.

(** The local variables of [smtp_probe] that outlive an exception: the
    handler of the [try] reads [sock] and [fh], and [last_reason] is
    assigned just before a [raise]. *)
Inductive handle : Type :=
| PlainSocket (host : string)
| TlsSocket (host : string).

Record probe_state : Type := {
  pw : world;
  last_reason : string;
  sock : option handle;
  fh : option handle
}.

Definition set_pw (w : world) (s : probe_state) : probe_state :=
  {| pw := w; last_reason := last_reason s; sock := sock s; fh := fh s |}.

Definition set_last_reason (r : string) : M probe_state unit :=
  modify (fun s => {| pw := pw s; last_reason := r; sock := sock s; fh := fh s |}).

Definition set_sock (h : option handle) : M probe_state unit :=
  modify (fun s => {| pw := pw s; last_reason := last_reason s; sock := h; fh := fh s |}).

Definition set_fh (h : option handle) : M probe_state unit :=
  modify (fun s => {| pw := pw s; last_reason := last_reason s; sock := sock s; fh := h |}).

(** A call on the world made from inside [smtp_probe]. *)
Definition io {A} (m : M world A) : M probe_state A := lift pw set_pw m.

(** The local variable [successes] of [is_accept_all]. *)
Record accept_state : Type := {
  aw : world;
  successes : Z
}.

Definition set_aw (w : world) (s : accept_state) : accept_state :=
  {| aw := w; successes := successes s |}.

(** ** [_read_resp] *)

(** [str.isdigit] on one code point below 256: the decimal digits and the
    superscripts U+00B2, U+00B3, U+00B9. *)
Definition isdigit_char (c : ascii) : bool :=
  Py.in_range 48 57 c || Py.in_range 178 179 c || (Py.ord c =? 185)%nat.

Fixpoint isdigit_all (s : string) : bool :=
  match s with
  | EmptyString => true
  | String c t => isdigit_char c && isdigit_all t
  end.

(** [s.isdigit()] *)
Definition isdigit (s : string) : bool :=
  negb (String.eqb s EmptyString) && isdigit_all s.

(** [int(s)] on a string of digits: the superscripts are digits for
    [isdigit] and a [ValueError] for [int]. *)
Fixpoint int_digits (s : string) (acc : Z) : outcome Z :=
  match s with
  | EmptyString => Ret acc
  | String c t =>
      if Py.in_range 48 57 c then int_digits t (10 * acc + Z.of_nat (Py.ord c - 48))
      else Raise ValueError
  end.

(** [first_code or 0] *)
Definition code_or_0 (first_code : option Z) : Z :=
  match first_code with
  | Some c => c
  | None => 0
  end.

(** The [while True] loop of [_read_resp] over the network script: every
    iteration makes one [fh.readline()] call, so the loop is a recursion on
    the script.  Returns the result, what is left of the script and the
    number of [readline] calls made. *)
Fixpoint read_lines (script : list net_ev) (lines : list string) (first_code : option Z)
    (calls : nat) : outcome (Z * string) * list net_ev * nat :=
  match script with
  | [] => (Raise socket_error, [], S calls)
  | Fail :: rest => (Raise socket_error, rest, S calls)
  | Done :: rest =>
      (Ret (code_or_0 first_code, Py.join (String Py.LF EmptyString) lines), rest, S calls)
  | Line text :: rest =>
      let line := Py.rstrip_chars [Py.CR; Py.LF] text in
      let lines := (lines ++ [line])%list in
      if (4 <=? String.length line)%nat && isdigit (String.substring 0 3 line) then
        match int_digits (String.substring 0 3 line) 0 with
        | Raise e => (Raise e, rest, S calls)
        | Ret code =>
            let first_code :=
              match first_code with
              | None => code
              | Some c => c
              end in
            if negb (String.eqb (String.substring 3 1 line) "-") then
              (Ret (first_code, Py.join (String Py.LF EmptyString) lines), rest, S calls)
            else read_lines rest lines (Some first_code) (S calls)
        end
      else
        match lines with
        | [] => read_lines rest lines first_code (S calls)
        | _ :: _ =>
            (Ret (code_or_0 first_code, Py.join (String Py.LF EmptyString) lines),
             rest, S calls)
        end
  end.

(** [_read_resp(fh, sock, timeout)].  [sock.settimeout] is a local call
    whose failure the function ignores; it is not modelled. *)
Definition _read_resp (timeout : float) : M world (Z * string) :=
  fun w =>
    let '(r, rest, calls) := read_lines (net w) [] None 0 in
    (r, set_net rest (add_log (repeat Recv calls) w)).

Section Engine.

(** The module-level settings. *)
Variable cfg : config.

(** [email_validator.validate_email(email, check_deliverability=False)]:
    the pair [(v.local_part, v.domain)], or the exception raised. *)
Variable validate_email : string -> outcome (string * string).

(** [difflib.get_close_matches(word, possibilities, n, cutoff)] *)
Variable get_close_matches : string -> list string -> nat -> float -> list string.

(** ** Syntax *)

(** Returns [(ok, local, domain)]; only [EmailNotValidError] is caught. *)
Definition check_syntax (email : string)
  : outcome (bool * option string * option string) :=
  match validate_email email with
  | Ret (local_part, domain) => Ret (true, Some local_part, Some domain)
  | Raise EmailNotValidError =>
      match EMAIL_REGEX_match email with
      | Some (l, d) => Ret (true, Some l, Some d)
      | None => Ret (false, None, None)
      end
  | Raise e => Raise e
  end.

(** ** Exchanger resolution *)

(** One step of the provider fingerprinting loop: a later host that
    matches overrides the guess. *)
Definition guess_provider (provider_guess h : string) : string :=
  let hl := Py.lower h in
  if Py.contains "google" hl then "Google Workspace/Gmail"
  else if Py.contains "outlook" hl || Py.contains "protection.outlook.com" hl
          || Py.contains "microsoft" hl then "Microsoft 365/Outlook"
  else if Py.contains "yahoodns" hl || Py.contains "yahoo" hl then "Yahoo"
  else if Py.contains "proton" hl then "Proton"
  else if Py.contains "icloud" hl || Py.contains "me.com" hl then "Apple iCloud"
  else provider_guess.

Definition cache_store (domain : string) (res : bool * list string * string)
  : M world unit :=
  modify (fun w => set_cache (<[domain := res]> (_mx_cache w)) w).

(** Returns [(has_mx, hosts, provider_guess)]. *)
Definition check_mx (domain : string) (timeout : float)
  : M world (bool * list string * string) :=
  w <- get ;;
  match _mx_cache w !! domain with
  | Some res => ret res
  | None =>
      try_except
        (answers <- resolve domain timeout ;;
         let hosts := Py.sorted (map (Py.rstrip_chars ["."%char]) answers) in
         let provider_guess := fold_left guess_provider hosts EmptyString in
         let res := (true, hosts, provider_guess) in
         cache_store domain res ;;
         ret res)
        (fun _ =>
           let res := (false, [], EmptyString) in
           cache_store domain res ;;
           ret res)
  end.

(** ** Heuristic classifiers *)

Definition is_disposable (domain : string) : bool :=
  Py.mem (Py.lower domain) DISPOSABLE_DOMAINS.

Definition is_role_account (local_part : string) : bool :=
  let root := Py.lower (Py.before_char "." (Py.before_char "+" local_part)) in
  Py.mem root ROLE_ACCOUNTS.

Fixpoint blocklist_lookup (d : string) (items : list (string * string)) : option string :=
  match items with
  | [] => None
  | (key, name) :: rest =>
      if String.eqb d key || Py.endswith d ("." +:+ key) then Some name
      else blocklist_lookup d rest
  end.

Definition provider_blocks_smtp (domain : string) : option string :=
  blocklist_lookup (Py.lower domain) SMTP_BLOCKLIST_PROVIDERS.

Definition fixes : list (string * string) :=
  [("gamil.com", "gmail.com"); ("gnail.com", "gmail.com"); ("gmai.com", "gmail.com");
   ("gmail.co", "gmail.com"); ("yhoo.com", "yahoo.com"); ("yahoo.co", "yahoo.com");
   ("hotnail.com", "hotmail.com"); ("outlok.com", "outlook.com");
   ("iclod.com", "icloud.com"); ("me.co", "me.com"); ("protonmail.com", "proton.me");
   ("pm.me", "proton.me")].

(** [d[k]] when [k in d], on a dict literal. *)
Fixpoint dict_get (k : string) (d : list (string * string)) : option string :=
  match d with
  | [] => None
  | (k', v) :: rest => if String.eqb k k' then Some v else dict_get k rest
  end.

Definition typo_suggestion (domain : string) : option string :=
  let d := Py.lower domain in
  match dict_get d fixes with
  | Some fixed => Some fixed
  | None =>
      let cand := get_close_matches d COMMON_DOMAINS 1%nat 0.86%float in
      match cand with
      | c :: _ => Some c
      | [] => None
      end
  end.

(** ** The transport probe *)

Definition create_connection (host : string) (port : Z) (timeout : float)
  : M probe_state handle :=
  _ <- io (net_call (Connect host port timeout)) ;;
  ret (PlainSocket host).

Definition fh_write (data : string) : M probe_state unit :=
  _ <- io (net_call (Send data)) ;;
  ret tt.

Definition wrap_socket (host : string) : M probe_state handle :=
  _ <- io (net_call (StartTLS host)) ;;
  ret (TlsSocket host).

Definition fh_close : M probe_state unit :=
  _ <- io (net_call CloseFile) ;;
  ret tt.

Definition sock_close : M probe_state unit :=
  _ <- io (net_call CloseSock) ;;
  ret tt.

(** [try: fh.close(); sock.close()  except Exception: pass] *)
Definition close_both : M probe_state unit :=
  try_pass (fh_close ;; sock_close).

(** [f"...{code or 'unknown'}"] *)
Definition code_or_unknown (code : Z) : string :=
  if code =? 0 then "unknown" else Py.str_of_Z code.

Definition EHLO : string := "EHLO validator.local" +:+ Py.CRLF.
Definition HELO : string := "HELO validator.local" +:+ Py.CRLF.

(** The body of the [try] for one host.  [Some r] is [return r]; [None]
    is reaching the end of the body, after which the loop goes on. *)
Definition probe_body (email host : string) (timeout : float) (use_starttls : bool)
  : M probe_state (option (option bool * string)) :=
  s <- create_connection host 25 timeout ;;
  set_sock (Some s) ;;
  set_fh (Some s) ;;
  (* Banner *)
  banner <- io (_read_resp timeout) ;;
  (if negb (fst banner =? 220) then
     set_last_reason ("bad-banner-" +:+ Py.str_of_Z (fst banner)) ;;
     raise (Exception "bad banner")
   else ret tt) ;;
  (* EHLO *)
  fh_write EHLO ;;
  ehlo <- io (_read_resp timeout) ;;
  (if negb (fst ehlo =? 250) then
     (* try HELO *)
     fh_write HELO ;;
     helo <- io (_read_resp timeout) ;;
     if negb (fst helo =? 250) then
       set_last_reason ("helo-fail-" +:+ Py.str_of_Z (fst helo)) ;;
       raise (Exception "helo failed")
     else ret tt
   else ret tt) ;;
  (* STARTTLS if offered *)
  (if use_starttls && Py.contains "STARTTLS" (Py.upper (snd ehlo)) then
     fh_write ("STARTTLS" +:+ Py.CRLF) ;;
     tls <- io (_read_resp timeout) ;;
     if fst tls =? 220 then
       s' <- wrap_socket host ;;
       set_sock (Some s') ;;
       set_fh (Some s') ;;
       (* EHLO again after TLS *)
       fh_write EHLO ;;
       ehlo' <- io (_read_resp timeout) ;;
       if negb (fst ehlo' =? 250) then
         set_last_reason ("posttls-ehlo-" +:+ Py.str_of_Z (fst ehlo')) ;;
         raise (Exception "post-TLS EHLO failed")
       else ret tt
     else ret tt
   else ret tt) ;;
  (* MAIL FROM *)
  fh_write ("MAIL FROM:<" +:+ PROBE_MAIL_FROM cfg +:+ ">" +:+ Py.CRLF) ;;
  mf <- io (_read_resp timeout) ;;
  (if negb ((fst mf =? 250) || (fst mf =? 251)) then
     set_last_reason ("mf-" +:+ code_or_unknown (fst mf)) ;;
     raise (Exception "MAIL FROM rejected")
   else ret tt) ;;
  (* RCPT TO *)
  fh_write ("RCPT TO:<" +:+ email +:+ ">" +:+ Py.CRLF) ;;
  rcpt <- io (_read_resp timeout) ;;
  let code := fst rcpt in
  (* QUIT (best-effort) *)
  try_pass (fh_write ("QUIT" +:+ Py.CRLF) ;; _ <- io (_read_resp timeout) ;; ret tt) ;;
  if code =? 250 then
    close_both ;;
    ret (Some (Some true, "smtp-250"))
  else if (code =? 450) || (code =? 451) || (code =? 452) then
    close_both ;;
    ret (Some (None, "smtp-temp"))
  else if (500 <=? code) && (code <=? 599) then
    close_both ;;
    ret (Some (Some false, "smtp-5xx"))
  else
    set_last_reason ("smtp-" +:+ code_or_unknown code) ;;
    close_both ;;
    ret None.

(** The handler of the [try]: close what was opened, ignoring errors,
    and [continue]. *)
Definition probe_cleanup : M probe_state (option (option bool * string)) :=
  try_pass
    (s <- get ;;
     match fh s with
     | Some _ => fh_close
     | None => ret tt
     end ;;
     match sock s with
     | Some _ => sock_close
     | None => ret tt
     end) ;;
  ret None.

(** One iteration of [for host in mx_hosts[:3]]. *)
Definition probe_host (email : string) (timeout : float) (use_starttls : bool)
    (host : string) : M probe_state (option (option bool * string)) :=
  set_sock None ;;
  set_fh None ;;
  try_except (probe_body email host timeout use_starttls) (fun _ => probe_cleanup).

(** Returns [(True, "smtp-250")], [(False, "smtp-5xx")] or
    [(None, reason)]. *)
Definition smtp_probe (email : string) (mx_hosts : list string) (timeout : float)
    (use_starttls : bool) : M world (option bool * string) :=
  match mx_hosts with
  | [] => ret (None, "no-mx")
  | _ :: _ =>
      fun w =>
        let '(r, s) :=
          (found <- for_each (firstn 3 mx_hosts) (probe_host email timeout use_starttls) ;;
           match found with
           | Some res => ret res
           | None => s <- get ;; ret (None, last_reason s)
           end)
            {| pw := w; last_reason := "smtp-inconclusive"; sock := None; fh := None |} in
        (r, pw s)
  end.

(** ** The accept-all detector *)

(** [string.ascii_lowercase + string.digits] *)
Definition alphabet : list ascii :=
  list_ascii_of_string "abcdefghijklmnopqrstuvwxyz0123456789".

(** One iteration of [for _ in range(attempts)]. *)
Definition accept_attempt (domain : string) (mx_hosts : list string) (timeout : float)
    (_ : nat) : M accept_state (option (option bool)) :=
  rnd <- lift aw set_aw (random_choices alphabet 16) ;;
  let fake := rnd +:+ "@" +:+ domain in
  res <- lift aw set_aw (smtp_probe fake mx_hosts timeout true) ;;
  match fst res with
  | Some true =>
      modify (fun s => {| aw := aw s; successes := successes s + 1 |}) ;;
      ret None
  | None => ret (Some None)
  | Some false => ret None
  end.

Definition is_accept_all (domain : string) (mx_hosts : list string) (timeout : float)
  : M world (option bool) :=
  match mx_hosts with
  | [] => ret None
  | _ :: _ =>
      let attempts := Z.max 1 (ACCEPT_ALL_PROBES cfg) in
      fun w =>
        let '(r, s) :=
          (stopped <- for_each (seq 0 (Z.to_nat attempts))
                               (accept_attempt domain mx_hosts timeout) ;;
           match stopped with
           | Some v => ret v
           | None =>
               s <- get ;;
               if successes s =? attempts then ret (Some true)
               else if successes s =? 0 then ret (Some false)
               else ret None
           end)
            {| aw := w; successes := 0 |} in
        (r, aw s)
  end.

(** ** The fallback score *)

(** [checks] here is [{**checks, "unverifiable_provider": unverifiable}]. *)
Definition _fallback_risky_score (c : checks) (unverifiable_provider : bool) : float :=
  let score := 0.62%float in
  let score := if c_is_disposable c then (score - 0.22)%float else score in
  let score := if c_is_role_address c then (score - 0.12)%float else score in
  let score := if c_is_free_provider c then (score - 0.03)%float else score in
  let score :=
    match c_is_accept_all c with
    | Some true => (score - 0.18)%float
    | _ => score
    end in
  let score := if unverifiable_provider then (score - 0.08)%float else score in
  PyFloat.max 0%float (PyFloat.min 0.89%float score).

(** ** Public API *)

(** [None.split], [None.lower]: what Python raises when a method is
    called on [None]. *)
Definition attribute_error : exn := Exception "AttributeError".

Definition mk_result (raw verdict status : string) (score : float) (c : checks)
    (provider suggestion : option string) (reason : string) : result :=
  {| r_email := raw; r_verdict := verdict; r_status := status; r_score := score;
     r_checks := c; r_provider := provider; r_suggestion := suggestion;
     r_reason := reason |}.

(** [checks[key] = value], one function per key the code assigns. *)
Definition set_is_role_address (v : bool) (c : checks) : checks :=
  {| c_has_valid_address_syntax := c_has_valid_address_syntax c;
     c_has_mx_or_a_record := c_has_mx_or_a_record c;
     c_is_disposable := c_is_disposable c;
     c_is_role_address := v;
     c_is_free_provider := c_is_free_provider c;
     c_is_accept_all := c_is_accept_all c;
     c_smtp_checked := c_smtp_checked c;
     c_smtp_deliverable := c_smtp_deliverable c;
     c_domain := c_domain c |}.

Definition set_is_disposable (v : bool) (c : checks) : checks :=
  {| c_has_valid_address_syntax := c_has_valid_address_syntax c;
     c_has_mx_or_a_record := c_has_mx_or_a_record c;
     c_is_disposable := v;
     c_is_role_address := c_is_role_address c;
     c_is_free_provider := c_is_free_provider c;
     c_is_accept_all := c_is_accept_all c;
     c_smtp_checked := c_smtp_checked c;
     c_smtp_deliverable := c_smtp_deliverable c;
     c_domain := c_domain c |}.

Definition set_is_free_provider (v : bool) (c : checks) : checks :=
  {| c_has_valid_address_syntax := c_has_valid_address_syntax c;
     c_has_mx_or_a_record := c_has_mx_or_a_record c;
     c_is_disposable := c_is_disposable c;
     c_is_role_address := c_is_role_address c;
     c_is_free_provider := v;
     c_is_accept_all := c_is_accept_all c;
     c_smtp_checked := c_smtp_checked c;
     c_smtp_deliverable := c_smtp_deliverable c;
     c_domain := c_domain c |}.

Definition set_has_mx_or_a_record (v : bool) (c : checks) : checks :=
  {| c_has_valid_address_syntax := c_has_valid_address_syntax c;
     c_has_mx_or_a_record := v;
     c_is_disposable := c_is_disposable c;
     c_is_role_address := c_is_role_address c;
     c_is_free_provider := c_is_free_provider c;
     c_is_accept_all := c_is_accept_all c;
     c_smtp_checked := c_smtp_checked c;
     c_smtp_deliverable := c_smtp_deliverable c;
     c_domain := c_domain c |}.

Definition set_smtp_checked (v : bool) (c : checks) : checks :=
  {| c_has_valid_address_syntax := c_has_valid_address_syntax c;
     c_has_mx_or_a_record := c_has_mx_or_a_record c;
     c_is_disposable := c_is_disposable c;
     c_is_role_address := c_is_role_address c;
     c_is_free_provider := c_is_free_provider c;
     c_is_accept_all := c_is_accept_all c;
     c_smtp_checked := v;
     c_smtp_deliverable := c_smtp_deliverable c;
     c_domain := c_domain c |}.

Definition set_smtp_deliverable (v : bool) (c : checks) : checks :=
  {| c_has_valid_address_syntax := c_has_valid_address_syntax c;
     c_has_mx_or_a_record := c_has_mx_or_a_record c;
     c_is_disposable := c_is_disposable c;
     c_is_role_address := c_is_role_address c;
     c_is_free_provider := c_is_free_provider c;
     c_is_accept_all := c_is_accept_all c;
     c_smtp_checked := c_smtp_checked c;
     c_smtp_deliverable := v;
     c_domain := c_domain c |}.

Definition set_is_accept_all (v : option bool) (c : checks) : checks :=
  {| c_has_valid_address_syntax := c_has_valid_address_syntax c;
     c_has_mx_or_a_record := c_has_mx_or_a_record c;
     c_is_disposable := c_is_disposable c;
     c_is_role_address := c_is_role_address c;
     c_is_free_provider := c_is_free_provider c;
     c_is_accept_all := v;
     c_smtp_checked := c_smtp_checked c;
     c_smtp_deliverable := c_smtp_deliverable c;
     c_domain := c_domain c |}.

(** The [checks] dict as it is first built. *)
Definition initial_checks (ok : bool) (local_part domain : option string) : checks :=
  {| c_has_valid_address_syntax :=
       ok && Py.truthy_opt local_part && Py.truthy_opt domain;
     c_has_mx_or_a_record := false;
     c_is_disposable := false;
     c_is_role_address := false;
     c_is_free_provider := false;
     c_is_accept_all := None;
     c_smtp_checked := false;
     c_smtp_deliverable := false;
     c_domain := match domain with
                 | Some d => Py.or_none d
                 | None => None
                 end |}.

(** The fallback at the end of [validate_email_record]. *)
Definition fallback_result (raw : string) (c : checks) (provider_guess : string)
    (block_name suggestion : option string) (unverifiable : bool) (smtp_note : string)
  : result :=
  let unverifiable :=
    if Py.truthy_opt block_name && negb (c_smtp_checked c) then true else unverifiable in
  let reason := if unverifiable then "unverifiable" else "dns-only" in
  let score := _fallback_risky_score c unverifiable in
  mk_result raw "risky" "risky" (PyFloat.round3 score) c (Py.str_or provider_guess block_name)
    suggestion
    (if Py.truthy reason then reason
     else if Py.truthy smtp_note then smtp_note else "dns-only").

Definition validate_email_record (email : string) (timeout : float)
    (do_smtp accept_all_note : bool) : M world result :=
  let raw := email in
  let email := normalize email in
  syn <- (fun w => (check_syntax email, w)) ;;
  let '(ok, local_part, domain) := syn in
  let c := initial_checks ok local_part domain in
  if negb (c_has_valid_address_syntax c) then
    ret (mk_result raw "invalid" "invalid" 0.05%float c None None "bad-syntax")
  else
    match local_part, domain with
    | Some local_part, Some domain =>
        let c := set_is_role_address (is_role_account local_part) c in
        let c := set_is_disposable (is_disposable domain) c in
        let c := set_is_free_provider (Py.mem (Py.lower domain) FREE_PROVIDERS) c in
        let suggestion := typo_suggestion domain in
        mx <- check_mx domain timeout ;;
        let '(has_mx, hosts, provider_guess) := mx in
        let c := set_has_mx_or_a_record has_mx c in
        if negb has_mx then
          ret (mk_result raw "invalid" "invalid" 0.10%float c (Py.or_none provider_guess)
                 suggestion "no-mx")
        else
          let block_name := provider_blocks_smtp domain in
          if do_smtp && ALLOW_SMTP_PROBE cfg then
            let c := set_smtp_checked true c in
            if Py.truthy_opt block_name && negb (PROBE_BLOCKED cfg) then
              ret (fallback_result raw c provider_guess block_name suggestion true
                     EmptyString)
            else
              probe <- smtp_probe email hosts timeout true ;;
              let '(smtp_ok, smtp_note) := probe in
              match smtp_ok with
              | Some true =>
                  let c := set_smtp_deliverable true c in
                  aa <- is_accept_all domain hosts timeout ;;
                  let c := set_is_accept_all aa c in
                  if match aa with
                     | Some true => accept_all_note
                     | _ => false
                     end
                  then
                    (* Accept-all domains are unverifiable pre-send *)
                    ret (mk_result raw "risky" "risky" 0.74%float c
                           (Py.str_or provider_guess block_name) suggestion "accept-all")
                  else
                    (* Only path to 'valid' *)
                    ret (mk_result raw "valid" "valid" 0.95%float c
                           (Py.str_or provider_guess block_name) suggestion "smtp-250")
              | Some false =>
                  ret (mk_result raw "invalid" "invalid" 0.15%float
                         (set_is_accept_all (Some false) c)
                         (Py.str_or provider_guess block_name) suggestion "smtp-5xx")
              | None =>
                  ret (fallback_result raw c provider_guess block_name suggestion true
                         smtp_note)
              end
          else
            ret (fallback_result raw c provider_guess block_name suggestion false
                   EmptyString)
    | _, _ => raise attribute_error
    end.

End Engine.

(* ===================================================================== *)
(** * The callers of the engine *)
(* ===================================================================== *)

(** [status_map] of [validate_one_api], [revalidate_contact],
    [compose_and_send] and the import [commit]. *)
Definition status_map : list (string * string) :=
  [("valid", "valid"); ("invalid", "invalid"); ("risky", "risky")].

(** [status_map.get(res["verdict"], "unknown")]: the status the callers
    store on the contact. *)
Definition contact_status (res : result) : string :=
  match dict_get (r_verdict res) status_map with
  | Some status => status
  | None => "unknown"
  end.

(** ** The helpers of the bulk import ([routers/contacts_import_mapping.py]) *)

(** [s or ""] on an optional string. *)
Definition or_empty (s : option string) : string :=
  match s with
  | Some x => x
  | None => EmptyString
  end.

Definition _safe (s : option string) : string := Py.strip (or_empty s).

Definition _lower (s : option string) : string := Py.lower (Py.strip (or_empty s)).

(** [re.split(r"\s+", s)]: the fields between the maximal runs of white
    space; [cur] is the field being read, last character first, and
    [in_run] says that the previous character was white space. *)
Fixpoint re_split_ws (s : list ascii) (cur : list ascii) (in_run : bool) : list string :=
  match s with
  | [] => [string_of_list_ascii (rev cur)]
  | c :: t =>
      if Py.isspace c then
        if in_run then re_split_ws t cur true
        else string_of_list_ascii (rev cur) :: re_split_ws t [] true
      else re_split_ws t (c :: cur) false
  end.

Definition _split_full_name (full : option string) : string * string :=
  let full := _safe full in
  if negb (Py.truthy full) then (EmptyString, EmptyString)
  else
    match re_split_ws (list_ascii_of_string full) [] false with
    | [first] => (first, EmptyString)
    | first :: rest => (first, Py.join " " rest)
    | [] => (EmptyString, EmptyString)
    end.

(* ===================================================================== *)
(** * A model of [difflib.get_close_matches] *)
(* ===================================================================== *)

(** CPython's [difflib.SequenceMatcher] on strings, with [isjunk=None] and
    [autojunk=True] as [get_close_matches] builds it: no element is junk,
    and an element of [b] is "popular", and left out of [b2j], when [b] has
    200 elements or more and more than [len(b) // 100 + 1] of them are that
    element. *)
Module Difflib.

Fixpoint indices_from (i : nat) (c : ascii) (b : list ascii) : list nat :=
  match b with
  | [] => []
  | x :: t => if Ascii.eqb x c then i :: indices_from (S i) c t else indices_from (S i) c t
  end.

(** [b2j.get(c, [])] after [__chain_b]. *)
Definition b2j (b : list ascii) (c : ascii) : list nat :=
  let n := Datatypes.length b in
  let idxs := indices_from 0 c b in
  if (200 <=? n)%nat && (n / 100 + 1 <? Datatypes.length idxs)%nat then [] else idxs.

(** [j2len.get(j - 1, 0)] *)
Fixpoint j2len_get (j2len : list (nat * nat)) (j : nat) : nat :=
  match j2len with
  | [] => O
  | (j', k) :: t => if (j' =? j)%nat then k else j2len_get t j
  end.

Definition j2len_prev (j2len : list (nat * nat)) (j : nat) : nat :=
  match j with
  | O => O
  | S j' => j2len_get j2len j'
  end.

(** The inner loop [for j in b2j.get(a[i], nothing)]. *)
Fixpoint scan_js (js : list nat) (i blo bhi : nat) (j2len newj2len : list (nat * nat))
    (best : nat * nat * nat) : list (nat * nat) * (nat * nat * nat) :=
  match js with
  | [] => (newj2len, best)
  | j :: rest =>
      if (j <? blo)%nat then scan_js rest i blo bhi j2len newj2len best
      else if (bhi <=? j)%nat then (newj2len, best)
      else
        let k := S (j2len_prev j2len j) in
        let newj2len := (j, k) :: newj2len in
        let '(_, _, bestsize) := best in
        let best := if (bestsize <? k)%nat then (i + 1 - k, j + 1 - k, k)%nat else best in
        scan_js rest i blo bhi j2len newj2len best
  end.

(** The outer loop [for i in range(alo, ahi)]. *)
Fixpoint scan_is (is_ : list nat) (a b : list ascii) (blo bhi : nat)
    (j2len : list (nat * nat)) (best : nat * nat * nat) : nat * nat * nat :=
  match is_ with
  | [] => best
  | i :: rest =>
      let js := b2j b (nth i a Ascii.zero) in
      let '(newj2len, best) := scan_js js i blo bhi j2len [] best in
      scan_is rest a b blo bhi newj2len best
  end.

(** [while besti > alo and bestj > blo and a[besti-1] == b[bestj-1]] *)
Fixpoint extend_left (a b : list ascii) (alo blo besti bestj bestsize : nat)
  : nat * nat * nat :=
  match besti with
  | O => (besti, bestj, bestsize)
  | S i' =>
      if (alo <? besti)%nat && (blo <? bestj)%nat
         && Ascii.eqb (nth i' a Ascii.zero) (nth (bestj - 1) b Ascii.zero)
      then extend_left a b alo blo i' (bestj - 1)%nat (S bestsize)
      else (besti, bestj, bestsize)
  end.

(** [while besti+bestsize < ahi and bestj+bestsize < bhi and
    a[besti+bestsize] == b[bestj+bestsize]]; [room] bounds the number of
    iterations by [ahi - (besti + bestsize)]. *)
Fixpoint extend_right (room : nat) (a b : list ascii) (ahi bhi besti bestj bestsize : nat)
  : nat :=
  match room with
  | O => bestsize
  | S room' =>
      if (besti + bestsize <? ahi)%nat && (bestj + bestsize <? bhi)%nat
         && Ascii.eqb (nth (besti + bestsize) a Ascii.zero)
                      (nth (bestj + bestsize) b Ascii.zero)
      then extend_right room' a b ahi bhi besti bestj (S bestsize)
      else bestsize
  end.

(** [find_longest_match(alo, ahi, blo, bhi)].  With no junk the two
    loops that extend the match by junk elements do nothing. *)
Definition find_longest_match (a b : list ascii) (alo ahi blo bhi : nat)
  : nat * nat * nat :=
  let best := scan_is (seq alo (ahi - alo)) a b blo bhi [] (alo, blo, O) in
  let '(besti, bestj, bestsize) := best in
  let '(besti, bestj, bestsize) := extend_left a b alo blo besti bestj bestsize in
  let bestsize :=
    extend_right (ahi - (besti + bestsize)) a b ahi bhi besti bestj bestsize in
  (besti, bestj, bestsize).

(** The [while queue] loop of [get_matching_blocks]: the blocks found.
    A block takes one element of [a] at least and queues two ranges at
    most, so [2 * len(a) + 1] iterations empty the queue. *)
Fixpoint matching_loop (fuel : nat) (a b : list ascii) (queue : list (nat * nat * nat * nat))
    (blocks : list (nat * nat * nat)) : list (nat * nat * nat) :=
  match fuel with
  | O => blocks
  | S fuel' =>
      match rev queue with
      | [] => blocks
      | (alo, ahi, blo, bhi) :: rq =>
          let queue := rev rq in
          let '(i, j, k) := find_longest_match a b alo ahi blo bhi in
          if (k =? 0)%nat then matching_loop fuel' a b queue blocks
          else
            let blocks := (blocks ++ [(i, j, k)])%list in
            let queue :=
              if (alo <? i)%nat && (blo <? j)%nat
              then (queue ++ [(alo, i, blo, j)])%list else queue in
            let queue :=
              if (i + k <? ahi)%nat && (j + k <? bhi)%nat
              then (queue ++ [(i + k, ahi, j + k, bhi)])%list%nat else queue in
            matching_loop fuel' a b queue blocks
      end
  end.

Definition of_nat (n : nat) : float := PrimFloat.of_uint63 (Uint63.of_Z (Z.of_nat n)).

Definition _calculate_ratio (matches length : nat) : float :=
  if (length =? 0)%nat then 1%float
  else (2 * of_nat matches / of_nat length)%float.

(** [ratio()]: the sizes of the matching blocks add up to [matches];
    sorting the blocks and merging adjacent ones, as
    [get_matching_blocks] does before returning them, keeps the sum. *)
Definition ratio (a b : list ascii) : float :=
  let la := Datatypes.length a in
  let lb := Datatypes.length b in
  let blocks := matching_loop (2 * la + 1) a b [(O, la, O, lb)] [] in
  let matches := fold_left (fun acc x => (acc + snd x)%nat) blocks O in
  _calculate_ratio matches (la + lb).

Fixpoint avail_get (avail : list (ascii * Z)) (c : ascii) : option Z :=
  match avail with
  | [] => None
  | (c', n) :: t => if Ascii.eqb c' c then Some n else avail_get t c
  end.

Fixpoint quick_loop (a b : list ascii) (avail : list (ascii * Z)) (matches : nat) : nat :=
  match a with
  | [] => matches
  | elt :: rest =>
      let numb :=
        match avail_get avail elt with
        | Some n => n
        | None => Z.of_nat (Datatypes.length (indices_from 0 elt b))
        end in
      quick_loop rest b ((elt, numb - 1) :: avail)
                 (if 0 <? numb then S matches else matches)
  end.

Definition quick_ratio (a b : list ascii) : float :=
  _calculate_ratio (quick_loop a b [] O) (Datatypes.length a + Datatypes.length b).

Definition real_quick_ratio (a b : list ascii) : float :=
  let la := Datatypes.length a in
  let lb := Datatypes.length b in
  _calculate_ratio (Nat.min la lb) (la + lb).

(** [(s1, x1) > (s2, x2)] on the pairs [(score, x)]. *)
Definition pair_gt (p q : float * string) : bool :=
  PrimFloat.ltb (fst q) (fst p)
  || (PrimFloat.eqb (fst p) (fst q) && String.ltb (snd q) (snd p)).

Fixpoint insert_desc (p : float * string) (l : list (float * string))
  : list (float * string) :=
  match l with
  | [] => [p]
  | q :: t => if pair_gt p q then p :: l else q :: insert_desc p t
  end.

(** [heapq.nlargest(n, result)]: the [n] largest, largest first. *)
Definition nlargest (n : nat) (l : list (float * string)) : list (float * string) :=
  firstn n (fold_left (fun acc p => insert_desc p acc) l []).

(** [get_close_matches(word, possibilities, n, cutoff)] for [n > 0] and
    [cutoff] in [[0, 1]]. *)
Definition get_close_matches (word : string) (possibilities : list string) (n : nat)
    (cutoff : float) : list string :=
  let b := list_ascii_of_string word in
  let result :=
    fold_left
      (fun acc x =>
         let a := list_ascii_of_string x in
         if PrimFloat.leb cutoff (real_quick_ratio a b)
            && PrimFloat.leb cutoff (quick_ratio a b)
            && PrimFloat.leb cutoff (ratio a b)
         then (acc ++ [(ratio a b, x)])%list else acc)
      possibilities [] in
  map snd (nlargest n result).

End Difflib.

(* ===================================================================== *)
(** * Sample environments *)
(* ===================================================================== *)

(** A stand-in for [email_validator.validate_email] on the addresses the
    examples use: it returns the parts of the two well-formed sample
    addresses and raises [EmailNotValidError] on everything else. *)
Definition sample_validate_email (email : string) : outcome (string * string) :=
  if String.eqb email "user@example.com" then Ret ("user", "example.com")
  else if String.eqb email "someone@gmail.com" then Ret ("someone", "gmail.com")
  else Raise EmailNotValidError.

(** A resolver that knows two domains. *)
Definition sample_dns (domain : string) (lifetime : float) : outcome (list string) :=
  if String.eqb domain "example.com" then Ret ["mx2.example.com."; "mx1.example.com."]
  else if String.eqb domain "gmail.com" then Ret ["gmail-smtp-in.l.google.com."]
  else Raise (Exception "NXDOMAIN").

(** A resolver whose answers have changed. *)
Definition other_dns (domain : string) (lifetime : float) : outcome (list string) :=
  if String.eqb domain "example.com" then Raise (Exception "NXDOMAIN")
  else Ret ["mail.protection.outlook.com."].

(** The answers of a server during one plain session, up to its reply to
    [RCPT TO]: connect, banner, EHLO and its reply, MAIL FROM and its
    reply, RCPT TO and [rcpt_reply], QUIT and its reply, the two closes. *)
Definition session (rcpt_reply : string) : list net_ev :=
  [Done; Line ("220 mx ESMTP" +:+ Py.CRLF);
   Done; Line ("250-mx greets you" +:+ Py.CRLF); Line ("250 SIZE 1000000" +:+ Py.CRLF);
   Done; Line ("250 2.1.0 Ok" +:+ Py.CRLF);
   Done; Line (rcpt_reply +:+ Py.CRLF);
   Done; Line ("221 2.0.0 Bye" +:+ Py.CRLF);
   Done; Done].

Definition sample_world (script : list net_ev) : world :=
  {| _mx_cache := ∅; dns := sample_dns; net := script; entropy := [3; 14; 15; 92; 65]%nat;
     log := [] |}.

(** The hosts of the [Connect] calls of a log, in order. *)
Fixpoint connects (l : list action) : list string :=
  match l with
  | [] => []
  | Connect host _ _ :: t => host :: connects t
  | _ :: t => connects t
  end.

(** The data of the [Send] calls of a log, in order: what was written to
    the server. *)
Fixpoint sends (l : list action) : list string :=
  match l with
  | [] => []
  | Send data :: t => data :: sends t
  | _ :: t => sends t
  end.

(** Three sessions in which the server accepts the recipient: the probe
    of the address and the two probes of the detector. *)
Definition accepting_script : list net_ev :=
  (session "250 2.1.5 Ok" ++ session "250 2.1.5 Ok" ++ session "250 2.1.5 Ok")%list.

(** The checks of a well-formed address at a domain with exchangers, no
    flag raised and no probe made. *)
Definition plain_checks (domain : string) (free : bool) : checks :=
  {| c_has_valid_address_syntax := true;
     c_has_mx_or_a_record := true;
     c_is_disposable := false;
     c_is_role_address := false;
     c_is_free_provider := free;
     c_is_accept_all := None;
     c_smtp_checked := false;
     c_smtp_deliverable := false;
     c_domain := Some domain |}.

(** What the engine answers for [user@example.com] without a probe. *)
Definition example_dns_only : result :=
  {| r_email := "user@example.com"; r_verdict := "risky"; r_status := "risky";
     r_score := 0.62%float; r_checks := plain_checks "example.com" false;
     r_provider := None; r_suggestion := None; r_reason := "dns-only" |}.

(** What the engine answers for [someone@gmail.com] without a probe. *)
Definition gmail_unverifiable : result :=
  {| r_email := "someone@gmail.com"; r_verdict := "risky"; r_status := "risky";
     r_score := 0.51%float; r_checks := plain_checks "gmail.com" true;
     r_provider := Some "Google Workspace/Gmail"; r_suggestion := Some "gmail.com";
     r_reason := "unverifiable" |}.

(** The settings with [ACCEPT_ALL_PROBES=0]. *)
Definition no_retry_config : config := {|
  ALLOW_SMTP_PROBE := true;
  PROBE_BLOCKED := true;
  DEFAULT_TIMEOUT := 6%float;
  PROBE_MAIL_FROM := "probe@localhost.localdomain";
  ACCEPT_ALL_PROBES := 0
|}.

(** The run on [user@example.com] against a server that rejects the
    recipient, and the record it returns. *)
Definition rejected_run : outcome result * world :=
  validate_email_record default_config sample_validate_email Difflib.get_close_matches
    "user@example.com" 6%float true true (sample_world (session "550 5.1.1 No such user")).

Definition rejected_record : result :=
  {| r_email := "user@example.com"; r_verdict := "invalid"; r_status := "invalid";
     r_score := 0.15%float;
     r_checks :=
       set_is_accept_all (Some false)
         (set_smtp_checked true (plain_checks "example.com" false));
     r_provider := None; r_suggestion := None; r_reason := "smtp-5xx" |}.

(* ===================================================================== *)
(** * The vocabulary of the properties *)
(* ===================================================================== *)

Section Vocabulary.

Variable cfg : config.
Variable validate_email : string -> outcome (string * string).
Variable get_close_matches : string -> list string -> nat -> float -> list string.

(** The syntax check accepts [raw] with the parts [l] and [d]. *)
Definition syntax_ok (raw l d : string) : Prop :=
  check_syntax validate_email (normalize raw) = Ret (true, Some l, Some d)
  /\ Py.truthy l = true /\ Py.truthy d = true.

(** The [checks] dict once the classifiers have run. *)
Definition classified (l d : string) : checks :=
  set_is_free_provider (Py.mem (Py.lower d) FREE_PROVIDERS)
    (set_is_disposable (is_disposable d)
       (set_is_role_address (is_role_account l)
          (initial_checks true (Some l) (Some d)))).

(** The run on [raw] passes the syntax check and finds the exchangers
    [hosts] of the domain [d], with the provider guess [pg], leaving the
    world [w1]. *)
Definition has_exchangers (raw : string) (timeout : float) (w : world)
    (l d : string) (hosts : list string) (pg : string) (w1 : world) : Prop :=
  syntax_ok raw l d /\ check_mx d timeout w = (Ret (true, hosts, pg), w1).

(** The transport probe is requested and allowed. *)
Definition probe_enabled (do_smtp : bool) : bool := do_smtp && ALLOW_SMTP_PROBE cfg.

(** The provider of [d] is on the refuse-to-verify list and the policy is
    not to probe such providers. *)
Definition probe_refused (d : string) : bool :=
  Py.truthy_opt (provider_blocks_smtp d) && negb (PROBE_BLOCKED cfg).

Inductive run (raw : string) (timeout : float) (do_smtp accept_all_note : bool) (w : world)
  : result -> world -> Prop :=
| run_bad_syntax ok l d :
    check_syntax validate_email (normalize raw) = Ret (ok, l, d) ->
    c_has_valid_address_syntax (initial_checks ok l d) = false ->
    run raw timeout do_smtp accept_all_note w
      (mk_result raw "invalid" "invalid" 0.05%float (initial_checks ok l d) None None
         "bad-syntax") w
| run_no_mx l d hosts pg w1 :
    syntax_ok raw l d ->
    check_mx d timeout w = (Ret (false, hosts, pg), w1) ->
    run raw timeout do_smtp accept_all_note w
      (mk_result raw "invalid" "invalid" 0.10%float
         (set_has_mx_or_a_record false (classified l d)) (Py.or_none pg)
         (typo_suggestion get_close_matches d) "no-mx") w1
| run_not_probed l d hosts pg w1 :
    has_exchangers raw timeout w l d hosts pg w1 ->
    probe_enabled do_smtp = false ->
    run raw timeout do_smtp accept_all_note w
      (fallback_result raw (set_has_mx_or_a_record true (classified l d)) pg
         (provider_blocks_smtp d) (typo_suggestion get_close_matches d) false EmptyString)
      w1
| run_refused l d hosts pg w1 :
    has_exchangers raw timeout w l d hosts pg w1 ->
    probe_enabled do_smtp = true ->
    probe_refused d = true ->
    run raw timeout do_smtp accept_all_note w
      (fallback_result raw
         (set_smtp_checked true (set_has_mx_or_a_record true (classified l d))) pg
         (provider_blocks_smtp d) (typo_suggestion get_close_matches d) true EmptyString)
      w1
| run_accepted l d hosts pg w1 note w2 aa w3 :
    has_exchangers raw timeout w l d hosts pg w1 ->
    probe_enabled do_smtp = true ->
    probe_refused d = false ->
    smtp_probe cfg (normalize raw) hosts timeout true w1 = (Ret (Some true, note), w2) ->
    is_accept_all cfg d hosts timeout w2 = (Ret aa, w3) ->
    let c :=
      set_is_accept_all aa
        (set_smtp_deliverable true
           (set_smtp_checked true (set_has_mx_or_a_record true (classified l d)))) in
    run raw timeout do_smtp accept_all_note w
      (if match aa with
          | Some true => accept_all_note
          | _ => false
          end
       then mk_result raw "risky" "risky" 0.74%float c
              (Py.str_or pg (provider_blocks_smtp d))
              (typo_suggestion get_close_matches d) "accept-all"
       else mk_result raw "valid" "valid" 0.95%float c
              (Py.str_or pg (provider_blocks_smtp d))
              (typo_suggestion get_close_matches d) "smtp-250") w3
| run_rejected l d hosts pg w1 note w2 :
    has_exchangers raw timeout w l d hosts pg w1 ->
    probe_enabled do_smtp = true ->
    probe_refused d = false ->
    smtp_probe cfg (normalize raw) hosts timeout true w1 = (Ret (Some false, note), w2) ->
    run raw timeout do_smtp accept_all_note w
      (mk_result raw "invalid" "invalid" 0.15%float
         (set_is_accept_all (Some false)
            (set_smtp_checked true (set_has_mx_or_a_record true (classified l d))))
         (Py.str_or pg (provider_blocks_smtp d))
         (typo_suggestion get_close_matches d) "smtp-5xx") w2
| run_inconclusive l d hosts pg w1 note w2 :
    has_exchangers raw timeout w l d hosts pg w1 ->
    probe_enabled do_smtp = true ->
    probe_refused d = false ->
    smtp_probe cfg (normalize raw) hosts timeout true w1 = (Ret (None, note), w2) ->
    run raw timeout do_smtp accept_all_note w
      (fallback_result raw
         (set_smtp_checked true (set_has_mx_or_a_record true (classified l d))) pg
         (provider_blocks_smtp d) (typo_suggestion get_close_matches d) true note) w2.


(** ** The accept-all detector's attempts *)

(** [k] successive probes of fresh random addresses at [domain], starting
    in the world [w]: their outcomes, first to last, and the world they
    leave. *)
Inductive attempts (domain : string) (hosts : list string) (timeout : float)
  : nat -> world -> list (option bool) -> world -> Prop :=
| attempts_nil w : attempts domain hosts timeout O w [] w
| attempts_cons k w rnd wa ok note wb os wc :
    random_choices alphabet 16 w = (Ret rnd, wa) ->
    smtp_probe cfg (rnd +:+ "@" +:+ domain) hosts timeout true wa = (Ret (ok, note), wb) ->
    attempts domain hosts timeout k wb os wc ->
    attempts domain hosts timeout (S k) w (ok :: os) wc.

(** ** The transport probe's hosts *)

(** The state in which [smtp_probe] enters its loop. *)
Definition probe_start (w : world) : probe_state :=
  {| pw := w; last_reason := "smtp-inconclusive"; sock := None; fh := None |}.

(** The hosts of the list are tried one after the other and each is
    abandoned: the loop goes on after it. *)
Inductive abandoned (email : string) (timeout : float) (use_starttls : bool)
  : list string -> probe_state -> probe_state -> Prop :=
| abandoned_nil s : abandoned email timeout use_starttls [] s s
| abandoned_cons h hs s s1 s2 :
    probe_host cfg email timeout use_starttls h s = (Ret None, s1) ->
    abandoned email timeout use_starttls hs s1 s2 ->
    abandoned email timeout use_starttls (h :: hs) s s2.


End Vocabulary.

(** The number of Accepted outcomes. *)
Fixpoint accepted (os : list (option bool)) : Z :=
  match os with
  | [] => 0
  | Some true :: t => 1 + accepted t
  | _ :: t => accepted t
  end.

(** A world computation that connects to no host. *)
Definition quiet_w {A} (m : M world A) : Prop :=
  forall w o w', m w = (o, w') -> connects (log w') = connects (log w).

(** A step of the probe that connects to no host. *)
Definition quiet {A} (m : M probe_state A) : Prop :=
  forall s o s', m s = (o, s') -> connects (log (pw s')) = connects (log (pw s)).

(** ** Reply lines *)

(** [line] is a reply line: three decimal digits, which read as [code],
    then one character, which is a hyphen on a continuation line and
    anything else on the final line of a reply, then text. *)
Definition reply_line (line : string) (code : Z) (final : bool) : Prop :=
  exists a b c sep rest,
    line = String a (String b (String c (String sep rest)))
    /\ Py.in_range 48 57 a = true /\ Py.in_range 48 57 b = true
    /\ Py.in_range 48 57 c = true
    /\ code = 100 * Z.of_nat (Py.ord a - 48) + 10 * Z.of_nat (Py.ord b - 48)
              + Z.of_nat (Py.ord c - 48)
    /\ negb (Ascii.eqb sep "-") = final.

(** ** The fallback score, as the specification words it *)


(** ** Malformed addresses *)

Definition chars (s : string) : list ascii := list_ascii_of_string s.

(** No [@], or nothing after an [@], or no dot after an [@]. *)
Definition malformed (s : string) : Prop :=
  ~ In "@"%char (chars s)
  \/ (exists l, chars s = (l ++ ["@"%char])%list)
  \/ (exists l d, chars s = (l ++ "@"%char :: d)%list /\ ~ In "."%char d).

(** [f] removes characters, never an [@]. *)
Definition trims (f : string -> string) : Prop :=
  forall s,
    (forall c, In c (chars (f s)) -> In c (chars s))
    /\ (forall l d, chars s = (l ++ "@"%char :: d)%list ->
        exists l' d', chars (f s) = (l' ++ "@"%char :: d')%list
                      /\ forall c, In c d' -> In c d).

(** ** Orders, blanks and words *)

(** [a] does not come after [b] in the order of [sorted]. *)
Definition str_le (a b : string) : Prop := String.ltb b a = false.

(** Only white space. *)
Definition blank (s : string) : Prop :=
  Forall (fun c => Py.isspace c = true) (chars s).

(** Not empty, and no white space. *)
Definition word (s : string) : Prop :=
  s <> EmptyString /\ Forall (fun c => Py.isspace c = false) (chars s).

(** ** Steps of the probe *)

(** A step of the probe that leaves the last reason as it is. *)
Definition keeps_reason {A} (m : M probe_state A) : Prop :=
  forall s o s', m s = (o, s') -> last_reason s' = last_reason s.

(* ===================================================================== *)
(** * Computations that return *)
(* ===================================================================== *)

(** [m] returns a value from every state: it raises nothing. *)
Definition returns {S A} (m : M S A) : Prop :=
  forall s, exists a s', m s = (Ret a, s').

Lemma returns_ret {S A} (a : A) : returns (@ret S A a).
Proof. intros s. exists a, s. reflexivity. Qed.

Lemma returns_modify {S} (f : S -> S) : returns (modify f).
Proof. intros s. exists tt, (f s). reflexivity. Qed.

Lemma returns_get {S} : returns (@get S).
Proof. intros s. exists s, s. reflexivity. Qed.

Lemma returns_bind {S A B} (m : M S A) (k : A -> M S B) :
  returns m -> (forall a, returns (k a)) -> returns (bind m k).
Proof.
  intros Hm Hk s. unfold bind.
  destruct (Hm s) as (a & s1 & ->).
  apply Hk.
Qed.

Lemma returns_try_except {S A} (body : M S A) (handler : exn -> M S A) :
  (forall e, returns (handler e)) -> returns (try_except body handler).
Proof.
  intros Hh s. unfold try_except.
  destruct (body s) as [[a | e] s1].
  - exists a, s1. reflexivity.
  - apply Hh.
Qed.

Lemma returns_try_pass {S} (body : M S unit) : returns (try_pass body).
Proof. apply returns_try_except. intros e. apply returns_ret. Qed.


Lemma returns_for_each {S X R} (xs : list X) (body : X -> M S (option R)) :
  (forall x, returns (body x)) -> returns (for_each xs body).
Proof.
  intros Hb. induction xs as [| x rest IH]; simpl.
  - apply returns_ret.
  - apply returns_bind; [apply Hb |].
    intros [v |]; [apply returns_ret | exact IH].
Qed.

Lemma returns_random_choices (alphabet : list ascii) (k : nat) :
  returns (random_choices alphabet k).
Proof.
  induction k as [| k IH]; simpl.
  - apply returns_ret.
  - intros w.
    apply (returns_bind (random_choices alphabet k)); [exact IH |].
    intros s. apply returns_ret.
Qed.

Section Returns.

Variable cfg : config.

Lemma returns_probe_cleanup : returns probe_cleanup.
Proof.
  unfold probe_cleanup.
  apply returns_bind; [apply returns_try_pass |].
  intros _. apply returns_ret.
Qed.

Lemma returns_probe_host email timeout use_starttls host :
  returns (probe_host cfg email timeout use_starttls host).
Proof.
  unfold probe_host.
  apply returns_bind; [apply returns_modify | intros _].
  apply returns_bind; [apply returns_modify | intros _].
  apply returns_try_except. intros _. apply returns_probe_cleanup.
Qed.

(** The probe absorbs every failure of the network: it always returns. *)
Lemma returns_smtp_probe email mx_hosts timeout use_starttls :
  returns (smtp_probe cfg email mx_hosts timeout use_starttls).
Proof.
  unfold smtp_probe. destruct mx_hosts as [| h hs]; [apply returns_ret |].
  intros w.
  match goal with
  | |- context [?m {| pw := w; last_reason := ?l; sock := ?a; fh := ?b |}] =>
      assert (Hm : returns m)
  end.
  { apply returns_bind.
    - apply returns_for_each. intros x. apply returns_probe_host.
    - intros [res |]; [apply returns_ret |].
      apply returns_bind; [apply returns_get | intros s; apply returns_ret]. }
  destruct (Hm {| pw := w; last_reason := "smtp-inconclusive"; sock := None; fh := None |})
    as (r & s' & E).
  rewrite E. exists r, (pw s'). reflexivity.
Qed.




End Returns.

(* ===================================================================== *)
(** * The verdict state machine *)
(* ===================================================================== *)

Section Runs.

Variable cfg : config.
Variable validate_email : string -> outcome (string * string).
Variable get_close_matches : string -> list string -> nat -> float -> list string.

Local Abbreviation run := (run cfg validate_email get_close_matches).
Local Abbreviation syntax_ok := (syntax_ok validate_email).
Local Abbreviation has_exchangers := (has_exchangers validate_email).
Local Abbreviation probe_enabled := (probe_enabled cfg).
Local Abbreviation probe_refused := (probe_refused cfg).

Lemma initial_checks_valid ok l d :
  c_has_valid_address_syntax (initial_checks ok l d) = true ->
  ok = true /\ exists l' d',
    l = Some l' /\ d = Some d' /\ Py.truthy l' = true /\ Py.truthy d' = true.
Proof.
  unfold initial_checks; cbn [c_has_valid_address_syntax].
  rewrite !andb_true_iff. intros [[Hok Hl] Hd].
  destruct l as [l' |]; [| discriminate Hl].
  destruct d as [d' |]; [| discriminate Hd].
  split; [exact Hok |]. exists l', d'. auto.
Qed.

Lemma syntax_ok_valid raw l d :
  syntax_ok raw l d ->
  c_has_valid_address_syntax (initial_checks true (Some l) (Some d)) = true.
Proof.
  intros (_ & Hl & Hd). unfold initial_checks; cbn. rewrite Hl, Hd. reflexivity.
Qed.

Lemma run_sound raw timeout do_smtp aan w r w' :
  validate_email_record cfg validate_email get_close_matches raw timeout do_smtp aan w
  = (Ret r, w') ->
  run raw timeout do_smtp aan w r w'.
Proof.
  unfold validate_email_record, bind. intros H.
  destruct (check_syntax validate_email (normalize raw)) as [[[ok l] d] | x] eqn:Hsyn;
    [| discriminate H].
  cbv beta iota zeta in H.
  destruct (c_has_valid_address_syntax (initial_checks ok l d)) eqn:Hv;
    cbn [negb] in H.
  2: { injection H as <- <-. eapply run_bad_syntax; eauto. }
  destruct (initial_checks_valid _ _ _ Hv) as (-> & l' & d' & -> & -> & Hl & Hd).
  assert (Hok : syntax_ok raw l' d') by (split; auto).
  destruct (check_mx d' timeout w) as [[[[has_mx hosts] pg] | x] w1] eqn:Hmx;
    [| discriminate H].
  destruct has_mx; cbn [negb] in H.
  2: { injection H as <- <-. eapply run_no_mx; eauto. }
  assert (Hex : has_exchangers raw timeout w l' d' hosts pg w1) by (split; auto).
  fold (probe_enabled do_smtp) in H. fold (probe_refused d') in H.
  destruct (probe_enabled do_smtp) eqn:Hen.
  2: { injection H as <- <-. eapply run_not_probed; eauto. }
  destruct (probe_refused d') eqn:Href.
  { injection H as <- <-. eapply run_refused; eauto. }
  destruct (smtp_probe cfg (normalize raw) hosts timeout true w1)
    as [[[ok' note] | x] w2] eqn:Hp; [| discriminate H].
  destruct ok' as [[|] |].
  - destruct (is_accept_all cfg d' hosts timeout w2) as [[aa | x] w3] eqn:Haa;
      [| discriminate H].
    pose proof (run_accepted cfg validate_email get_close_matches raw timeout do_smtp aan w
                  l' d' hosts pg w1 note w2 aa w3
                  Hex Hen Href Hp Haa) as R.
    cbv zeta in R.
    destruct (match aa with Some true => aan | _ => false end);
      injection H as <- <-; exact R.
  - injection H as <- <-. eapply run_rejected; eauto.
  - injection H as <- <-. eapply run_inconclusive; eauto.
Qed.

Lemma run_complete raw timeout do_smtp aan w r w' :
  run raw timeout do_smtp aan w r w' ->
  validate_email_record cfg validate_email get_close_matches raw timeout do_smtp aan w
  = (Ret r, w').
Proof.
  intros R. unfold validate_email_record, bind.
  destruct R as
    [ok l d Hsyn Hv
    | l d hosts pg w1 (Hsyn & Hl & Hd) Hmx
    | l d hosts pg w1 ((Hsyn & Hl & Hd) & Hmx) Hen
    | l d hosts pg w1 ((Hsyn & Hl & Hd) & Hmx) Hen Href
    | l d hosts pg w1 note w2 aa w3 ((Hsyn & Hl & Hd) & Hmx) Hen Href Hp Haa
    | l d hosts pg w1 note w2 ((Hsyn & Hl & Hd) & Hmx) Hen Href Hp
    | l d hosts pg w1 note w2 ((Hsyn & Hl & Hd) & Hmx) Hen Href Hp ];
    rewrite Hsyn; cbv beta iota zeta.
  - rewrite Hv. reflexivity.
  - rewrite (syntax_ok_valid raw l d) by (split; auto). cbn [negb].
    rewrite Hmx. reflexivity.
  - rewrite (syntax_ok_valid raw l d) by (split; auto). cbn [negb].
    rewrite Hmx. cbn [negb]. fold (probe_enabled do_smtp). rewrite Hen. reflexivity.
  - rewrite (syntax_ok_valid raw l d) by (split; auto). cbn [negb].
    rewrite Hmx. cbn [negb]. fold (probe_enabled do_smtp). rewrite Hen.
    fold (probe_refused d). rewrite Href. reflexivity.
  - rewrite (syntax_ok_valid raw l d) by (split; auto). cbn [negb].
    rewrite Hmx. cbn [negb]. fold (probe_enabled do_smtp). rewrite Hen.
    fold (probe_refused d). rewrite Href. rewrite Hp. rewrite Haa.
    destruct (match aa with Some true => aan | _ => false end); reflexivity.
  - rewrite (syntax_ok_valid raw l d) by (split; auto). cbn [negb].
    rewrite Hmx. cbn [negb]. fold (probe_enabled do_smtp). rewrite Hen.
    fold (probe_refused d). rewrite Href. rewrite Hp. reflexivity.
  - rewrite (syntax_ok_valid raw l d) by (split; auto). cbn [negb].
    rewrite Hmx. cbn [negb]. fold (probe_enabled do_smtp). rewrite Hen.
    fold (probe_refused d). rewrite Href. rewrite Hp. reflexivity.
Qed.

(** What the fallback at the end of the function returns. *)
Lemma fallback_result_fields raw c pg bn sg unv note :
  let u := (Py.truthy_opt bn && negb (c_smtp_checked c)) || unv in
  let r := fallback_result raw c pg bn sg unv note in
  r_email r = raw /\ r_verdict r = "risky" /\ r_status r = "risky"
  /\ r_reason r = (if u then "unverifiable" else "dns-only")
  /\ r_score r = PyFloat.round3 (_fallback_risky_score c u)
  /\ r_checks r = c.
Proof.
  unfold fallback_result, mk_result; cbn [r_email r_verdict r_status r_reason r_score r_checks].
  destruct (Py.truthy_opt bn && negb (c_smtp_checked c)); cbn [orb];
    [| destruct unv]; repeat split; reflexivity.
Qed.




(** ** C10 *)

(** C10: the [status] field of every record [validate_email_record]
    returns equals its [verdict] field. *)
Theorem status_equals_verdict raw timeout do_smtp accept_all_note w r w' :
  validate_email_record cfg validate_email get_close_matches raw timeout do_smtp
    accept_all_note w = (Ret r, w') ->
  r_status r = r_verdict r.
Proof.
  intros H. apply run_sound in H.
  destruct H as [| | | | l d hosts pg w1 note w2 aa w3 ? ? ? ? ? c | |];
    try reflexivity.
  destruct (match aa with Some true => accept_all_note | _ => false end); reflexivity.
Qed.

(** ** C7 *)


End Runs.

(* ===================================================================== *)
(** * The probe gate and the accept-all gate *)
(* ===================================================================== *)

Section Gates.

Variable cfg : config.
Variable validate_email : string -> outcome (string * string).
Variable get_close_matches : string -> list string -> nat -> float -> list string.

Local Abbreviation has_exchangers := (has_exchangers validate_email).
Local Abbreviation validate_email_record :=
  (validate_email_record cfg validate_email get_close_matches).

(** ** The accept-all gate *)

(** The gate as the code has it: when the transport probe returns Accepted,
    the result is risky, "accept-all", 0.74 if the detector returns True
    and [accept_all_note] is set, and valid, "smtp-250", 0.95 otherwise;
    and valid is produced only where the probe returned Accepted and the
    detector did not return True or [accept_all_note] is not set. *)
Theorem accept_all_gate raw timeout do_smtp accept_all_note w :
  (forall l d hosts pg w1 note w2 aa w3,
      has_exchangers raw timeout w l d hosts pg w1 ->
      probe_enabled cfg do_smtp = true ->
      probe_refused cfg d = false ->
      smtp_probe cfg (normalize raw) hosts timeout true w1 = (Ret (Some true, note), w2) ->
      is_accept_all cfg d hosts timeout w2 = (Ret aa, w3) ->
      exists r,
        validate_email_record raw timeout do_smtp accept_all_note w = (Ret r, w3)
        /\ (aa = Some true -> accept_all_note = true ->
            r_verdict r = "risky" /\ r_reason r = "accept-all"
            /\ r_score r = 0.74%float)
        /\ (aa <> Some true \/ accept_all_note = false ->
            r_verdict r = "valid" /\ r_reason r = "smtp-250"
            /\ r_score r = 0.95%float))
  /\ (forall r w',
         validate_email_record raw timeout do_smtp accept_all_note w = (Ret r, w') ->
         r_verdict r = "valid" ->
         exists l d hosts pg w1 note w2 aa,
           has_exchangers raw timeout w l d hosts pg w1
           /\ probe_enabled cfg do_smtp = true
           /\ probe_refused cfg d = false
           /\ smtp_probe cfg (normalize raw) hosts timeout true w1
              = (Ret (Some true, note), w2)
           /\ is_accept_all cfg d hosts timeout w2 = (Ret aa, w')
           /\ (aa <> Some true \/ accept_all_note = false)
           /\ r_reason r = "smtp-250" /\ r_score r = 0.95%float).
Proof.
  split.
  - intros l d hosts pg w1 note w2 aa w3 Hex Hen Href Hp Haa.
    pose proof (run_accepted cfg validate_email get_close_matches raw timeout do_smtp
                  accept_all_note w l d hosts pg w1 note w2 aa w3 Hex Hen Href Hp Haa)
      as R.
    cbv zeta in R. apply run_complete in R.
    eexists. split; [exact R |].
    split.
    + intros -> ->. repeat split.
    + intros [Hne | ->].
      * destruct aa as [[|] |]; [congruence | |]; repeat split.
      * destruct aa as [[|] |]; repeat split.
  - intros r w' H Hv. apply run_sound in H.
    destruct H as [| | | | l d hosts pg w1 note w2 aa w3 Hex Hen Href Hp Haa c | |];
      try discriminate Hv.
    destruct aa as [[|] |]; [destruct accept_all_note; [discriminate Hv |] | |];
      exists l, d, hosts, pg, w1, note, w2; eexists;
      (split; [exact Hex |]); (split; [exact Hen |]); (split; [exact Href |]);
      (split; [exact Hp |]); (split; [exact Haa |]);
      (split; [first [right; reflexivity | left; discriminate] |]);
      split; reflexivity.
Qed.

(** ** C6 *)

(** C6, as the code has it: for a well-formed address at a domain with
    exchangers, when the probe is not requested or not allowed, or the
    provider is on the refuse-to-verify list and the policy is not to
    probe it, the verdict is risky and the reason is "unverifiable" if
    the provider is on the refuse-to-verify list and "dns-only" if it is
    not. *)
Theorem unverifiable_reason raw timeout do_smtp accept_all_note w l d hosts pg w1 :
  has_exchangers raw timeout w l d hosts pg w1 ->
  probe_enabled cfg do_smtp = false \/ probe_refused cfg d = true ->
  exists r,
    validate_email_record raw timeout do_smtp accept_all_note w = (Ret r, w1)
    /\ r_verdict r = "risky"
    /\ r_reason r
       = (if Py.truthy_opt (provider_blocks_smtp d) then "unverifiable" else "dns-only").
Proof.
  intros Hex Hgate.
  destruct (probe_enabled cfg do_smtp) eqn:Hen.
  - destruct Hgate as [Hoff | Href]; [discriminate Hoff |].
    pose proof (run_refused cfg validate_email get_close_matches raw timeout do_smtp
                  accept_all_note w l d hosts pg w1 Hex Hen Href) as R.
    apply run_complete in R. eexists. split; [exact R |].
    match goal with
    | |- context [fallback_result ?a ?c ?p ?b ?s ?u ?n] =>
        destruct (fallback_result_fields a c p b s u n) as (_ & Hv & _ & Hr & _)
    end.
    split; [exact Hv |]. rewrite Hr.
    unfold probe_refused in Href.
    apply andb_true_iff in Href as [-> _].
    rewrite orb_true_r. reflexivity.
  - pose proof (run_not_probed cfg validate_email get_close_matches raw timeout do_smtp
                  accept_all_note w l d hosts pg w1 Hex Hen) as R.
    apply run_complete in R. eexists. split; [exact R |].
    match goal with
    | |- context [fallback_result ?a ?c ?p ?b ?s ?u ?n] =>
        destruct (fallback_result_fields a c p b s u n) as (_ & Hv & _ & Hr & _)
    end.
    split; [exact Hv |]. rewrite Hr. cbn.
    rewrite andb_true_r, orb_false_r. reflexivity.
Qed.

End Gates.

(* ===================================================================== *)
(** * The verdicts on sample runs *)
(* ===================================================================== *)


Lemma example_has_exchangers script :
  has_exchangers sample_validate_email "user@example.com" 6%float (sample_world script)
    "user" "example.com" ["mx1.example.com"; "mx2.example.com"] EmptyString
    (snd (check_mx "example.com" 6%float (sample_world script))).
Proof. repeat split. Qed.

Lemma gmail_has_exchangers script :
  has_exchangers sample_validate_email "someone@gmail.com" 6%float (sample_world script)
    "someone" "gmail.com" ["gmail-smtp-in.l.google.com"] "Google Workspace/Gmail"
    (snd (check_mx "gmail.com" 6%float (sample_world script))).
Proof. repeat split. Qed.

Lemma status_equals_verdict_witness :
  r_status gmail_unverifiable = r_verdict gmail_unverifiable.
Proof.
  apply (status_equals_verdict default_config sample_validate_email
           Difflib.get_close_matches "someone@gmail.com" 6%float false true
           (sample_world []) gmail_unverifiable
           (snd (check_mx "gmail.com" 6%float (sample_world [])))).
  vm_compute. reflexivity.
Defined.


(** The probe is not requested and Gmail is on the refuse-to-verify list:
    risky, "unverifiable". *)
Lemma unverifiable_reason_witness :
  exists r,
    validate_email_record default_config sample_validate_email Difflib.get_close_matches
      "someone@gmail.com" 6%float false true (sample_world [])
    = (Ret r, snd (check_mx "gmail.com" 6%float (sample_world [])))
    /\ r_verdict r = "risky"
    /\ r_reason r
       = (if Py.truthy_opt (provider_blocks_smtp "gmail.com")
          then "unverifiable" else "dns-only").
Proof.
  apply (unverifiable_reason default_config sample_validate_email
           Difflib.get_close_matches "someone@gmail.com" 6%float false true
           (sample_world []) "someone" "gmail.com" ["gmail-smtp-in.l.google.com"]
           "Google Workspace/Gmail" _ (gmail_has_exchangers [])).
  left. reflexivity.
Defined.

(** C6 as stated fails: the probe is not requested, the domain has
    exchangers and is on no list, and the reason is "dns-only", not
    "unverifiable". *)
Lemma probing_disabled_dns_only :
  fst (validate_email_record default_config sample_validate_email
         Difflib.get_close_matches "user@example.com" 6%float false true (sample_world []))
  = Ret example_dns_only
  /\ r_reason example_dns_only = "dns-only"
  /\ c_has_mx_or_a_record (r_checks example_dns_only) = true.
Proof. repeat split. Qed.

(** The worlds of the run on [accepting_script]: after the resolution and
    after the probe of the address. *)
Definition resolved_world : world :=
  snd (check_mx "example.com" 6%float (sample_world accepting_script)).

Definition probed_world : world :=
  snd (smtp_probe default_config "user@example.com" ["mx1.example.com"; "mx2.example.com"]
         6%float true resolved_world).

(** With [accept_all_note] set, the accepted address of an accept-all
    domain is risky; the same run is also an instance of the "otherwise"
    half of the gate when the flag is cleared. *)
Lemma accept_all_gate_witness :
  exists r,
    validate_email_record default_config sample_validate_email Difflib.get_close_matches
      "user@example.com" 6%float true true (sample_world accepting_script)
    = (Ret r, snd (is_accept_all default_config "example.com"
                     ["mx1.example.com"; "mx2.example.com"] 6%float probed_world))
    /\ (Some true = Some true -> true = true ->
        r_verdict r = "risky" /\ r_reason r = "accept-all" /\ r_score r = 0.74%float)
    /\ (Some true <> Some true \/ true = false ->
        r_verdict r = "valid" /\ r_reason r = "smtp-250" /\ r_score r = 0.95%float).
Proof.
  apply (proj1 (accept_all_gate default_config sample_validate_email
                  Difflib.get_close_matches "user@example.com" 6%float true true
                  (sample_world accepting_script))
           "user" "example.com" ["mx1.example.com"; "mx2.example.com"] EmptyString
           resolved_world "smtp-250" probed_world (Some true) _
           (example_has_exchangers accepting_script)).
  - reflexivity.
  - reflexivity.
  - vm_compute. reflexivity.
  - vm_compute. reflexivity.
Defined.

(** C1: the code at the failing input.  The probe returns Accepted, the
    detector returns True, and with [accept_all_note] cleared the verdict
    is valid, "smtp-250", 0.95, on a record whose [is_accept_all] is
    True: against the docstring of [validate_email_record], for which
    valid is "SMTP 250 AND NOT accept-all" and accept-all is risky. *)
Lemma accept_all_unreported_is_valid :
  fst (smtp_probe default_config "user@example.com" ["mx1.example.com"; "mx2.example.com"]
         6%float true resolved_world) = Ret (Some true, "smtp-250")
  /\ fst (is_accept_all default_config "example.com" ["mx1.example.com"; "mx2.example.com"]
            6%float probed_world) = Ret (Some true)
  /\ exists r,
       fst (validate_email_record default_config sample_validate_email
              Difflib.get_close_matches "user@example.com" 6%float true false
              (sample_world accepting_script)) = Ret r
       /\ r_verdict r = "valid" /\ r_reason r = "smtp-250" /\ r_score r = 0.95%float
       /\ c_is_accept_all (r_checks r) = Some true.
Proof.
  split; [vm_compute; reflexivity |].
  split; [vm_compute; reflexivity |].
  eexists (mk_result _ _ _ _ _ _ _ _).
  split; [vm_compute; reflexivity |].
  repeat split.
Qed.

(* ===================================================================== *)
(** * Syntax: malformed addresses *)
(* ===================================================================== *)

Lemma chars_cons c s : chars (String c s) = c :: chars s.
Proof. reflexivity. Qed.

Lemma chars_of_list l : chars (string_of_list_ascii l) = l.
Proof. apply list_ascii_of_string_of_list_ascii. Qed.

Lemma split_first_some c s l r :
  Py.split_first c s = Some (l, r) ->
  chars s = (chars l ++ c :: chars r)%list /\ ~ In c (chars l).
Proof.
  revert l r. induction s as [| a t IH]; intros l r; simpl; [discriminate |].
  destruct (Ascii.eqb_spec a c) as [-> | Hne].
  - intros E. injection E as <- <-. simpl. auto.
  - destruct (Py.split_first c t) as [[l0 r0] |]; [| discriminate].
    intros E. injection E as <- <-.
    destruct (IH l0 r0 eq_refl) as [E Hn]. rewrite !chars_cons, E.
    split; [reflexivity |]. intros [H | H]; [congruence | exact (Hn H)].
Qed.

Lemma dot_runs_shape cls s b n m :
  dot_runs cls s b n = Some m ->
  (n <= m)%nat /\ ((n < m)%nat -> In "."%char (chars s))
  /\ Forall (fun x => cls x = true \/ x = "."%char) (chars s).
Proof.
  revert b n. induction s as [| a t IH]; intros b n; simpl.
  - destruct b; [| discriminate]. intros E. injection E as <-.
    split; [lia |]. split; [lia | constructor].
  - destruct (cls a) eqn:Ha.
    + intros E. destruct (IH _ _ E) as (Hle & Hdot & Hall).
      split; [exact Hle |]. split; [intros H; right; exact (Hdot H) |].
      constructor; [left; exact Ha | exact Hall].
    + destruct (Ascii.eqb_spec a ".") as [-> | Hne]; [| discriminate].
      destruct b; [| discriminate].
      intros E. destruct (IH _ _ E) as (Hle & Hdot & Hall).
      split; [lia |]. split; [intros _; left; reflexivity |].
      constructor; [right; reflexivity | exact Hall].
Qed.

Lemma before_final_newline_shape r :
  chars r = chars (before_final_newline r)
  \/ chars r = (chars (before_final_newline r) ++ [Py.LF])%list.
Proof.
  induction r as [| a t IH]; [left; reflexivity |].
  cbn [before_final_newline].
  destruct (Ascii.eqb_spec a Py.LF) as [-> | Hne]; cbn [andb].
  - destruct (String.eqb_spec t "") as [-> | Hne]; [right; reflexivity |].
    rewrite !chars_cons. destruct IH as [<- | E]; [left; reflexivity |].
    right. rewrite E at 1. reflexivity.
  - rewrite !chars_cons. destruct IH as [<- | E]; [left; reflexivity |].
    right. rewrite E at 1. reflexivity.
Qed.

(** The shape of a match of [EMAIL_REGEX]. *)
Lemma EMAIL_REGEX_match_shape e l d :
  EMAIL_REGEX_match e = Some (l, d) ->
  exists R, chars e = (chars l ++ "@"%char :: R)%list
            /\ ~ In "@"%char (chars l) /\ ~ In "@"%char R /\ In "."%char R.
Proof.
  unfold EMAIL_REGEX_match.
  destruct (Py.split_first "@" e) as [[l0 r] |] eqn:Hs; [| discriminate].
  destruct (dot_runs local_char l0 false 0) as [n0 |]; [| discriminate].
  destruct (dot_runs domain_char (before_final_newline r) false 0) as [[| n] |] eqn:Hd;
    try discriminate.
  intros E. injection E as <- <-.
  destruct (split_first_some _ _ _ _ Hs) as [He Hl].
  destruct (dot_runs_shape _ _ _ _ _ Hd) as (_ & Hdot & Hall).
  exists (chars r). split; [exact He |]. split; [exact Hl |].
  assert (Hno : ~ In "@"%char (chars (before_final_newline r))).
  { intros Hin. destruct (proj1 (List.Forall_forall _ _) Hall _ Hin) as [H | H]; discriminate H. }
  destruct (before_final_newline_shape r) as [E | E]; rewrite E.
  - split; [exact Hno |]. apply Hdot. lia.
  - split.
    + intros Hin. apply in_app_or in Hin as [Hin | [Hin | []]]; [exact (Hno Hin) | discriminate Hin].
    + apply in_or_app. left. apply Hdot. lia.
Qed.

Lemma unique_split (c : ascii) L R l' d' :
  (L ++ c :: R = l' ++ c :: d')%list -> ~ In c L -> ~ In c R -> L = l' /\ R = d'.
Proof.
  revert l'. induction L as [| a L IH]; intros l' E HL HR.
  - destruct l' as [| b l']; simpl in E.
    + injection E as ->. auto.
    + injection E as <- E. exfalso. apply HR. rewrite E. apply in_or_app. right. left. reflexivity.
  - destruct l' as [| b l']; simpl in E.
    + injection E as -> _. exfalso. apply HL. left. reflexivity.
    + injection E as <- E. destruct (IH l' E) as [-> ->]; auto.
      intros H. apply HL. right. exact H.
Qed.

Lemma malformed_no_match e : malformed e -> EMAIL_REGEX_match e = None.
Proof.
  intros Hm. destruct (EMAIL_REGEX_match e) as [[l d] |] eqn:E; [| reflexivity].
  exfalso. destruct (EMAIL_REGEX_match_shape _ _ _ E) as (R & He & Hl & HR & Hdot).
  destruct Hm as [Hno | [(l' & E') | (l' & d' & E' & Hd)]].
  - apply Hno. rewrite He. apply in_or_app. right. left. reflexivity.
  - rewrite He in E'. destruct (unique_split _ _ _ _ _ E' Hl HR) as [_ ->]. destruct Hdot.
  - rewrite He in E'. destruct (unique_split _ _ _ _ _ E' Hl HR) as [_ ->]. exact (Hd Hdot).
Qed.

Lemma lstrip_with_in p l c : In c (Py.lstrip_with p l) -> In c l.
Proof.
  induction l as [| a t IH]; simpl; [auto |].
  destruct (p a); [intros H; right; exact (IH H) | auto].
Qed.

Lemma lstrip_with_split p l c d :
  p c = false -> Py.lstrip_with p (l ++ c :: d) = (Py.lstrip_with p l ++ c :: d)%list.
Proof.
  intros Hc. induction l as [| a t IH]; simpl.
  - rewrite Hc. reflexivity.
  - destruct (p a); [exact IH | reflexivity].
Qed.

Lemma rstrip_with_in p l c : In c (Py.rstrip_with p l) -> In c l.
Proof.
  unfold Py.rstrip_with. intros H. apply in_rev in H. apply lstrip_with_in in H.
  apply in_rev in H. exact H.
Qed.

Lemma rstrip_with_split p l c d :
  p c = false -> Py.rstrip_with p (l ++ c :: d) = (l ++ c :: Py.rstrip_with p d)%list.
Proof.
  intros Hc. unfold Py.rstrip_with.
  rewrite rev_app_distr. simpl. rewrite <- app_assoc. simpl.
  rewrite lstrip_with_split by exact Hc.
  rewrite rev_app_distr. simpl. rewrite rev_involutive, <- app_assoc. reflexivity.
Qed.

Lemma trims_strip_with p : p "@"%char = false -> trims (Py.strip_with p).
Proof.
  intros Hp s. unfold Py.strip_with. rewrite chars_of_list. fold (chars s). split.
  - intros c H. apply rstrip_with_in, lstrip_with_in in H. exact H.
  - intros l d E. rewrite E, lstrip_with_split, rstrip_with_split by exact Hp.
    eexists _, _. split; [reflexivity |]. intros c. apply rstrip_with_in.
Qed.

Lemma chars_remove_char x s :
  chars (Py.remove_char x s) = List.filter (fun a => negb (Ascii.eqb a x)) (chars s).
Proof.
  induction s as [| a t IH]; [reflexivity |].
  cbn [Py.remove_char]. rewrite chars_cons. cbn [List.filter].
  destruct (Ascii.eqb a x); cbn [negb]; [exact IH |]. rewrite chars_cons, IH. reflexivity.
Qed.

Lemma trims_remove_char x : Ascii.eqb "@" x = false -> trims (Py.remove_char x).
Proof.
  intros Hx s. rewrite chars_remove_char. split.
  - intros c H. apply List.filter_In in H. tauto.
  - intros l d E. rewrite E, List.filter_app. cbn [List.filter]. rewrite Hx. cbn [negb].
    eexists _, _. split; [reflexivity |]. intros c H. apply List.filter_In in H. tauto.
Qed.

Lemma trims_malformed f s : trims f -> malformed s -> malformed (f s).
Proof.
  intros Hf Hm. destruct (Hf s) as [Hin Hsplit].
  destruct Hm as [Hno | [(l & E) | (l & d & E & Hd)]].
  - left. intros H. exact (Hno (Hin _ H)).
  - destruct (Hsplit l [] E) as (l' & d' & E' & Hsub).
    right. left. exists l'. rewrite E'. destruct d' as [| c d']; [reflexivity |].
    destruct (Hsub c (or_introl eq_refl)).
  - destruct (Hsplit l d E) as (l' & d' & E' & Hsub).
    right. right. exists l', d'. split; [exact E' |]. intros H. exact (Hd (Hsub _ H)).
Qed.

Lemma normalize_malformed raw : malformed raw -> malformed (normalize raw).
Proof.
  intros H. unfold normalize.
  apply trims_malformed; [apply trims_remove_char; reflexivity |].
  apply trims_malformed; [apply trims_strip_with; reflexivity |].
  apply trims_malformed; [apply trims_strip_with; reflexivity | exact H].
Qed.

(** ** C8 *)

(** C8, as the code has it: for every malformed input string (no [@],
    nothing after an [@], or no dot after an [@]) that [email_validator]
    rejects, [validate_email_record] returns verdict invalid with reason
    "bad-syntax" and score 0.05, and leaves the world as it was.  A
    string that [email_validator] accepts, with a local part and a domain
    that are not empty, is never "bad-syntax": [check_syntax] returns the
    answer of the library without consulting the pattern. *)
Theorem malformed_is_bad_syntax (cfg : config)
    (validate_email : string -> outcome (string * string))
    (get_close_matches : string -> list string -> nat -> float -> list string)
    (raw : string) (timeout : float) (do_smtp accept_all_note : bool) (w : world) :
  malformed raw ->
  (validate_email (normalize raw) = Raise EmailNotValidError ->
   exists r,
     validate_email_record cfg validate_email get_close_matches raw timeout do_smtp
       accept_all_note w = (Ret r, w)
     /\ r_email r = raw /\ r_verdict r = "invalid" /\ r_reason r = "bad-syntax"
     /\ r_score r = 0.05%float)
  /\ (forall l d r w',
        validate_email (normalize raw) = Ret (l, d) ->
        Py.truthy l = true -> Py.truthy d = true ->
        validate_email_record cfg validate_email get_close_matches raw timeout do_smtp
          accept_all_note w = (Ret r, w') ->
        r_reason r <> "bad-syntax"
        /\ c_has_valid_address_syntax (r_checks r) = true).
Proof.
  intros Hm. split.
  - intros Hv.
    assert (Hs : check_syntax validate_email (normalize raw) = Ret (false, None, None)).
    { unfold check_syntax. rewrite Hv, (malformed_no_match _ (normalize_malformed _ Hm)).
      reflexivity. }
    unfold validate_email_record, bind. rewrite Hs.
    eexists. split; [reflexivity |]. repeat split.
  - intros l d r w' Hv Hl Hd H. apply run_sound in H.
    assert (Hsyn : forall l0 d0, syntax_ok validate_email raw l0 d0 -> l0 = l /\ d0 = d).
    { intros l0 d0 (Hs & _). unfold check_syntax in Hs. rewrite Hv in Hs.
      injection Hs as <- <-. auto. }
    assert (Hfb : forall c pg bn sg unv note,
               c_has_valid_address_syntax c = true ->
               let r := fallback_result raw c pg bn sg unv note in
               r_reason r <> "bad-syntax" /\ c_has_valid_address_syntax (r_checks r) = true).
    { intros c pg bn sg unv note Hc r0.
      destruct (fallback_result_fields raw c pg bn sg unv note) as (_ & _ & _ & Hre & _ & Hch).
      fold r0 in Hre, Hch. rewrite Hre, Hch.
      split; [| exact Hc].
      destruct (Py.truthy_opt bn && negb (c_smtp_checked c) || unv); discriminate. }
    assert (Hc : c_has_valid_address_syntax (initial_checks true (Some l) (Some d)) = true).
    { unfold initial_checks. cbn. rewrite Hl, Hd. reflexivity. }
    destruct H as
      [ok l0 d0 Hs Hvalid
      | l0 d0 hosts pg w1 Hs Hmx
      | l0 d0 hosts pg w1 [Hs Hmx] Hen
      | l0 d0 hosts pg w1 [Hs Hmx] Hen Href
      | l0 d0 hosts pg w1 note w2 aa w3 [Hs Hmx] Hen Href Hp Haa c0
      | l0 d0 hosts pg w1 note w2 [Hs Hmx] Hen Href Hp
      | l0 d0 hosts pg w1 note w2 [Hs Hmx] Hen Href Hp ];
      try (destruct (Hsyn _ _ Hs) as [-> ->]).
    + unfold check_syntax in Hs. rewrite Hv in Hs. injection Hs as <- <- <-.
      rewrite Hc in Hvalid. discriminate Hvalid.
    + split; [discriminate | exact Hc].
    + apply Hfb. exact Hc.
    + apply Hfb. exact Hc.
    + destruct (match aa with Some true => accept_all_note | _ => false end);
        (split; [discriminate | exact Hc]).
    + split; [discriminate | exact Hc].
    + apply Hfb. exact Hc.
Qed.

(** A quoted, padded address at a host name without a dot. *)
Definition dotless_input : string :=
  String Py.DQUOTE " nobody@localhost; ".

Lemma dotless_input_malformed : malformed dotless_input.
Proof.
  right. right.
  exists (chars (String Py.DQUOTE " nobody")), (chars "localhost; ").
  split; [reflexivity |].
  cbn. intros H. repeat (destruct H as [H | H]; [discriminate H |]). exact H.
Qed.

Lemma malformed_is_bad_syntax_witness :
  exists r,
    validate_email_record default_config sample_validate_email Difflib.get_close_matches
      dotless_input 6%float true true (sample_world accepting_script)
    = (Ret r, sample_world accepting_script)
    /\ r_email r = dotless_input /\ r_verdict r = "invalid" /\ r_reason r = "bad-syntax"
    /\ r_score r = 0.05%float.
Proof.
  apply (proj1 (malformed_is_bad_syntax default_config sample_validate_email
                  Difflib.get_close_matches dotless_input 6%float true true
                  (sample_world accepting_script) dotless_input_malformed)).
  reflexivity.
Defined.

(** U+3002 IDEOGRAPHIC FULL STOP.  It lies above the code points that a
    character of this development holds and is written as the three
    bytes of its UTF-8 form.  No function of the engine treats any of
    them in a special way (they are no white space, quote, semicolon,
    space, letter, digit, hyphen or dot), so a run on a string that has
    them is, step for step, the run of the code on the string that has
    the one character. *)
Definition ideographic_full_stop : string :=
  String (Py.chr 227) (String (Py.chr 128) (String (Py.chr 130) EmptyString)).

(** An address whose domain has U+3002 where a dot would be. *)
Definition ideographic_input : string := "a@example" +:+ ideographic_full_stop +:+ "com".

(** [email_validator] takes U+3002 for a dot, as the mapping of domain
    names does (UTS 46), and returns the domain with a dot: a stand-in for
    it on [ideographic_input], and [sample_validate_email] elsewhere. *)
Definition lenient_validate_email (email : string) : outcome (string * string) :=
  if String.eqb email ideographic_input then Ret ("a", "example.com")
  else sample_validate_email email.

(** C8 as stated fails: the address has no dot after its [@], the
    library accepts it, and the record is risky, "dns-only". *)
Lemma ideographic_dot_is_accepted :
  malformed ideographic_input
  /\ exists r,
       fst (validate_email_record default_config lenient_validate_email
              Difflib.get_close_matches ideographic_input 6%float false true
              (sample_world [])) = Ret r
       /\ r_email r = ideographic_input /\ r_verdict r = "risky"
       /\ r_reason r = "dns-only" /\ r_score r = 0.62%float
       /\ c_has_valid_address_syntax (r_checks r) = true.
Proof.
  split.
  - right. right. exists (chars "a"), (chars ("example" +:+ ideographic_full_stop +:+ "com")).
    split; [reflexivity |].
    cbn. intros H. repeat (destruct H as [H | H]; [discriminate H |]). exact H.
  - eexists (mk_result _ _ _ _ _ _ _ _).
    split; [vm_compute; reflexivity |]. repeat split.
Qed.

(* ===================================================================== *)
(** * What every step of the engine preserves *)
(* ===================================================================== *)

(** A relation between the world before and the world after, kept by
    every call the engine makes on its environment: then every operation
    of the engine keeps it, whatever it returns or raises. *)
Section Respects.

Variable R : world -> world -> Prop.
Hypothesis R_refl : forall w, R w w.
Hypothesis R_trans : forall a b c, R a b -> R b c -> R a c.

Definition respects {S A} (view : S -> world) (m : M S A) : Prop :=
  forall s o s', m s = (o, s') -> R (view s) (view s').

Lemma respects_pure {S A} (view : S -> world) (o : outcome A) :
  respects view (fun s => (o, s)).
Proof. intros s o' s' E. injection E as <- <-. apply R_refl. Qed.

Lemma respects_ret {S A} (view : S -> world) (a : A) : respects view (ret a).
Proof. apply respects_pure. Qed.

Lemma respects_raise {S A} (view : S -> world) (e : exn) : respects view (@raise S A e).
Proof. apply respects_pure. Qed.

Lemma respects_get {S} (view : S -> world) : respects view get.
Proof. intros s o s' E. injection E as <- <-. apply R_refl. Qed.

Lemma respects_modify {S} (view : S -> world) (f : S -> S) :
  (forall s, view (f s) = view s) -> respects view (modify f).
Proof. intros Hf s o s' E. injection E as <- <-. rewrite Hf. apply R_refl. Qed.

Lemma respects_bind {S A B} (view : S -> world) (m : M S A) (k : A -> M S B) :
  respects view m -> (forall a, respects view (k a)) -> respects view (bind m k).
Proof.
  intros Hm Hk s o s'. unfold bind. destruct (m s) as [[a | e] s1] eqn:E.
  - intros E'. exact (R_trans _ _ _ (Hm _ _ _ E) (Hk _ _ _ _ E')).
  - intros E'. injection E' as <- <-. exact (Hm _ _ _ E).
Qed.

Lemma respects_try_except {S A} (view : S -> world) (m : M S A) (h : exn -> M S A) :
  respects view m -> (forall e, respects view (h e)) -> respects view (try_except m h).
Proof.
  intros Hm Hh s o s'. unfold try_except. destruct (m s) as [[a | e] s1] eqn:E.
  - intros E'. injection E' as <- <-. exact (Hm _ _ _ E).
  - intros E'. exact (R_trans _ _ _ (Hm _ _ _ E) (Hh _ _ _ _ E')).
Qed.

Lemma respects_try_pass {S} (view : S -> world) (m : M S unit) :
  respects view m -> respects view (try_pass m).
Proof. intros Hm. apply respects_try_except; [exact Hm | intros e; apply respects_ret]. Qed.

Lemma respects_for_each {S X Y} (view : S -> world) (xs : list X)
    (body : X -> M S (option Y)) :
  (forall x, respects view (body x)) -> respects view (for_each xs body).
Proof.
  intros Hb. induction xs as [| x rest IH]; cbn [for_each].
  - apply respects_ret.
  - apply respects_bind; [apply Hb |]. intros [v |]; [apply respects_ret | exact IH].
Qed.

Lemma respects_lift {S A} (view : S -> world) (upd : world -> S -> S) (m : M world A) :
  (forall w s, view (upd w s) = w) ->
  respects (fun w => w) m -> respects view (lift view upd m).
Proof.
  intros Hv Hm s o s'. unfold lift. destruct (m (view s)) as [r w1] eqn:E.
  intros E'. injection E' as <- <-. rewrite Hv. exact (Hm _ _ _ E).
Qed.

(** The calls on the environment. *)
Hypothesis R_net_call : forall a, respects (fun w => w) (net_call a).
Hypothesis R_read_resp : forall timeout, respects (fun w => w) (_read_resp timeout).
Hypothesis R_entropy : forall w e, R w (set_entropy e w).
Hypothesis R_check_mx : forall domain timeout, respects (fun w => w) (check_mx domain timeout).

Lemma respects_random_choices (k : nat) :
  respects (fun w => w) (random_choices alphabet k).
Proof.
  induction k as [| k IH]; cbn [random_choices]; [apply respects_ret |].
  intros w o w' E. apply (R_trans _ _ _ (R_entropy w (tl (entropy w)))). revert E.
  apply (respects_bind (fun w => w)); [exact IH | intros s; apply respects_ret].
Qed.

Lemma respects_io {A} (m : M world A) : respects (fun w => w) m -> respects pw (io m).
Proof. apply respects_lift. reflexivity. Qed.

Ltac respects_step :=
  first
    [ apply respects_ret | apply respects_raise | apply respects_get
    | apply respects_modify; reflexivity
    | apply respects_io; first [apply R_net_call | apply R_read_resp]
    | apply respects_bind; [| intros ?]
    | apply respects_try_except; [| intros ?]
    | match goal with
      | |- respects _ (if ?b then _ else _) => destruct b
      | |- respects _ (match ?x with _ => _ end) => destruct x
      end ].

Variable cfg : config.

Lemma respects_probe_cleanup : respects pw probe_cleanup.
Proof.
  unfold probe_cleanup, try_pass, fh_close, sock_close. repeat respects_step.
Qed.

Lemma respects_probe_host email timeout use_starttls host :
  respects pw (probe_host cfg email timeout use_starttls host).
Proof.
  unfold probe_host, probe_body, create_connection, fh_write, wrap_socket, close_both,
    try_pass, fh_close, sock_close, set_sock, set_fh, set_last_reason.
  repeat first [apply respects_probe_cleanup | respects_step].
Qed.

Lemma respects_smtp_probe email mx_hosts timeout use_starttls :
  respects (fun w => w) (smtp_probe cfg email mx_hosts timeout use_starttls).
Proof.
  unfold smtp_probe. destruct mx_hosts as [| h hs]; [apply respects_ret |].
  intros w o w'.
  match goal with
  | |- context [?m {| pw := w; last_reason := ?l; sock := ?a; fh := ?b |}] =>
      assert (Hm : respects pw m)
  end.
  { apply respects_bind; [apply respects_for_each; intros x; apply respects_probe_host |].
    intros [res |]; repeat respects_step. }
  match goal with
  | |- context [?m ?s0] =>
      match type of Hm with respects pw m => destruct (m s0) as [r s] eqn:E end
  end.
  intros E'. injection E' as <- <-. exact (Hm _ _ _ E).
Qed.

Lemma respects_is_accept_all domain mx_hosts timeout :
  respects (fun w => w) (is_accept_all cfg domain mx_hosts timeout).
Proof.
  unfold is_accept_all. destruct mx_hosts as [| h hs]; [apply respects_ret |].
  cbv zeta. intros w o w'.
  match goal with
  | |- context [?m {| aw := w; successes := 0 |}] => assert (Hm : respects aw m)
  end.
  { apply respects_bind.
    - apply respects_for_each. intros i. unfold accept_attempt.
      apply respects_bind;
        [apply respects_lift; [reflexivity | apply respects_random_choices] | intros rnd].
      apply respects_bind;
        [apply respects_lift; [reflexivity | apply respects_smtp_probe] | intros res].
      repeat respects_step.
    - intros [v |]; repeat respects_step. }
  match goal with
  | |- context [?m ?s0] =>
      match type of Hm with respects aw m => destruct (m s0) as [r s] eqn:E end
  end.
  intros E'. injection E' as <- <-. exact (Hm _ _ _ E).
Qed.

Variable validate_email : string -> outcome (string * string).
Variable get_close_matches : string -> list string -> nat -> float -> list string.

Lemma respects_validate_email_record raw timeout do_smtp accept_all_note :
  respects (fun w => w)
    (validate_email_record cfg validate_email get_close_matches raw timeout do_smtp
       accept_all_note).
Proof.
  unfold validate_email_record. cbv zeta.
  apply respects_bind; [apply respects_pure | intros [[ok l] d]].
  repeat first
    [ apply R_check_mx | apply respects_smtp_probe | apply respects_is_accept_all
    | respects_step ].
Qed.

End Respects.

(* ===================================================================== *)
(** * The resolver cache over the life of the process *)
(* ===================================================================== *)

(** Every entry of the cache of [w] is an entry of the cache of [w']. *)
Definition cache_kept (w w' : world) : Prop :=
  forall domain res, _mx_cache w !! domain = Some res -> _mx_cache w' !! domain = Some res.

(** [w'] is a world the process can be in after [w]: in between it has
    called the functions of the module, any number of times, on any
    arguments and under any settings, and the resolver, the network, the
    random source and the log have changed at will.  The environment does
    not write [_mx_cache]. *)
Inductive later (w : world) : world -> Prop :=
| later_now : later w w
| later_check_mx w1 domain timeout :
    later w w1 -> later w (snd (check_mx domain timeout w1))
| later_smtp_probe w1 cfg email mx_hosts timeout use_starttls :
    later w w1 -> later w (snd (smtp_probe cfg email mx_hosts timeout use_starttls w1))
| later_is_accept_all w1 cfg domain mx_hosts timeout :
    later w w1 -> later w (snd (is_accept_all cfg domain mx_hosts timeout w1))
| later_validate_email_record w1 cfg validate_email get_close_matches raw timeout do_smtp
    accept_all_note :
    later w w1 ->
    later w (snd (validate_email_record cfg validate_email get_close_matches raw timeout
                    do_smtp accept_all_note w1))
| later_environment w1 w2 :
    later w w1 -> _mx_cache w2 = _mx_cache w1 -> later w w2.

Lemma cache_kept_refl (w : world) : cache_kept w w.
Proof. intros d res H. exact H. Qed.

Lemma cache_kept_trans (a b c : world) : cache_kept a b -> cache_kept b c -> cache_kept a c.
Proof. intros Hab Hbc d res H. exact (Hbc _ _ (Hab _ _ H)). Qed.

Lemma cache_kept_same (w w' : world) : _mx_cache w' = _mx_cache w -> cache_kept w w'.
Proof. intros E d res H. rewrite E. exact H. Qed.

Lemma cache_kept_net_call (a : action) : respects cache_kept (fun w => w) (net_call a).
Proof.
  intros w o w'. unfold net_call.
  destruct (net w) as [| [| |] rest]; intros E; injection E as <- <-;
    apply cache_kept_same; reflexivity.
Qed.

Lemma cache_kept_read_resp (timeout : float) :
  respects cache_kept (fun w => w) (_read_resp timeout).
Proof.
  intros w o w'. unfold _read_resp.
  destruct (read_lines (net w) [] None 0) as [[r rest] calls].
  intros E. injection E as <- <-. apply cache_kept_same. reflexivity.
Qed.

(** A lookup adds an entry for a domain that had none, and changes no
    entry. *)
Lemma cache_kept_check_mx (domain : string) (timeout : float) :
  respects cache_kept (fun w => w) (check_mx domain timeout).
Proof.
  intros w o w'. unfold check_mx, bind, get, try_except, resolve, cache_store, modify, ret.
  destruct (_mx_cache w !! domain) as [res |] eqn:Hc.
  - intros E. injection E as <- <-. apply cache_kept_refl.
  - assert (Hins : forall v a,
               cache_kept w (set_cache (<[domain := v]> (_mx_cache w)) (add_log a w))).
    { intros v a d res H. cbn [_mx_cache set_cache add_log].
      rewrite lookup_insert_ne; [exact H |]. intros ->. congruence. }
    destruct (dns w domain timeout) as [answers | x]; intros E; injection E as <- <-;
      apply Hins.
Qed.

Lemma later_cache (w w' : world) : later w w' -> cache_kept w w'.
Proof.
  induction 1 as [| w1 d t _ IH | w1 cfg e hs t u _ IH | w1 cfg d hs t _ IH
                  | w1 cfg ve gcm raw t ds aan _ IH | w1 w2 _ IH E].
  - apply cache_kept_refl.
  - apply (cache_kept_trans _ _ _ IH).
    apply (cache_kept_check_mx d t w1 (fst (check_mx d t w1))). apply surjective_pairing.
  - apply (cache_kept_trans _ _ _ IH).
    apply (respects_smtp_probe cache_kept cache_kept_refl cache_kept_trans
             cache_kept_net_call cache_kept_read_resp cfg e hs t u w1
             (fst (smtp_probe cfg e hs t u w1))).
    apply surjective_pairing.
  - apply (cache_kept_trans _ _ _ IH).
    apply (respects_is_accept_all cache_kept cache_kept_refl cache_kept_trans
             cache_kept_net_call cache_kept_read_resp
             (fun w e => cache_kept_same w (set_entropy e w) eq_refl) cfg d hs t w1
             (fst (is_accept_all cfg d hs t w1))).
    apply surjective_pairing.
  - apply (cache_kept_trans _ _ _ IH).
    apply (respects_validate_email_record cache_kept cache_kept_refl cache_kept_trans
             cache_kept_net_call cache_kept_read_resp
             (fun w e => cache_kept_same w (set_entropy e w) eq_refl)
             cache_kept_check_mx cfg ve gcm raw t ds aan w1
             (fst (validate_email_record cfg ve gcm raw t ds aan w1))).
    apply surjective_pairing.
  - apply (cache_kept_trans _ _ _ IH). apply cache_kept_same. exact E.
Qed.

(** A call stores what it returns, and a call on a cached domain returns
    the entry and leaves the world as it is. *)
Lemma check_mx_stores (domain : string) (timeout : float) (w : world) :
  exists res,
    fst (check_mx domain timeout w) = Ret res
    /\ _mx_cache (snd (check_mx domain timeout w)) !! domain = Some res.
Proof.
  unfold check_mx, bind, get, try_except, resolve, cache_store, modify, ret.
  destruct (_mx_cache w !! domain) as [res |] eqn:Hc.
  - exists res. split; [reflexivity | exact Hc].
  - destruct (dns w domain timeout) as [answers | x]; cbn [fst snd];
      (eexists; split; [reflexivity |]); cbn [_mx_cache set_cache add_log];
      apply lookup_insert_eq.
Qed.

Lemma check_mx_hit (domain : string) (timeout : float) (w : world)
    (res : bool * list string * string) :
  _mx_cache w !! domain = Some res -> check_mx domain timeout w = (Ret res, w).
Proof. intros H. unfold check_mx, bind, get. rewrite H. reflexivity. Qed.

(** C9: once [check_mx] has been called on a domain, every call on that
    domain made later in the process, after any calls of the module on
    this and other domains and whatever the resolver, the network and the
    rest of the world have become, returns the triple of the first call
    and leaves the world as it found it: only the cache is consulted. *)
Theorem check_mx_cached (domain : string) (t1 t2 : float) (w w2 : world) :
  later (snd (check_mx domain t1 w)) w2 ->
  exists res,
    fst (check_mx domain t1 w) = Ret res
    /\ check_mx domain t2 w2 = (Ret res, w2).
Proof.
  intros Hl. destruct (check_mx_stores domain t1 w) as (res & Hr & Hc).
  exists res. split; [exact Hr |].
  apply check_mx_hit. exact (later_cache _ _ Hl _ _ Hc).
Qed.

(** X7: a failed lookup is remembered: once the resolver has raised for a
    domain, every call on it made later in the process answers
    [(False, [], "")] from the cache, after any other lookups and whatever
    the resolver would answer by then. *)
Theorem check_mx_failure_is_cached (domain : string) (t1 t2 : float) (w w2 : world)
    (e : exn) :
  _mx_cache w !! domain = None ->
  dns w domain t1 = Raise e ->
  later (snd (check_mx domain t1 w)) w2 ->
  fst (check_mx domain t1 w) = Ret (false, [], EmptyString)
  /\ check_mx domain t2 w2 = (Ret (false, [], EmptyString), w2).
Proof.
  intros Hc Hd Hl.
  assert (E : check_mx domain t1 w
              = (Ret (false, [], EmptyString),
                 set_cache (<[domain := (false, [], EmptyString)]> (_mx_cache w))
                   (add_log [Resolve domain t1] w))).
  { unfold check_mx, bind, get, try_except, resolve, cache_store, modify, ret.
    rewrite Hc, Hd. reflexivity. }
  rewrite E in Hl |- *. cbn [fst snd] in *. split; [reflexivity |].
  apply check_mx_hit. apply (later_cache _ _ Hl).
  cbn [_mx_cache set_cache add_log]. apply lookup_insert_eq.
Qed.

(** The world after a lookup of [example.com], a lookup of [gmail.com]
    and a run of the engine on an address at a third domain. *)
Definition after_a_run : world :=
  let w1 := snd (check_mx "example.com" 6%float (sample_world [])) in
  let w2 := snd (check_mx "gmail.com" 6%float w1) in
  snd (validate_email_record default_config sample_validate_email
         Difflib.get_close_matches "a.b+c@x-y.example.com" 6%float false true w2).

(** The same under another resolver, for which [example.com] has no
    exchanger. *)
Definition much_later_world : world :=
  {| _mx_cache := _mx_cache after_a_run; dns := other_dns; net := []; entropy := [];
     log := [] |}.

Lemma much_later :
  later (snd (check_mx "example.com" 6%float (sample_world []))) much_later_world.
Proof.
  apply (later_environment _ after_a_run); [| reflexivity].
  apply later_validate_email_record, later_check_mx, later_now.
Qed.

Lemma check_mx_cached_witness :
  exists res,
    fst (check_mx "example.com" 6%float (sample_world [])) = Ret res
    /\ check_mx "example.com" 3%float much_later_world = (Ret res, much_later_world).
Proof.
  apply (check_mx_cached "example.com" 6%float 3%float (sample_world []) much_later_world).
  exact much_later.
Defined.

(* ===================================================================== *)
(** * Typo suggestions *)
(* ===================================================================== *)

(** ** C5 *)

(** C5: the table of misspellings maps [gmail.co] to [gmail.com]; on
    [gmail.com] itself the table has no entry and the closest match among
    [COMMON_DOMAINS], which contains [gmail.com], is the input: the
    function suggests the domain it was given. *)
Theorem typo_suggestion_gmail :
  typo_suggestion Difflib.get_close_matches "gmail.co" = Some "gmail.com"
  /\ typo_suggestion Difflib.get_close_matches "gmail.com" = Some "gmail.com".
Proof. split; vm_compute; reflexivity. Qed.

(* ===================================================================== *)
(** * The accept-all detector *)
(* ===================================================================== *)

Lemma accepted_bounds os : 0 <= accepted os <= Z.of_nat (Datatypes.length os).
Proof. induction os as [| [[|] |] t IH]; cbn [accepted Datatypes.length]; lia. Qed.

Lemma accepted_app a b : accepted (a ++ b) = accepted a + accepted b.
Proof. induction a as [| [[|] |] t IH]; cbn [accepted app]; lia. Qed.

Lemma accepted_full os :
  accepted os = Z.of_nat (Datatypes.length os) <-> List.Forall (eq (Some true)) os.
Proof.
  induction os as [| o t IH]; cbn [Datatypes.length].
  - split; [constructor | reflexivity].
  - pose proof (accepted_bounds t) as B. split.
    + intros E. destruct o as [[|] |]; cbn [accepted] in E; try lia.
      constructor; [reflexivity | apply IH; lia].
    + intros F. inversion F as [| ? ? <- Ft]; subst. cbn [accepted].
      apply IH in Ft. lia.
Qed.

Lemma accepted_none os :
  ~ In None os -> (accepted os = 0 <-> List.Forall (eq (Some false)) os).
Proof.
  induction os as [| o t IH]; intros Hn.
  - split; [constructor | reflexivity].
  - pose proof (accepted_bounds t) as B.
    assert (Hn' : ~ In None t) by (intros H; apply Hn; right; exact H).
    split.
    + intros E. destruct o as [[|] |]; cbn [accepted] in E; try lia.
      * constructor; [reflexivity | apply IH; auto].
      * exfalso. apply Hn. left. reflexivity.
    + intros F. inversion F as [| ? ? <- Ft]; subst. cbn [accepted]. apply IH; auto.
Qed.

Lemma accepted_mixed os :
  ~ In None os -> 0 < accepted os < Z.of_nat (Datatypes.length os) ->
  In (Some true) os /\ In (Some false) os.
Proof.
  intros Hn [Hlo Hhi]. split.
  - clear Hhi Hn. induction os as [| [[|] |] t IH]; cbn [accepted] in Hlo;
      [lia | left; reflexivity | right; auto | right; auto].
  - clear Hlo. induction os as [| o t IH]; cbn [Datatypes.length] in Hhi; [cbn in Hhi; lia |].
    destruct o as [[|] |]; cbn [accepted] in Hhi.
    + right. apply IH; [intros H; apply Hn; right; exact H | lia].
    + left. reflexivity.
    + exfalso. apply Hn. left. reflexivity.
Qed.

Section Detector.
Variable cfg : config.
Variables (domain : string) (hosts : list string) (timeout : float).

Lemma attempts_length k w os w' :
  attempts cfg domain hosts timeout k w os w' -> Datatypes.length os = k.
Proof. induction 1; cbn [Datatypes.length]; congruence. Qed.

Lemma accept_step i s :
  exists rnd wa ok note wb,
    random_choices alphabet 16 (aw s) = (Ret rnd, wa)
    /\ smtp_probe cfg (rnd +:+ "@" +:+ domain) hosts timeout true wa = (Ret (ok, note), wb)
    /\ accept_attempt cfg domain hosts timeout i s
       = match ok with
         | Some true => (Ret None, {| aw := wb; successes := successes s + 1 |})
         | Some false => (Ret None, {| aw := wb; successes := successes s |})
         | None => (Ret (Some None), {| aw := wb; successes := successes s |})
         end.
Proof.
  destruct (returns_random_choices alphabet 16 (aw s)) as (rnd & wa & Hr).
  destruct (returns_smtp_probe cfg (rnd +:+ "@" +:+ domain) hosts timeout true wa)
    as ([ok note] & wb & Hp).
  exists rnd, wa, ok, note, wb. split; [exact Hr |]. split; [exact Hp |].
  unfold accept_attempt, bind, lift. rewrite Hr. cbn [aw set_aw]. rewrite Hp.
  cbn [fst]. destruct ok as [[|] |]; destruct s; reflexivity.
Qed.

Lemma accept_loop xs : forall s,
  (exists os w',
      attempts cfg domain hosts timeout (Datatypes.length xs) (aw s) os w'
      /\ ~ In None os
      /\ for_each xs (accept_attempt cfg domain hosts timeout) s
         = (Ret None, {| aw := w'; successes := successes s + accepted os |}))
  \/ (exists pre w',
         (Datatypes.length pre < Datatypes.length xs)%nat
         /\ attempts cfg domain hosts timeout (S (Datatypes.length pre)) (aw s)
              (pre ++ [None]) w'
         /\ ~ In None pre
         /\ for_each xs (accept_attempt cfg domain hosts timeout) s
            = (Ret (Some None), {| aw := w'; successes := successes s + accepted pre |})).
Proof.
  induction xs as [| x xs IH]; intros s.
  - left. exists [], (aw s). split; [constructor |]. split; [intros []|].
    cbn. destruct s; cbn. rewrite Z.add_0_r. reflexivity.
  - destruct (accept_step x s) as (rnd & wa & ok & note & wb & Hr & Hp & Hstep).
    assert (Hfe : for_each (x :: xs) (accept_attempt cfg domain hosts timeout) s
                  = match ok with
                    | Some true =>
                        for_each xs (accept_attempt cfg domain hosts timeout)
                          {| aw := wb; successes := successes s + 1 |}
                    | Some false =>
                        for_each xs (accept_attempt cfg domain hosts timeout)
                          {| aw := wb; successes := successes s |}
                    | None => (Ret (Some None), {| aw := wb; successes := successes s |})
                    end).
    { cbn [for_each]. unfold bind. rewrite Hstep. destruct ok as [[|] |]; reflexivity. }
    rewrite Hfe. clear Hfe Hstep.
    destruct ok as [[|] |].
    + destruct (IH {| aw := wb; successes := successes s + 1 |})
        as [(os & w' & Ha & Hn & E) | (pre & w' & Hlt & Ha & Hn & E)];
        cbn [aw successes] in Ha, E; rewrite E.
      * left. exists (Some true :: os), w'. split; [econstructor; eauto |].
        split; [intros [H | H]; [discriminate H | exact (Hn H)] |].
        cbn [accepted]. rewrite Z.add_assoc. reflexivity.
      * right. exists (Some true :: pre), w'.
        split; [cbn [Datatypes.length]; lia |]. split; [econstructor; eauto |].
        split; [intros [H | H]; [discriminate H | exact (Hn H)] |].
        cbn [accepted]. rewrite Z.add_assoc. reflexivity.
    + destruct (IH {| aw := wb; successes := successes s |})
        as [(os & w' & Ha & Hn & E) | (pre & w' & Hlt & Ha & Hn & E)];
        cbn [aw successes] in Ha, E; rewrite E.
      * left. exists (Some false :: os), w'. split; [econstructor; eauto |].
        split; [intros [H | H]; [discriminate H | exact (Hn H)] |].
        reflexivity.
      * right. exists (Some false :: pre), w'.
        split; [cbn [Datatypes.length]; lia |]. split; [econstructor; eauto |].
        split; [intros [H | H]; [discriminate H | exact (Hn H)] |].
        reflexivity.
    + right. exists [], wb.
      split; [cbn [Datatypes.length]; lia |].
      split; [econstructor; eauto; constructor |].
      split; [intros [] |]. cbn [accepted]. rewrite Z.add_0_r. reflexivity.
Qed.
End Detector.

Lemma is_accept_all_loop cfg domain h hs timeout w :
  is_accept_all cfg domain (h :: hs) timeout w
  = let attempts_ := Z.max 1 (ACCEPT_ALL_PROBES cfg) in
    match for_each (seq 0 (Z.to_nat attempts_)) (accept_attempt cfg domain (h :: hs) timeout)
            {| aw := w; successes := 0 |} with
    | (Ret (Some v), s) => (Ret v, aw s)
    | (Ret None, s) =>
        (Ret (if successes s =? attempts_ then Some true
              else if successes s =? 0 then Some false else None), aw s)
    | (Raise e, s) => (Raise e, aw s)
    end.
Proof.
  unfold is_accept_all. cbv zeta. unfold bind.
  destruct (for_each _ _ _) as [[[v |] | e] s]; try reflexivity.
  unfold get, ret.
  destruct (successes s =? _); [reflexivity |].
  destruct (successes s =? 0); reflexivity.
Qed.

(** ** C3 *)

(** C3: with no host the detector answers None and probes nothing.  With
    hosts, its run is a sequence of probes of fresh random addresses: it
    either stops right after the first Inconclusive outcome and answers
    None, or makes all [max(1, ACCEPT_ALL_PROBES)] attempts without an
    Inconclusive outcome and answers True exactly when all were Accepted,
    False exactly when all were Rejected, and None exactly when both
    outcomes occurred. *)
Theorem is_accept_all_outcomes cfg domain h hs timeout w :
  let hosts := h :: hs in
  let n := Z.to_nat (Z.max 1 (ACCEPT_ALL_PROBES cfg)) in
  is_accept_all cfg domain [] timeout w = (Ret None, w)
  /\ exists k os w' v,
      attempts cfg domain hosts timeout k w os w'
      /\ is_accept_all cfg domain hosts timeout w = (Ret v, w')
      /\ ((exists pre, os = (pre ++ [None])%list /\ ~ In None pre /\ (k <= n)%nat /\ v = None)
          \/ (k = n /\ ~ In None os
              /\ (v = Some true <-> List.Forall (eq (Some true)) os)
              /\ (v = Some false <-> List.Forall (eq (Some false)) os)
              /\ (v = None <-> In (Some true) os /\ In (Some false) os))).
Proof.
  intros hosts n. split; [reflexivity |].
  subst hosts. rewrite is_accept_all_loop. cbv zeta.
  set (attempts_ := Z.max 1 (ACCEPT_ALL_PROBES cfg)).
  assert (Hn : Z.of_nat n = attempts_) by (unfold n, attempts_; lia).
  fold attempts_ in n. fold n.
  destruct (accept_loop cfg domain (h :: hs) timeout (seq 0 n) {| aw := w; successes := 0 |})
    as [(os & w' & Ha & Hno & E) | (pre & w' & Hlt & Ha & Hno & E)];
    rewrite length_seq in *; cbn [aw successes] in Ha, E; rewrite E; cbn [aw successes].
  - pose proof (attempts_length _ _ _ _ _ _ _ _ Ha) as Hlen.
    pose proof (accepted_bounds os) as B. rewrite Hlen in B.
    rewrite Z.add_0_l.
    assert (Hne : os <> []) by (intros ->; cbn in Hlen; lia).
    destruct (Z.eqb_spec (accepted os) attempts_) as [Efull | Hnf].
    + exists n, os, w', (Some true). split; [exact Ha |]. split; [reflexivity |].
      right. split; [reflexivity |]. split; [exact Hno |].
      assert (F : List.Forall (eq (Some true)) os) by (apply accepted_full; lia).
      split; [tauto |]. split.
      * split; [discriminate |]. intros F'. destruct os as [| o t]; [congruence |].
        inversion F; inversion F'; congruence.
      * split; [discriminate |]. intros [_ Hf].
        rewrite List.Forall_forall in F. specialize (F _ Hf). discriminate F.
    + destruct (Z.eqb_spec (accepted os) 0) as [Ez | Hnz].
      * exists n, os, w', (Some false). split; [exact Ha |]. split; [reflexivity |].
        right. split; [reflexivity |]. split; [exact Hno |].
        assert (F : List.Forall (eq (Some false)) os) by (apply accepted_none; auto).
        split.
        -- split; [discriminate |]. intros F'. destruct os as [| o t]; [congruence |].
           inversion F; inversion F'; congruence.
        -- split; [tauto |]. split; [discriminate |]. intros [Ht _].
           rewrite List.Forall_forall in F. specialize (F _ Ht). discriminate F.
      * exists n, os, w', None. split; [exact Ha |]. split; [reflexivity |].
        right. split; [reflexivity |]. split; [exact Hno |].
        split; [split; [discriminate | intros F; apply accepted_full in F; lia] |].
        split; [split; [discriminate | intros F; apply accepted_none in F; auto; lia] |].
        split; [intros _ | reflexivity]. apply accepted_mixed; [exact Hno | lia].
  - exists (S (Datatypes.length pre)), (pre ++ [None])%list, w', None.
    split; [exact Ha |]. split; [reflexivity |].
    left. exists pre. split; [reflexivity |]. split; [exact Hno |]. split; [lia | reflexivity].
Qed.

(* ===================================================================== *)
(** * The transport probe: the iteration over the hosts *)
(* ===================================================================== *)

Lemma bind_ret_inv {S A B} (m : M S A) (k : A -> M S B) s b s' :
  bind m k s = (Ret b, s') -> exists a s1, m s = (Ret a, s1) /\ k a s1 = (Ret b, s').
Proof.
  unfold bind. destruct (m s) as [[a | e] s1]; [eauto | discriminate].
Qed.

Lemma connects_app l1 l2 : connects (l1 ++ l2) = (connects l1 ++ connects l2)%list.
Proof.
  induction l1 as [| a t IH]; [reflexivity |].
  destruct a; cbn [connects app]; rewrite IH; reflexivity.
Qed.

Lemma connects_repeat_Recv n : connects (repeat Recv n) = [].
Proof. induction n; [reflexivity | exact IHn]. Qed.

Lemma quiet_w_net_call a :
  connects [a] = [] -> quiet_w (net_call a).
Proof.
  intros Ha w o w'. unfold net_call.
  destruct (net w) as [| [| | text] rest]; intros E; injection E as <- <-;
    cbn [log set_net add_log]; rewrite connects_app, Ha, app_nil_r; reflexivity.
Qed.

Lemma quiet_w_read_resp timeout : quiet_w (_read_resp timeout).
Proof.
  intros w o w'. unfold _read_resp.
  destruct (read_lines (net w) [] None 0) as [[r rest] calls].
  intros E. injection E as <- <-. cbn [log set_net add_log].
  rewrite connects_app, connects_repeat_Recv, app_nil_r. reflexivity.
Qed.

Lemma quiet_io {A} (m : M world A) : quiet_w m -> quiet (io m).
Proof.
  intros Hm s o s'. unfold io, lift. destruct (m (pw s)) as [r w1] eqn:E.
  intros E'. injection E' as <- <-. cbn [pw set_pw]. exact (Hm _ _ _ E).
Qed.

Lemma quiet_ret {A} (a : A) : quiet (ret a).
Proof. intros s o s' E. injection E as <- <-. reflexivity. Qed.

Lemma quiet_raise {A} e : quiet (@raise probe_state A e).
Proof. intros s o s' E. injection E as <- <-. reflexivity. Qed.

Lemma quiet_get : quiet get.
Proof. intros s o s' E. injection E as <- <-. reflexivity. Qed.

Lemma quiet_bind {A B} (m : M probe_state A) (k : A -> M probe_state B) :
  quiet m -> (forall a, quiet (k a)) -> quiet (bind m k).
Proof.
  intros Hm Hk s o s'. unfold bind. destruct (m s) as [[a | e] s1] eqn:E.
  - intros E'. rewrite (Hk _ _ _ _ E'). exact (Hm _ _ _ E).
  - intros E'. injection E' as <- <-. exact (Hm _ _ _ E).
Qed.

Lemma quiet_try_except {A} (m : M probe_state A) h :
  quiet m -> (forall e, quiet (h e)) -> quiet (try_except m h).
Proof.
  intros Hm Hh s o s'. unfold try_except. destruct (m s) as [[a | e] s1] eqn:E.
  - intros E'. injection E' as <- <-. exact (Hm _ _ _ E).
  - intros E'. rewrite (Hh _ _ _ _ E'). exact (Hm _ _ _ E).
Qed.

Lemma quiet_set_last_reason r : quiet (set_last_reason r).
Proof. intros s o s' E. injection E as <- <-. reflexivity. Qed.

Lemma quiet_set_sock h : quiet (set_sock h).
Proof. intros s o s' E. injection E as <- <-. reflexivity. Qed.

Lemma quiet_set_fh h : quiet (set_fh h).
Proof. intros s o s' E. injection E as <- <-. reflexivity. Qed.

Ltac quiet_step :=
  first
    [ apply quiet_ret | apply quiet_raise | apply quiet_get
    | apply quiet_set_last_reason | apply quiet_set_sock | apply quiet_set_fh
    | apply quiet_io, quiet_w_read_resp
    | apply quiet_io, quiet_w_net_call; reflexivity
    | apply quiet_bind; [| intros ?]
    | apply quiet_try_except; [| intros ?]
    | match goal with
      | |- quiet (if ?b then _ else _) => destruct b
      | |- quiet (match ?x with _ => _ end) => destruct x
      end ].

Lemma quiet_fh_write data : quiet (fh_write data).
Proof. unfold fh_write. repeat quiet_step. Qed.

Lemma quiet_close_both : quiet close_both.
Proof. unfold close_both, try_pass, fh_close, sock_close. repeat quiet_step. Qed.

Lemma quiet_probe_cleanup : quiet probe_cleanup.
Proof. unfold probe_cleanup, try_pass, fh_close, sock_close. repeat quiet_step. Qed.

Section Hosts.
Variable cfg : config.
Variables (email : string) (timeout : float) (use_starttls : bool).

Lemma create_connection_connects host port s o s' :
  create_connection host port timeout s = (o, s') ->
  connects (log (pw s')) = (connects (log (pw s)) ++ [host])%list.
Proof.
  unfold create_connection, bind, io, lift, net_call.
  destruct (net (pw s)) as [| [| | text] rest]; intros E; injection E as <- <-;
    cbn [pw set_pw log set_net add_log]; rewrite connects_app; reflexivity.
Qed.

(** The body of the [try] connects to its host and to no other. *)
Lemma probe_body_connects host s o s' :
  probe_body cfg email host timeout use_starttls s = (o, s') ->
  connects (log (pw s')) = (connects (log (pw s)) ++ [host])%list.
Proof.
  unfold probe_body. unfold bind at 1.
  destruct (create_connection host 25 timeout s) as [[hd | e] s1] eqn:Hc;
    apply create_connection_connects in Hc.
  - rewrite <- Hc.
    match goal with
    | |- ?m s1 = _ -> _ => assert (Hq : quiet m)
    end.
    { unfold wrap_socket, try_pass.
      repeat first [apply quiet_fh_write | apply quiet_close_both | quiet_step]. }
    apply Hq.
  - intros E. injection E as <- <-. exact Hc.
Qed.

Lemma probe_host_connects host s o s' :
  probe_host cfg email timeout use_starttls host s = (o, s') ->
  connects (log (pw s')) = (connects (log (pw s)) ++ [host])%list.
Proof.
  unfold probe_host, bind, set_sock, set_fh, modify, try_except.
  match goal with
  | |- context [probe_body cfg email host timeout use_starttls ?s0] =>
      destruct (probe_body cfg email host timeout use_starttls s0) as [[r | e] s1] eqn:Hb;
      apply probe_body_connects in Hb; cbn [pw] in Hb
  end.
  - intros E. injection E as <- <-. exact Hb.
  - intros E. rewrite (quiet_probe_cleanup _ _ _ E). exact Hb.
Qed.



Lemma abandoned_connects hosts s s1 :
  abandoned cfg email timeout use_starttls hosts s s1 ->
  connects (log (pw s1)) = (connects (log (pw s)) ++ hosts)%list.
Proof.
  induction 1 as [s | h hs s s1 s2 Hh _ IH].
  - rewrite app_nil_r. reflexivity.
  - rewrite IH, (probe_host_connects _ _ _ _ Hh), <- app_assoc. reflexivity.
Qed.


End Hosts.

(** [smtp_probe] on a non-empty list, as the loop it runs. *)
Lemma smtp_probe_loop cfg email h hs timeout use_starttls w :
  smtp_probe cfg email (h :: hs) timeout use_starttls w
  = match for_each (firstn 3 (h :: hs)) (probe_host cfg email timeout use_starttls)
            (probe_start w) with
    | (Ret (Some res), s) => (Ret res, pw s)
    | (Ret None, s) => (Ret (None, last_reason s), pw s)
    | (Raise e, s) => (Raise e, pw s)
    end.
Proof.
  unfold smtp_probe, probe_start, bind.
  destruct (for_each _ _ _) as [[[res |] | e] s]; reflexivity.
Qed.

(* ===================================================================== *)
(** * Further properties of the verdict *)
(* ===================================================================== *)

(** The two provider sets are disjoint: no domain is both disposable and
    a free provider. *)
Lemma disposable_not_free (d : string) :
  is_disposable d = true -> Py.mem (Py.lower d) FREE_PROVIDERS = false.
Proof.
  unfold is_disposable, Py.mem. intros H.
  apply List.existsb_exists in H as (x & Hin & Hx).
  apply String.eqb_eq in Hx. rewrite Hx.
  cbn in Hin. repeat (destruct Hin as [<- | Hin]; [reflexivity |]). destruct Hin.
Qed.

(** What the resolver leaves of the world: the network script and the
    entropy are untouched, and the log gains one [Resolve] at most. *)
Lemma check_mx_world (domain : string) (timeout : float) (w : world)
    (o : outcome (bool * list string * string)) (w' : world) :
  check_mx domain timeout w = (o, w') ->
  net w' = net w /\ entropy w' = entropy w /\ dns w' = dns w
  /\ (log w' = log w \/ log w' = (log w ++ [Resolve domain timeout])%list).
Proof.
  unfold check_mx, bind, get, try_except, resolve, cache_store, modify, ret.
  destruct (_mx_cache w !! domain) as [res |].
  - intros E. injection E as <- <-. auto.
  - destruct (dns w domain timeout) as [answers | x]; intros E; injection E as <- <-;
      cbn [net entropy dns log set_cache add_log]; auto.
Qed.

(** The rounded fallback score of a record whose accept-all flag is unset
    and whose domain is not both disposable and free is 0.2 at least and
    0.74 at most. *)
Lemma fallback_score_range (c : checks) (u : bool) :
  c_is_accept_all c = None ->
  (c_is_disposable c = true -> c_is_free_provider c = false) ->
  PrimFloat.leb 0.2 (PyFloat.round3 (_fallback_risky_score c u)) = true
  /\ PrimFloat.leb (PyFloat.round3 (_fallback_risky_score c u)) 0.74 = true.
Proof.
  destruct c as [vs mx disp role free aa chk dlv dom]; cbn [c_is_accept_all c_is_disposable
    c_is_free_provider]. intros -> Hdf.
  destruct disp; [rewrite (Hdf eq_refl) |]; destruct role, u; try destruct free;
    split; vm_compute; reflexivity.
Qed.

Section Verdicts.

Variable cfg : config.
Variable validate_email : string -> outcome (string * string).
Variable get_close_matches : string -> list string -> nat -> float -> list string.

Local Abbreviation validate_email_record :=
  (validate_email_record cfg validate_email get_close_matches).

(** X1: The reason of a returned record is one of seven codes, and each code
    goes with one verdict; the note of an inconclusive probe
    ("smtp-temp", "bad-banner-421", ...) is never the reason. *)
Theorem reason_vocabulary raw timeout do_smtp accept_all_note w r w' :
  validate_email_record raw timeout do_smtp accept_all_note w = (Ret r, w') ->
  In (r_reason r, r_verdict r)
     [("bad-syntax", "invalid"); ("no-mx", "invalid"); ("smtp-5xx", "invalid");
      ("accept-all", "risky"); ("unverifiable", "risky"); ("dns-only", "risky");
      ("smtp-250", "valid")].
Proof.
  intros H. apply run_sound in H.
  assert (Hfb : forall c pg bn sg unv note,
             let r := fallback_result raw c pg bn sg unv note in
             In (r_reason r, r_verdict r)
                [("bad-syntax", "invalid"); ("no-mx", "invalid"); ("smtp-5xx", "invalid");
                 ("accept-all", "risky"); ("unverifiable", "risky"); ("dns-only", "risky");
                 ("smtp-250", "valid")]).
  { intros c pg bn sg unv note r0.
    destruct (fallback_result_fields raw c pg bn sg unv note) as (_ & Hv & _ & Hre & _).
    fold r0 in Hv, Hre. rewrite Hv, Hre.
    destruct (Py.truthy_opt bn && negb (c_smtp_checked c) || unv); cbn; tauto. }
  destruct H as [| | | | l d hosts pg w1 note w2 aa w3 ? ? ? ? ? c | |];
    try apply Hfb; try (cbn; tauto).
  destruct (match aa with Some true => accept_all_note | _ => false end); cbn; tauto.
Qed.

(** X2: The status a caller stores for a returned record is its verdict: the
    "unknown" default of [status_map.get] is never used. *)
Theorem contact_status_is_verdict raw timeout do_smtp accept_all_note w r w' :
  validate_email_record raw timeout do_smtp accept_all_note w = (Ret r, w') ->
  contact_status r = r_verdict r /\ contact_status r <> "unknown".
Proof.
  intros H. apply run_sound in H.
  assert (Hfb : forall c pg bn sg unv note,
             let r := fallback_result raw c pg bn sg unv note in
             contact_status r = r_verdict r /\ contact_status r <> "unknown").
  { intros c pg bn sg unv note r0.
    destruct (fallback_result_fields raw c pg bn sg unv note) as (_ & Hv & _).
    fold r0 in Hv. unfold contact_status. rewrite Hv. cbn. split; [reflexivity | discriminate]. }
  destruct H as [| | | | l d hosts pg w1 note w2 aa w3 ? ? ? ? ? c | |];
    try apply Hfb; try (cbn; split; [reflexivity | discriminate]).
  destruct (match aa with Some true => accept_all_note | _ => false end);
    cbn; split; try reflexivity; discriminate.
Qed.

(** X3: The score tells the verdicts apart: an invalid record scores 0.05,
    0.10 or 0.15, a risky one between 0.2 and 0.74, a valid one 0.95. *)
Theorem score_by_verdict raw timeout do_smtp accept_all_note w r w' :
  validate_email_record raw timeout do_smtp accept_all_note w = (Ret r, w') ->
  (r_verdict r = "invalid" -> In (r_score r) [0.05; 0.10; 0.15]%float)
  /\ (r_verdict r = "risky" ->
      PrimFloat.leb 0.2 (r_score r) = true /\ PrimFloat.leb (r_score r) 0.74 = true)
  /\ (r_verdict r = "valid" -> r_score r = 0.95%float).
Proof.
  intros H. apply run_sound in H.
  assert (Hfb : forall c pg bn sg unv note,
             c_is_accept_all c = None ->
             (c_is_disposable c = true -> c_is_free_provider c = false) ->
             let r := fallback_result raw c pg bn sg unv note in
             (r_verdict r = "invalid" -> In (r_score r) [0.05; 0.10; 0.15]%float)
             /\ (r_verdict r = "risky" ->
                 PrimFloat.leb 0.2 (r_score r) = true
                 /\ PrimFloat.leb (r_score r) 0.74 = true)
             /\ (r_verdict r = "valid" -> r_score r = 0.95%float)).
  { intros c pg bn sg unv note Haa Hdf r0.
    destruct (fallback_result_fields raw c pg bn sg unv note) as (_ & Hv & _ & _ & Hsc & _).
    fold r0 in Hv, Hsc. rewrite Hv, Hsc.
    split; [discriminate |]. split; [intros _ | discriminate].
    apply fallback_score_range; assumption. }
  destruct H as
    [ok l d Hs Hv
    | l d hosts pg w1 Hs Hmx
    | l d hosts pg w1 Hex Hen
    | l d hosts pg w1 Hex Hen Href
    | l d hosts pg w1 note w2 aa w3 Hex Hen Href Hp Haa c
    | l d hosts pg w1 note w2 Hex Hen Href Hp
    | l d hosts pg w1 note w2 Hex Hen Href Hp ];
    try (apply Hfb; [reflexivity | apply disposable_not_free]);
    try (cbn; repeat split; intros; try discriminate; auto; fail).
  destruct (match aa with Some true => accept_all_note | _ => false end);
    cbn; repeat split; intros; try discriminate; auto.
Qed.

(** X4: When the probe is not requested, or not allowed, the engine opens no
    connection: the network script and the entropy are as they were and
    the log has no new [Connect]. *)
Theorem no_probe_no_network raw timeout do_smtp accept_all_note w r w' :
  probe_enabled cfg do_smtp = false ->
  validate_email_record raw timeout do_smtp accept_all_note w = (Ret r, w') ->
  net w' = net w /\ entropy w' = entropy w /\ connects (log w') = connects (log w).
Proof.
  intros Hoff H. apply run_sound in H.
  assert (Hmx : forall d o w1,
             check_mx d timeout w = (o, w1) ->
             net w1 = net w /\ entropy w1 = entropy w
             /\ connects (log w1) = connects (log w)).
  { intros d o w1 E. destruct (check_mx_world _ _ _ _ _ E) as (Hn & He & _ & [Hl | Hl]).
    - rewrite Hl. auto.
    - rewrite Hl, connects_app, app_nil_r. auto. }
  destruct H as
    [ok l d Hs Hv
    | l d hosts pg w1 Hs Hm
    | l d hosts pg w1 [_ Hm] Hen
    | l d hosts pg w1 Hex Hen Href
    | l d hosts pg w1 note w2 aa w3 Hex Hen Href Hp Haa c
    | l d hosts pg w1 note w2 Hex Hen Href Hp
    | l d hosts pg w1 note w2 Hex Hen Href Hp ];
    try congruence; eauto.
Qed.

(** X5: The flags of a returned record follow the pipeline: deliverable
    implies probed, probed implies exchangers, exchangers imply a valid
    syntax; a valid verdict implies deliverable; and the accept-all flag is
    set only on a record that was probed. *)
Theorem checks_pipeline raw timeout do_smtp accept_all_note w r w' :
  validate_email_record raw timeout do_smtp accept_all_note w = (Ret r, w') ->
  let c := r_checks r in
  (c_smtp_deliverable c = true -> c_smtp_checked c = true)
  /\ (c_smtp_checked c = true -> c_has_mx_or_a_record c = true)
  /\ (c_has_mx_or_a_record c = true -> c_has_valid_address_syntax c = true)
  /\ (r_verdict r = "valid" -> c_smtp_deliverable c = true)
  /\ (c_is_accept_all c <> None -> c_smtp_checked c = true).
Proof.
  intros H. apply run_sound in H.
  destruct H as
    [ok l d Hs Hv
    | l d hosts pg w1 Hs Hm
    | l d hosts pg w1 [Hs Hm] Hen
    | l d hosts pg w1 [Hs Hm] Hen Href
    | l d hosts pg w1 note w2 aa w3 [Hs Hm] Hen Href Hp Haa c0
    | l d hosts pg w1 note w2 [Hs Hm] Hen Href Hp
    | l d hosts pg w1 note w2 [Hs Hm] Hen Href Hp ];
    try pose proof (syntax_ok_valid _ _ _ _ Hs) as Hvalid.
  - cbn. repeat split; intros; try discriminate; congruence.
  - cbn in *. repeat split; intros; try discriminate; try congruence.
  - match goal with
    | |- context [fallback_result ?a ?c ?p ?b ?s ?u ?n] =>
        destruct (fallback_result_fields a c p b s u n) as (_ & Hv & _ & _ & _ & Hc)
    end.
    cbv zeta. rewrite Hc, Hv. cbn in *.
    repeat split; intros; try discriminate; try congruence.
  - match goal with
    | |- context [fallback_result ?a ?c ?p ?b ?s ?u ?n] =>
        destruct (fallback_result_fields a c p b s u n) as (_ & Hv & _ & _ & _ & Hc)
    end.
    cbv zeta. rewrite Hc, Hv. cbn in *.
    repeat split; intros; try discriminate; try congruence.
  - destruct (match aa with Some true => accept_all_note | _ => false end);
      cbn in *; repeat split; intros; try discriminate; try congruence.
  - cbn in *. repeat split; intros; try discriminate; try congruence.
  - match goal with
    | |- context [fallback_result ?a ?c ?p ?b ?s ?u ?n] =>
        destruct (fallback_result_fields a c p b s u n) as (_ & Hv & _ & _ & _ & Hc)
    end.
    cbv zeta. rewrite Hc, Hv. cbn in *.
    repeat split; intros; try discriminate; try congruence.
Qed.

End Verdicts.

(* ===================================================================== *)
(** * Further properties of the resolver and the classifiers *)
(* ===================================================================== *)

Lemma ltb_asym (a b : string) : String.ltb a b = true -> String.ltb b a = false.
Proof.
  unfold String.ltb. rewrite (String.compare_antisym b a).
  destruct (String.compare a b); cbn; congruence.
Qed.

Lemma insert_sorted_perm (x : string) (l : list string) :
  Permutation (Py.insert_sorted x l) (x :: l).
Proof.
  induction l as [| y t IH]; cbn [Py.insert_sorted]; [reflexivity |].
  destruct (String.ltb x y); [reflexivity |].
  rewrite IH. apply perm_swap.
Qed.

Lemma insert_sorted_sorted (x : string) (l : list string) :
  Sorted str_le l -> Sorted str_le (Py.insert_sorted x l).
Proof.
  induction 1 as [| y t Hs IH Hd]; cbn [Py.insert_sorted].
  - repeat constructor.
  - destruct (String.ltb x y) eqn:E.
    + constructor; [constructor; assumption |]. constructor. apply ltb_asym, E.
    + constructor; [exact IH |].
      destruct t as [| z t']; cbn [Py.insert_sorted].
      * constructor. exact E.
      * destruct (String.ltb x z); constructor; [exact E |].
        inversion Hd; assumption.
Qed.

Lemma sorted_spec (l : list string) :
  Sorted str_le (Py.sorted l) /\ Permutation (Py.sorted l) l.
Proof.
  unfold Py.sorted.
  assert (G : forall acc, Sorted str_le acc ->
                Sorted str_le (fold_left (fun a x => Py.insert_sorted x a) l acc)
                /\ Permutation (fold_left (fun a x => Py.insert_sorted x a) l acc)
                     (acc ++ l)).
  { induction l as [| x t IH]; intros acc Hacc; cbn [fold_left].
    - rewrite app_nil_r. auto.
    - destruct (IH (Py.insert_sorted x acc) (insert_sorted_sorted x acc Hacc)) as [Hs Hp].
      split; [exact Hs |]. rewrite Hp, insert_sorted_perm.
      change (x :: acc ++ t)%list with ((x :: acc) ++ t)%list.
      rewrite (Permutation_cons_append acc x), <- app_assoc. reflexivity. }
  apply (G []). constructor.
Qed.

Lemma rstrip_with_last p (l pre : list ascii) (c : ascii) :
  Py.rstrip_with p l = (pre ++ [c])%list -> p c = false.
Proof.
  unfold Py.rstrip_with. intros E.
  apply (f_equal (@rev ascii)) in E. rewrite rev_involutive, rev_app_distr in E.
  cbn in E. revert E. generalize (rev l) as m. intros m.
  induction m as [| a t IH]; cbn [Py.lstrip_with]; [discriminate |].
  destruct (p a) eqn:Ha; [exact IH |].
  intros E. injection E as -> _. exact Ha.
Qed.

(** X6: A first, successful lookup: the hosts are the exchange names of the
    answer without their trailing dots, in ascending order, and the triple
    is stored under the domain. *)
Theorem check_mx_fresh (domain : string) (timeout : float) (w : world)
    (answers : list string) :
  _mx_cache w !! domain = None ->
  dns w domain timeout = Ret answers ->
  exists hosts pg w',
    check_mx domain timeout w = (Ret (true, hosts, pg), w')
    /\ Sorted str_le hosts
    /\ Permutation hosts (map (Py.rstrip_chars ["."%char]) answers)
    /\ (forall h pre, In h hosts -> chars h <> (pre ++ ["."%char])%list)
    /\ _mx_cache w' !! domain = Some (true, hosts, pg).
Proof.
  intros Hc Hd.
  destruct (sorted_spec (map (Py.rstrip_chars ["."%char]) answers)) as [Hs Hp].
  eexists _, _, _. split.
  - unfold check_mx, bind, get, try_except, resolve, cache_store, modify, ret.
    rewrite Hc, Hd. reflexivity.
  - split; [exact Hs |]. split; [exact Hp |]. split.
    + intros h pre Hin E.
      apply (Permutation_in _ Hp) in Hin. apply List.in_map_iff in Hin as (a & <- & _).
      unfold Py.rstrip_chars in E. rewrite chars_of_list in E.
      apply rstrip_with_last in E. discriminate E.
    + cbn [_mx_cache set_cache add_log]. apply lookup_insert_eq.
Qed.


(** ** The refuse-to-verify list *)

Lemma append_cons (c : ascii) (a b : string) : String c a +:+ b = String c (a +:+ b).
Proof. reflexivity. Qed.

Lemma length_append (a b : string) :
  String.length (a +:+ b) = (String.length a + String.length b)%nat.
Proof.
  induction a as [| c t IH]; [reflexivity |].
  rewrite append_cons. cbn [String.length Nat.add]. f_equal. exact IH.
Qed.

Lemma substring_all (s : string) : String.substring 0 (String.length s) s = s.
Proof.
  induction s as [| c t IH]; cbn [String.substring String.length];
    [reflexivity | f_equal; exact IH].
Qed.

Lemma substring_skip (pre suf : string) :
  String.substring (String.length pre) (String.length suf) (pre +:+ suf) = suf.
Proof.
  induction pre as [| c t IH]; [apply substring_all |].
  rewrite append_cons. cbn [String.length String.substring]. exact IH.
Qed.

Lemma substring_tail (n k : nat) (s : string) :
  (n + k)%nat = String.length s ->
  s = String.substring 0 n s +:+ String.substring n k s.
Proof.
  revert n. induction s as [| c t IH]; intros n Hlen.
  - destruct n, k; try discriminate Hlen. reflexivity.
  - cbn [String.length] in Hlen. destruct n as [| n].
    + cbn [Nat.add] in Hlen. subst k.
      cbn [String.substring]. rewrite substring_all. reflexivity.
    + cbn [String.substring]. rewrite append_cons. f_equal. apply IH. lia.
Qed.

Lemma endswith_iff (s suffix : string) :
  Py.endswith s suffix = true <-> exists pre, s = pre +:+ suffix.
Proof.
  unfold Py.endswith. split.
  - intros H. apply andb_true_iff in H as [Hle He].
    apply Nat.leb_le in Hle. apply String.eqb_eq in He.
    exists (String.substring 0 (String.length s - String.length suffix) s).
    rewrite <- He at 2. apply substring_tail. lia.
  - intros [pre ->]. rewrite length_append. apply andb_true_iff. split.
    + apply Nat.leb_le. lia.
    + replace (String.length pre + String.length suffix - String.length suffix)%nat
        with (String.length pre) by lia.
      rewrite substring_skip. apply String.eqb_refl.
Qed.

(** X9: A domain is refused exactly when its lower-case form is a listed
    domain or a subdomain of one. *)
Theorem provider_blocks_smtp_iff (domain : string) :
  Py.truthy_opt (provider_blocks_smtp domain) = true
  <-> exists key name,
        In (key, name) SMTP_BLOCKLIST_PROVIDERS
        /\ (Py.lower domain = key \/ exists sub, Py.lower domain = sub +:+ "." +:+ key).
Proof.
  unfold provider_blocks_smtp. generalize (Py.lower domain) as d. intros d.
  assert (Hnames : forall key name, In (key, name) SMTP_BLOCKLIST_PROVIDERS ->
                                    Py.truthy name = true).
  { intros key name Hin. cbn in Hin.
    repeat (destruct Hin as [E | Hin]; [injection E as <- <-; reflexivity |]).
    destruct Hin. }
  revert Hnames. generalize SMTP_BLOCKLIST_PROVIDERS as items.
  induction items as [| [key name] rest IH]; intros Hnames; cbn [blocklist_lookup].
  - split; [discriminate | intros (key & name & [] & _)].
  - destruct (String.eqb d key || Py.endswith d ("." +:+ key)) eqn:E.
    + cbn [Py.truthy_opt]. split.
      * intros _. exists key, name. split; [left; reflexivity |].
        apply orb_true_iff in E as [E | E].
        -- left. apply String.eqb_eq. exact E.
        -- right. apply endswith_iff. exact E.
      * intros _. apply (Hnames key name). left. reflexivity.
    + rewrite IH by (intros k n Hin; apply (Hnames k n); right; exact Hin).
      apply orb_false_iff in E as [E1 E2].
      split.
      * intros (k & n & Hin & Hd). exists k, n. split; [right; exact Hin | exact Hd].
      * intros (k & n & [Hin | Hin] & Hd); [| exists k, n; auto].
        injection Hin as <- <-. exfalso. destruct Hd as [Hd | Hd].
        -- apply String.eqb_neq in E1. exact (E1 Hd).
        -- apply endswith_iff in Hd. congruence.
Qed.

(** ** Role accounts *)

Lemma before_char_stop (sep : ascii) (root rest : string) :
  Py.before_char sep (root +:+ String sep rest) = Py.before_char sep root.
Proof.
  induction root as [| c t IH].
  - change (EmptyString +:+ String sep rest) with (String sep rest).
    cbn [Py.before_char]. rewrite Ascii.eqb_refl. reflexivity.
  - rewrite append_cons. cbn [Py.before_char].
    destruct (Ascii.eqb c sep); [reflexivity | rewrite IH; reflexivity].
Qed.

(** X10: Only the part of the local part before its first [+] or [.] counts:
    a tag or a dotted suffix does not change whether it is a role
    account. *)
Theorem is_role_account_root (root rest : string) :
  is_role_account (root +:+ String "+" rest) = is_role_account root
  /\ is_role_account (root +:+ String "." rest) = is_role_account root.
Proof.
  unfold is_role_account. split.
  - rewrite before_char_stop. reflexivity.
  - assert (E : Py.before_char "." (Py.before_char "+" (root +:+ String "." rest))
                = Py.before_char "." (Py.before_char "+" root)).
    { induction root as [| c t IH].
      - reflexivity.
      - rewrite append_cons. cbn [Py.before_char].
        destruct (Ascii.eqb c "+"); [reflexivity |].
        cbn [Py.before_char]. destruct (Ascii.eqb c "."); [reflexivity |].
        rewrite IH. reflexivity. }
    rewrite E. reflexivity.
Qed.

(* ===================================================================== *)
(** * Further properties of the reply reader *)
(* ===================================================================== *)

Lemma int_digits_three (a b c : ascii) :
  Py.in_range 48 57 a = true -> Py.in_range 48 57 b = true -> Py.in_range 48 57 c = true ->
  isdigit (String a (String b (String c EmptyString))) = true
  /\ int_digits (String a (String b (String c EmptyString))) 0
     = Ret (100 * Z.of_nat (Py.ord a - 48) + 10 * Z.of_nat (Py.ord b - 48)
            + Z.of_nat (Py.ord c - 48)).
Proof.
  intros Ha Hb Hc. unfold isdigit, isdigit_all, isdigit_char.
  cbn [int_digits negb String.eqb]. rewrite Ha, Hb, Hc. cbn [orb andb].
  split; [reflexivity |]. f_equal. lia.
Qed.

Lemma reply_line_parts (line : string) (code : Z) (final : bool) :
  reply_line line code final ->
  (4 <=? String.length line)%nat = true
  /\ isdigit (String.substring 0 3 line) = true
  /\ int_digits (String.substring 0 3 line) 0 = Ret code
  /\ negb (String.eqb (String.substring 3 1 line) "-") = final.
Proof.
  intros (a & b & c & sep & rest & -> & Ha & Hb & Hc & -> & <-).
  destruct (int_digits_three a b c Ha Hb Hc) as [Hd Hi].
  split; [reflexivity |]. split; [exact Hd |]. split; [exact Hi |].
  cbn [String.substring]. destruct rest; cbn [String.substring String.eqb];
    destruct (Ascii.eqb sep "-"); reflexivity.
Qed.

(** X11: The continuation lines of a reply are read up to its final line: the
    code is that of the first line, the text joins the lines read, and the
    script after the final line is left for the next read. *)
Theorem read_lines_reply (conts : list (string * string)) (raw_final final : string)
    (code0 code : Z) (rest : list net_ev) :
  Forall (fun p => exists c, reply_line (snd p) c false
                             /\ Py.rstrip_chars [Py.CR; Py.LF] (fst p) = snd p) conts ->
  reply_line final code true ->
  Py.rstrip_chars [Py.CR; Py.LF] raw_final = final ->
  (match conts with
   | [] => code0 = code
   | p :: _ => reply_line (snd p) code0 false
   end) ->
  read_lines (map (fun p => Line (fst p)) conts ++ Line raw_final :: rest) [] None 0
  = (Ret (code0, Py.join (String Py.LF EmptyString) (map snd conts ++ [final])), rest,
     S (Datatypes.length conts)).
Proof.
  intros Hconts Hfinal Hraw Hfirst.
  assert (G : forall conts lines first calls,
             Forall (fun p => exists c, reply_line (snd p) c false
                                /\ Py.rstrip_chars [Py.CR; Py.LF] (fst p) = snd p) conts ->
             (match first with
              | Some c => c = code0
              | None => match conts with
                        | [] => code0 = code
                        | p :: _ => reply_line (snd p) code0 false
                        end
              end) ->
             read_lines (map (fun p => Line (fst p)) conts ++ Line raw_final :: rest)
               lines first calls
             = (Ret (code0, Py.join (String Py.LF EmptyString)
                              (lines ++ map snd conts ++ [final])), rest,
                S (calls + Datatypes.length conts))).
  { clear Hconts Hfirst conts. induction conts as [| [raw line] t IH];
      intros lines first calls Hc Hf.
    - cbn [map app read_lines]. rewrite Hraw.
      destruct (reply_line_parts _ _ _ Hfinal) as (-> & -> & -> & ->).
      cbn [andb negb]. rewrite Nat.add_0_r.
      destruct first as [c |]; subst; reflexivity.
    - inversion Hc as [| ? ? (c & Hline & Hstrip) Ht]; subst. cbn [fst snd] in *.
      cbn [map app read_lines fst]. rewrite Hstrip.
      destruct (reply_line_parts _ _ _ Hline) as (-> & -> & -> & Hsep).
      cbn [andb]. rewrite Hsep.
      rewrite IH; [| exact Ht |].
      + cbn [map snd Datatypes.length]. rewrite <- app_assoc. cbn [app].
        rewrite Nat.add_succ_r. reflexivity.
      + destruct first as [c' |]; [exact Hf |].
        cbn [snd] in Hf.
        destruct Hf as (a1 & b1 & c1 & s1 & r1 & E1 & _ & _ & _ & E2 & _).
        destruct Hline as (a2 & b2 & c2 & s2 & r2 & E3 & _ & _ & _ & E4 & _).
        rewrite E1 in E3. injection E3 as -> -> -> _ _. congruence. }
  rewrite (G conts [] None 0%nat Hconts Hfirst). reflexivity.
Qed.

(** X12: A first line that is not three digits and a fourth character ends the
    read with code 0 and that line as the text: a bare "250", for one. *)
Theorem read_lines_unrecognised (raw : string) (rest : list net_ev) :
  let line := Py.rstrip_chars [Py.CR; Py.LF] raw in
  (String.length line < 4)%nat \/ isdigit (String.substring 0 3 line) = false ->
  read_lines (Line raw :: rest) [] None 0 = (Ret (0, line), rest, 1%nat).
Proof.
  intros line H. cbn [read_lines]. fold line.
  assert (E : (4 <=? String.length line)%nat && isdigit (String.substring 0 3 line) = false).
  { destruct H as [H | H].
    - apply andb_false_iff. left. apply Nat.leb_gt. exact H.
    - rewrite H. apply andb_false_r. }
  rewrite E. cbn [app code_or_0 Py.join String.concat]. reflexivity.
Qed.

(* ===================================================================== *)
(** * Further properties of the probe and of the detector *)
(* ===================================================================== *)

Lemma keeps_reason_ret {A} (a : A) : keeps_reason (ret a).
Proof. intros s o s' E. injection E as <- <-. reflexivity. Qed.

Lemma keeps_reason_get : keeps_reason get.
Proof. intros s o s' E. injection E as <- <-. reflexivity. Qed.

Lemma keeps_reason_io {A} (m : M world A) : keeps_reason (io m).
Proof.
  intros s o s'. unfold io, lift. destruct (m (pw s)) as [r w1].
  intros E. injection E as <- <-. reflexivity.
Qed.

Lemma keeps_reason_bind {A B} (m : M probe_state A) (k : A -> M probe_state B) :
  keeps_reason m -> (forall a, keeps_reason (k a)) -> keeps_reason (bind m k).
Proof.
  intros Hm Hk s o s'. unfold bind. destruct (m s) as [[a | e] s1] eqn:E.
  - intros E'. rewrite (Hk _ _ _ _ E'). exact (Hm _ _ _ E).
  - intros E'. injection E' as <- <-. exact (Hm _ _ _ E).
Qed.

Lemma keeps_reason_try_except {A} (m : M probe_state A) h :
  keeps_reason m -> (forall e, keeps_reason (h e)) -> keeps_reason (try_except m h).
Proof.
  intros Hm Hh s o s'. unfold try_except. destruct (m s) as [[a | e] s1] eqn:E.
  - intros E'. injection E' as <- <-. exact (Hm _ _ _ E).
  - intros E'. rewrite (Hh _ _ _ _ E'). exact (Hm _ _ _ E).
Qed.

Lemma keeps_reason_probe_cleanup : keeps_reason probe_cleanup.
Proof.
  unfold probe_cleanup, try_pass, fh_close, sock_close.
  repeat first
    [ apply keeps_reason_ret | apply keeps_reason_get | apply keeps_reason_io
    | apply keeps_reason_bind; [| intros ?]
    | apply keeps_reason_try_except; [| intros ?]
    | match goal with
      | |- keeps_reason (match ?x with _ => _ end) => destruct x
      end ].
Qed.

Section Unreachable.

Variable cfg : config.
Variables (email : string) (timeout : float) (use_starttls : bool).

(** A host that cannot be reached is abandoned, and the last reason stays
    as it was. *)
Lemma probe_host_unreachable (host : string) (s : probe_state) :
  Forall (eq Fail) (net (pw s)) ->
  exists s',
    probe_host cfg email timeout use_starttls host s = (Ret None, s')
    /\ last_reason s' = last_reason s
    /\ Forall (eq Fail) (net (pw s')).
Proof.
  intros Hnet.
  unfold probe_host, probe_body, probe_cleanup, try_pass, try_except, create_connection,
    bind, set_sock, set_fh, modify, io, lift, net_call, get, ret.
  cbn [pw sock fh last_reason].
  destruct (net (pw s)) as [| ev rest] eqn:E.
  - eexists. split; [reflexivity |]. cbn [last_reason pw set_pw net add_log].
    split; [reflexivity |]. rewrite E. constructor.
  - inversion Hnet as [| ? ? <- Hrest]; subst.
    eexists. split; [reflexivity |]. cbn [last_reason pw set_pw net set_net add_log].
    split; [reflexivity | exact Hrest].
Qed.

Lemma hosts_unreachable (hosts : list string) : forall s,
  Forall (eq Fail) (net (pw s)) ->
  exists s',
    for_each hosts (probe_host cfg email timeout use_starttls) s = (Ret None, s')
    /\ abandoned cfg email timeout use_starttls hosts s s'
    /\ last_reason s' = last_reason s
    /\ Forall (eq Fail) (net (pw s')).
Proof.
  induction hosts as [| h hs IH]; intros s Hnet.
  - exists s. split; [reflexivity |]. split; [constructor | auto].
  - destruct (probe_host_unreachable h s Hnet) as (s1 & Hh & Hr & Hn).
    destruct (IH s1 Hn) as (s2 & Hfe & Hab & Hr2 & Hn2).
    exists s2. split.
    + cbn [for_each]. unfold bind. rewrite Hh. exact Hfe.
    + split; [econstructor; eauto |]. split; [congruence | exact Hn2].
Qed.

(** X13: When no connection can be opened the probe answers Inconclusive
    "smtp-inconclusive", after one connection attempt to each of the first
    three hosts. *)
Theorem smtp_probe_unreachable (h : string) (hs : list string) (w : world) :
  Forall (eq Fail) (net w) ->
  exists w',
    smtp_probe cfg email (h :: hs) timeout use_starttls w
    = (Ret (None, "smtp-inconclusive"), w')
    /\ connects (log w') = (connects (log w) ++ firstn 3 (h :: hs))%list
    /\ Forall (eq Fail) (net w').
Proof.
  intros Hnet.
  destruct (hosts_unreachable (firstn 3 (h :: hs)) (probe_start w) Hnet)
    as (s' & Hfe & Hab & Hr & Hn).
  exists (pw s'). rewrite smtp_probe_loop, Hfe, Hr. split; [reflexivity |].
  split; [| exact Hn].
  exact (abandoned_connects _ _ _ _ _ _ _ Hab).
Qed.

(** X14: A host whose greeting does not carry the code 220 is abandoned with
    the reason "bad-banner-" followed by the code it sent. *)
Theorem probe_host_bad_banner (host : string) (s : probe_state) (ev : net_ev)
    (script rest : list net_ev) (code : Z) (text : string) (calls : nat) :
  net (pw s) = ev :: script -> ev <> Fail ->
  read_lines script [] None 0 = (Ret (code, text), rest, calls) ->
  code <> 220 ->
  exists s',
    probe_host cfg email timeout use_starttls host s = (Ret None, s')
    /\ last_reason s' = "bad-banner-" +:+ Py.str_of_Z code.
Proof.
  intros Hnet Hev Hread Hcode.
  assert (Hc : exists s1,
             probe_body cfg email host timeout use_starttls
               {| pw := pw s; last_reason := last_reason s; sock := None; fh := None |}
             = (Raise (Exception "bad banner"), s1)
             /\ last_reason s1 = "bad-banner-" +:+ Py.str_of_Z code).
  { unfold probe_body, create_connection, bind at 1 2 3 4 5 6 7.
    unfold io, lift, net_call, set_sock, set_fh, modify, ret. cbn [pw].
    rewrite Hnet. destruct ev as [| |tx]; [congruence | |];
      cbn [pw set_pw net set_net add_log]; unfold _read_resp;
      cbn [net set_net add_log]; rewrite Hread; cbn [fst];
      (destruct (Z.eqb_spec code 220) as [-> | _]; [congruence |]);
      cbn [negb]; unfold bind, set_last_reason, modify, raise;
      eexists; split; reflexivity. }
  destruct Hc as (s1 & Hb & Hr).
  destruct (returns_probe_cleanup s1) as (r & s2 & Hcl).
  assert (Hkeep : r = None /\ last_reason s2 = last_reason s1).
  { split; [| exact (keeps_reason_probe_cleanup _ _ _ Hcl)].
    revert Hcl. unfold probe_cleanup. intros Hcl.
    apply bind_ret_inv in Hcl. destruct Hcl as ([] & s3 & _ & Hret).
    unfold ret in Hret. injection Hret as <- _. reflexivity. }
  destruct Hkeep as [-> Hr2].
  exists s2. split; [| congruence].
  unfold probe_host, bind, set_sock, set_fh, modify, try_except.
  cbn [pw last_reason sock fh]. rewrite Hb. exact Hcl.
Qed.

End Unreachable.

(** X15: When no connection can be opened, an address whose probe is due is
    risky and "unverifiable": a dead network makes no address invalid. *)
Theorem unreachable_is_unverifiable (cfg : config)
    (validate_email : string -> outcome (string * string))
    (get_close_matches : string -> list string -> nat -> float -> list string)
    (raw : string) (timeout : float) (do_smtp accept_all_note : bool) (w : world)
    (l d : string) (hosts : list string) (pg : string) (w1 : world) :
  has_exchangers validate_email raw timeout w l d hosts pg w1 ->
  probe_enabled cfg do_smtp = true ->
  probe_refused cfg d = false ->
  Forall (eq Fail) (net w) ->
  exists r w',
    validate_email_record cfg validate_email get_close_matches raw timeout do_smtp
      accept_all_note w = (Ret r, w')
    /\ r_verdict r = "risky" /\ r_reason r = "unverifiable".
Proof.
  intros Hex Hen Href Hnet.
  assert (Hnet1 : Forall (eq Fail) (net w1)).
  { destruct Hex as [_ Hmx]. destruct (check_mx_world _ _ _ _ _ Hmx) as (-> & _). exact Hnet. }
  assert (Hp : exists note w2,
             smtp_probe cfg (normalize raw) hosts timeout true w1 = (Ret (None, note), w2)).
  { destruct hosts as [| h hs].
    - eexists _, _. reflexivity.
    - destruct (hosts_unreachable cfg (normalize raw) timeout true (firstn 3 (h :: hs))
                  (probe_start w1) Hnet1) as (s' & Hfe & _).
      eexists _, _. rewrite smtp_probe_loop, Hfe. reflexivity. }
  destruct Hp as (note & w2 & Hp).
  pose proof (run_inconclusive cfg validate_email get_close_matches raw timeout do_smtp
                accept_all_note w l d hosts pg w1 note w2 Hex Hen Href Hp) as R.
  apply run_complete in R. eexists _, _. split; [exact R |].
  match goal with
  | |- context [fallback_result ?a ?c ?p ?b ?s ?u ?n] =>
      destruct (fallback_result_fields a c p b s u n) as (_ & Hv & _ & Hr & _)
  end.
  split; [exact Hv |]. rewrite Hr, orb_true_r. reflexivity.
Qed.

(** X16: With [ACCEPT_ALL_PROBES] at one or below, zero and negative values
    included, the detector makes exactly one probe of a random address and
    answers what that probe answered. *)
Theorem is_accept_all_single (cfg : config) (domain h : string) (hs : list string)
    (timeout : float) (w : world) :
  ACCEPT_ALL_PROBES cfg <= 1 ->
  exists rnd wa ok note wb,
    random_choices alphabet 16 w = (Ret rnd, wa)
    /\ smtp_probe cfg (rnd +:+ "@" +:+ domain) (h :: hs) timeout true wa
       = (Ret (ok, note), wb)
    /\ is_accept_all cfg domain (h :: hs) timeout w = (Ret ok, wb).
Proof.
  intros Hle.
  destruct (accept_step cfg domain (h :: hs) timeout O {| aw := w; successes := 0 |})
    as (rnd & wa & ok & note & wb & Hr & Hp & Hstep).
  exists rnd, wa, ok, note, wb. split; [exact Hr |]. split; [exact Hp |].
  rewrite is_accept_all_loop. cbv zeta.
  replace (Z.max 1 (ACCEPT_ALL_PROBES cfg)) with 1 by lia.
  change (seq 0 (Z.to_nat 1)) with [O]. cbn [for_each]. unfold bind. rewrite Hstep.
  destruct ok as [[|] |]; reflexivity.
Qed.

(* ===================================================================== *)
(** * Further properties of the syntax stage *)
(* ===================================================================== *)

Lemma chars_inj (a b : string) : chars a = chars b -> a = b.
Proof.
  intros E. rewrite <- (string_of_list_ascii_of_string a), <- (string_of_list_ascii_of_string b).
  unfold chars in E. rewrite E. reflexivity.
Qed.

Lemma chars_append (a b : string) : chars (a +:+ b) = (chars a ++ chars b)%list.
Proof.
  induction a as [| c t IH]; [reflexivity |].
  rewrite append_cons, !chars_cons, IH. reflexivity.
Qed.

(** X17: The normalized address has no space, and no character that the input
    did not have. *)
Theorem normalize_chars (email : string) :
  ~ In " "%char (chars (normalize email))
  /\ forall c, In c (chars (normalize email)) -> In c (chars email).
Proof.
  unfold normalize. split.
  - rewrite chars_remove_char. intros H. apply List.filter_In in H as [_ H].
    discriminate H.
  - intros c H.
    apply (proj1 (trims_remove_char " " eq_refl _)) in H.
    apply (proj1 (trims_strip_with _ eq_refl _)) in H.
    apply (proj1 (trims_strip_with _ eq_refl _)) in H.
    exact H.
Qed.

Lemma strip_with_clean (p : ascii -> bool) (s : string) :
  (forall c, In c (chars s) -> p c = false) -> Py.strip_with p s = s.
Proof.
  intros H. unfold Py.strip_with. fold (chars s).
  assert (Hl : forall l, (forall c, In c l -> p c = false) -> Py.lstrip_with p l = l).
  { intros [| a t] Hc; [reflexivity |]. cbn [Py.lstrip_with].
    rewrite (Hc a (or_introl eq_refl)). reflexivity. }
  rewrite (Hl _ H). unfold Py.rstrip_with.
  rewrite Hl by (intros c Hc; apply H, in_rev; exact Hc).
  rewrite rev_involutive. apply string_of_list_ascii_of_string.
Qed.

Lemma remove_char_clean (x : ascii) (s : string) :
  ~ In x (chars s) -> Py.remove_char x s = s.
Proof.
  induction s as [| a t IH]; intros H; [reflexivity |]. cbn [Py.remove_char].
  destruct (Ascii.eqb_spec a x) as [-> | Hne].
  - exfalso. apply H. left. reflexivity.
  - rewrite IH; [reflexivity |]. intros Hin. apply H. right. exact Hin.
Qed.

(** X18: An address without white space, double quote or semicolon is
    normalized to itself. *)
Theorem normalize_clean (email : string) :
  (forall c, In c (chars email) ->
             Py.isspace c = false /\ c <> Py.DQUOTE /\ c <> ";"%char) ->
  normalize email = email.
Proof.
  intros H. unfold normalize, Py.strip, Py.strip_chars.
  rewrite (strip_with_clean Py.isspace) by (intros c Hc; apply (H c Hc)).
  rewrite strip_with_clean.
  - apply remove_char_clean. intros Hin. destruct (H _ Hin) as [Hs _]. discriminate Hs.
  - intros c Hc. destruct (H c Hc) as (_ & Hq & Hsc). cbn [Py.mem_char existsb].
    destruct (Ascii.eqb_spec c Py.DQUOTE) as [-> | _]; [congruence |].
    destruct (Ascii.eqb_spec c ";") as [-> | _]; [congruence |]. reflexivity.
Qed.

Lemma dot_runs_nonempty (cls : ascii -> bool) (s : string) (n m : nat) :
  dot_runs cls s false n = Some m -> s <> EmptyString.
Proof. destruct s; [discriminate | discriminate]. Qed.

(** X19: Where the address parser rejects and the fall-back pattern accepts,
    the two parts recompose the address, up to a line feed that ends it:
    the local part is not empty and the domain has a dot. *)
Theorem check_syntax_fallback_parts
    (validate_email : string -> outcome (string * string)) (email l d : string) :
  validate_email email = Raise EmailNotValidError ->
  check_syntax validate_email email = Ret (true, Some l, Some d) ->
  (email = l +:+ "@" +:+ d \/ email = l +:+ "@" +:+ d +:+ String Py.LF EmptyString)
  /\ l <> EmptyString /\ In "."%char (chars d)
  /\ Forall (fun c => local_char c = true \/ c = "."%char) (chars l)
  /\ Forall (fun c => domain_char c = true \/ c = "."%char) (chars d).
Proof.
  intros Hv. unfold check_syntax. rewrite Hv. unfold EMAIL_REGEX_match.
  destruct (Py.split_first "@" email) as [[l0 r] |] eqn:Hs; [| discriminate].
  destruct (dot_runs local_char l0 false 0) as [n0 |] eqn:Hl; [| discriminate].
  destruct (dot_runs domain_char (before_final_newline r) false 0) as [[| n] |] eqn:Hd;
    try discriminate.
  intros E. injection E as <- <-.
  destruct (split_first_some _ _ _ _ Hs) as [He _].
  destruct (dot_runs_shape _ _ _ _ _ Hl) as (_ & _ & Hall_l).
  destruct (dot_runs_shape _ _ _ _ _ Hd) as (_ & Hdot & Hall_d).
  split.
  - destruct (before_final_newline_shape r) as [E | E]; [left | right];
      apply chars_inj; rewrite He, E, !chars_append; try rewrite chars_append;
      cbn [chars list_ascii_of_string app]; try rewrite <- app_assoc; reflexivity.
  - split; [exact (dot_runs_nonempty _ _ _ _ Hl) |].
    split; [apply Hdot; lia |]. split; assumption.
Qed.

(* ===================================================================== *)
(** * The name splitter of the bulk import *)
(* ===================================================================== *)

Lemma lstrip_with_blank p (l t : list ascii) :
  Forall (fun c => p c = true) l -> Py.lstrip_with p (l ++ t) = Py.lstrip_with p t.
Proof.
  induction 1 as [| c l Hc _ IH]; [reflexivity |].
  cbn [app Py.lstrip_with]. rewrite Hc. exact IH.
Qed.

Lemma strip_with_core p (lead core trail : list ascii) (a b : ascii) (m m' : list ascii) :
  Forall (fun c => p c = true) lead -> Forall (fun c => p c = true) trail ->
  core = a :: m -> core = (m' ++ [b])%list -> p a = false -> p b = false ->
  Py.strip_with p (string_of_list_ascii (lead ++ core ++ trail)) = string_of_list_ascii core.
Proof.
  intros Hl Ht Ea Eb Ha Hb. unfold Py.strip_with.
  rewrite list_ascii_of_string_of_list_ascii, lstrip_with_blank by exact Hl.
  f_equal. rewrite Ea. cbn [app Py.lstrip_with]. rewrite Ha.
  change (a :: (m ++ trail)%list) with ((a :: m) ++ trail)%list. rewrite <- Ea.
  unfold Py.rstrip_with. rewrite rev_app_distr, lstrip_with_blank.
  - rewrite Eb at 1. rewrite rev_app_distr. cbn [rev app Py.lstrip_with]. rewrite Hb.
    change (b :: rev m') with (rev [b] ++ rev m')%list.
    rewrite <- rev_app_distr, rev_involutive. symmetry. exact Eb.
  - apply Forall_rev. exact Ht.
Qed.

Lemma strip_with_blank p (s : string) :
  Forall (fun c => p c = true) (chars s) -> Py.strip_with p s = EmptyString.
Proof.
  intros H. unfold Py.strip_with. fold (chars s).
  rewrite <- (app_nil_r (chars s)), lstrip_with_blank by exact H. reflexivity.
Qed.

Lemma re_split_ws_word (w t cur : list ascii) (b : bool) :
  Forall (fun c => Py.isspace c = false) w ->
  re_split_ws (w ++ t) cur b
  = re_split_ws t (rev w ++ cur) (match w with [] => b | _ => false end).
Proof.
  intros H. revert cur b. induction H as [| c w Hc _ IH]; intros cur b; [reflexivity |].
  cbn [app re_split_ws]. rewrite Hc, IH. cbn [rev]. rewrite <- app_assoc. cbn [app].
  destruct w; reflexivity.
Qed.

Lemma re_split_ws_word_false (w t cur : list ascii) :
  Forall (fun c => Py.isspace c = false) w ->
  re_split_ws (w ++ t) cur false = re_split_ws t (rev w ++ cur) false.
Proof. intros H. rewrite re_split_ws_word by exact H. destruct w; reflexivity. Qed.

Lemma re_split_ws_run (sep t cur : list ascii) :
  Forall (fun c => Py.isspace c = true) sep ->
  re_split_ws (sep ++ t) cur true = re_split_ws t cur true.
Proof.
  induction 1 as [| c sep Hc _ IH]; [reflexivity |].
  cbn [app re_split_ws]. rewrite Hc. exact IH.
Qed.

Lemma re_split_ws_sep (sep t cur : list ascii) :
  sep <> [] -> Forall (fun c => Py.isspace c = true) sep ->
  re_split_ws (sep ++ t) cur false
  = string_of_list_ascii (rev cur) :: re_split_ws t [] true.
Proof.
  intros Hne H. destruct H as [| c sep Hc H]; [congruence |].
  cbn [app re_split_ws]. rewrite Hc, re_split_ws_run by exact H. reflexivity.
Qed.

Lemma chars_nonempty (s : string) : s <> EmptyString -> chars s <> [].
Proof. destruct s; [congruence | discriminate]. Qed.

Lemma re_split_ws_words (rest : list (string * string)) :
  Forall (fun sw => blank (fst sw) /\ fst sw <> EmptyString /\ word (snd sw)) rest ->
  forall w0 : list ascii,
    re_split_ws (concat (map (fun sw => chars (fst sw) ++ chars (snd sw)) rest)%list)
      (rev w0) false
    = string_of_list_ascii w0 :: map snd rest.
Proof.
  induction 1 as [| [sep w] rest (Hb & Hne & Hw1 & Hw2) _ IH]; intros w0.
  - cbn [map concat re_split_ws]. rewrite rev_involutive. reflexivity.
  - cbn [map concat fst snd] in *. rewrite <- !app_assoc.
    rewrite re_split_ws_sep by (try apply chars_nonempty; assumption).
    rewrite rev_involutive, re_split_ws_word by exact Hw2.
    rewrite app_nil_r.
    destruct (chars w) as [| c cs] eqn:Ew; [exact (False_ind _ (chars_nonempty _ Hw1 Ew)) |].
    rewrite IH. unfold chars in Ew. rewrite <- Ew, string_of_list_ascii_of_string.
    reflexivity.
Qed.

Lemma chars_concat (l : list string) :
  chars (String.concat EmptyString l) = concat (map chars l).
Proof.
  induction l as [| a [| b t] IH]; [reflexivity | |].
  - cbn [String.concat map concat]. rewrite app_nil_r. reflexivity.
  - change (String.concat EmptyString (a :: b :: t))
      with (a +:+ EmptyString +:+ String.concat EmptyString (b :: t)).
    rewrite !chars_append, IH. reflexivity.
Qed.

Lemma words_last (first : list ascii) (rest : list (string * string)) :
  first <> [] -> Forall (fun c => Py.isspace c = false) first ->
  Forall (fun sw => blank (fst sw) /\ fst sw <> EmptyString /\ word (snd sw)) rest ->
  exists m b,
    (first ++ concat (map (fun sw => chars (fst sw) ++ chars (snd sw)) rest))%list
    = (m ++ [b])%list /\ Py.isspace b = false.
Proof.
  intros Hne Hf Hrest. revert first Hne Hf.
  induction Hrest as [| [sep w] rest (_ & _ & Hw1 & Hw2) _ IH]; intros first Hne Hf.
  - cbn [map concat]. rewrite app_nil_r.
    destruct (exists_last Hne) as (m & b & ->). exists m, b. split; [reflexivity |].
    apply List.Forall_app in Hf as [_ Hb]. inversion Hb. assumption.
  - cbn [map concat fst snd].
    destruct (IH (chars w) (chars_nonempty _ Hw1) Hw2) as (m & b & E & Hb).
    exists (first ++ chars sep ++ m)%list, b. split; [| exact Hb].
    rewrite <- !app_assoc. rewrite <- E. reflexivity.
Qed.

(** X20: A full name is split at its first run of white space: the first word,
    then the other words joined by single spaces, whatever white space
    stood around and between them. *)
Theorem split_full_name_words (lead trail first : string) (rest : list (string * string)) :
  blank lead -> blank trail -> word first ->
  Forall (fun sw => blank (fst sw) /\ fst sw <> EmptyString /\ word (snd sw)) rest ->
  _split_full_name
    (Some (lead +:+ first
           +:+ String.concat EmptyString (map (fun sw => fst sw +:+ snd sw) rest)
           +:+ trail))
  = (first, Py.join " " (map snd rest)).
Proof.
  intros Hl Ht [Hne Hf] Hrest.
  set (core := (chars first
                ++ concat (map (fun sw => chars (fst sw) ++ chars (snd sw)) rest))%list).
  assert (Hfull : lead +:+ first
                  +:+ String.concat EmptyString (map (fun sw => fst sw +:+ snd sw) rest)
                  +:+ trail
                  = string_of_list_ascii (chars lead ++ core ++ chars trail)).
  { apply chars_inj. rewrite chars_of_list, !chars_append, chars_concat, map_map.
    unfold core. rewrite <- !app_assoc. do 3 f_equal. f_equal.
    apply map_ext. intros sw. apply chars_append. }
  destruct (words_last (chars first) rest (chars_nonempty _ Hne) Hf Hrest)
    as (m' & b & Eb & Hb).
  assert (Hhead : exists a m, core = a :: m /\ Py.isspace a = false).
  { unfold core. pose proof (chars_nonempty _ Hne) as Hc.
    destruct (chars first) as [| a fs]; [congruence |].
    exists a, (fs ++ concat (map (fun sw => chars (fst sw) ++ chars (snd sw)) rest))%list.
    split; [reflexivity |]. inversion Hf; assumption. }
  destruct Hhead as (a & m & Ea & Ha).
  assert (Htr : Py.truthy (string_of_list_ascii core) = true) by (rewrite Ea; reflexivity).
  unfold _split_full_name, _safe, or_empty, Py.strip. rewrite Hfull.
  rewrite (strip_with_core Py.isspace _ core _ a b m m' Hl Ht Ea Eb Ha Hb).
  cbv zeta. rewrite list_ascii_of_string_of_list_ascii, Htr. cbn [negb]. unfold core.
  rewrite re_split_ws_word_false by exact Hf. rewrite app_nil_r.
  rewrite re_split_ws_words by exact Hrest.
  unfold chars. rewrite string_of_list_ascii_of_string.
  destruct rest; reflexivity.
Qed.

(** X21: A missing name, or one of white space only, gives two empty names. *)
Theorem split_full_name_blank (full : option string) :
  blank (or_empty full) -> _split_full_name full = (EmptyString, EmptyString).
Proof.
  intros H. unfold _split_full_name, _safe, Py.strip.
  rewrite strip_with_blank by exact H. reflexivity.
Qed.

(* ===================================================================== *)
(** * The table of misspellings *)
(* ===================================================================== *)

(** X22: A listed misspelling, in any letter case, is corrected from the table
    alone, whatever [difflib] would answer: the suggestion is the domain
    of a free provider and differs from the domain given. *)
Theorem typo_suggestion_known_fix
    (get_close_matches : string -> list string -> nat -> float -> list string)
    (domain fixed : string) :
  In (Py.lower domain, fixed) fixes ->
  typo_suggestion get_close_matches domain = Some fixed
  /\ Py.mem fixed FREE_PROVIDERS = true
  /\ fixed <> Py.lower domain.
Proof.
  unfold typo_suggestion. cbv zeta. generalize (Py.lower domain) as d. intros d H.
  cbn in H.
  repeat (destruct H as [H | H];
          [injection H as <- <-; split; [reflexivity |]; split;
           [reflexivity | discriminate] |]).
  destruct H.
Qed.

(* ===================================================================== *)
(** * The dialogue of the probe with one host *)
(* ===================================================================== *)

Lemma sends_app (a b : list action) : sends (a ++ b) = (sends a ++ sends b)%list.
Proof.
  induction a as [| x t IH]; [reflexivity |].
  destruct x; cbn [app sends]; rewrite IH; reflexivity.
Qed.

Lemma sends_repeat_Recv (k : nat) : sends (repeat Recv k) = [].
Proof. induction k as [| k IH]; [reflexivity | exact IH]. Qed.

Lemma bind_ret {S A B} (m : M S A) (k : A -> M S B) (s s1 : S) (a : A) :
  m s = (Ret a, s1) -> bind m k s = k a s1.
Proof. intros E. unfold bind. rewrite E. reflexivity. Qed.

(** A socket call that the network answers. *)
Lemma net_call_step (a : action) (s : probe_state) (ev : net_ev) (rest : list net_ev) :
  net (pw s) = ev :: rest -> ev <> Fail ->
  exists s',
    io (net_call a) s = (Ret ev, s')
    /\ net (pw s') = rest /\ last_reason s' = last_reason s
    /\ sends (log (pw s')) = (sends (log (pw s)) ++ sends [a])%list.
Proof.
  intros Hn Hev. unfold io, lift, net_call. rewrite Hn.
  destruct ev as [| | tx]; [congruence | |];
    (eexists; split; [reflexivity |]; cbn [pw set_pw net set_net add_log log last_reason];
     rewrite sends_app; auto).
Qed.

Lemma read_resp_step (timeout : float) (s : probe_state) (r : outcome (Z * string))
    (rest : list net_ev) (k : nat) :
  read_lines (net (pw s)) [] None 0 = (r, rest, k) ->
  exists s',
    io (_read_resp timeout) s = (r, s')
    /\ net (pw s') = rest /\ last_reason s' = last_reason s
    /\ sends (log (pw s')) = sends (log (pw s)).
Proof.
  intros Hr. unfold io, lift, _read_resp. rewrite Hr.
  eexists. split; [reflexivity |]. cbn [pw set_pw net set_net add_log log last_reason].
  rewrite sends_app, sends_repeat_Recv, app_nil_r. auto.
Qed.

Lemma fh_write_step (data : string) (s : probe_state) (ev : net_ev) (rest : list net_ev) :
  net (pw s) = ev :: rest -> ev <> Fail ->
  exists s',
    fh_write data s = (Ret tt, s')
    /\ net (pw s') = rest /\ last_reason s' = last_reason s
    /\ sends (log (pw s')) = (sends (log (pw s)) ++ [data])%list.
Proof.
  intros Hn Hev. destruct (net_call_step (Send data) s ev rest Hn Hev) as (s' & E & H).
  exists s'. split; [| exact H]. unfold fh_write. rewrite (bind_ret _ _ _ _ _ E). reflexivity.
Qed.

(** The best-effort QUIT: whatever the network does, the command is
    written once and nothing is raised. *)
Lemma quit_step (timeout : float) (s : probe_state) :
  exists s',
    try_pass (fh_write ("QUIT" +:+ Py.CRLF) ;; _ <- io (_read_resp timeout) ;; ret tt) s
    = (Ret tt, s')
    /\ last_reason s' = last_reason s
    /\ sends (log (pw s')) = (sends (log (pw s)) ++ ["QUIT" +:+ Py.CRLF])%list.
Proof.
  unfold try_pass, try_except, fh_write, bind, io, lift, net_call, ret.
  destruct (net (pw s)) as [| ev rest].
  - eexists. split; [reflexivity |]. cbn [pw set_pw log add_log last_reason].
    rewrite sends_app. auto.
  - assert (G : forall w : world,
               sends (log w) = (sends (log (pw s)) ++ ["QUIT" +:+ Py.CRLF])%list ->
               exists s',
                 (let (o, s1) :=
                    let (o0, s2) :=
                      let '(r, s') := _read_resp timeout (pw (set_pw w s)) in
                      (r, set_pw s' (set_pw w s)) in
                    match o0 with
                    | Ret _ => (Ret tt, s2)
                    | Raise e => (Raise e, s2)
                    end in
                  match o with
                  | Ret a => (Ret a, s1)
                  | Raise _ => (Ret tt, s1)
                  end) = (Ret tt, s')
                 /\ last_reason s' = last_reason s
                 /\ sends (log (pw s')) = (sends (log (pw s)) ++ ["QUIT" +:+ Py.CRLF])%list).
    { intros w Hw. unfold _read_resp. cbn [pw set_pw].
      destruct (read_lines (net w) [] None 0) as [[r rest'] k].
      destruct r as [x | e]; (eexists; split; [reflexivity |]);
        cbn [pw set_pw log set_net add_log last_reason];
        rewrite sends_app, sends_repeat_Recv, app_nil_r; auto. }
    destruct ev as [| | tx].
    + eexists. split; [reflexivity |]. cbn [pw set_pw log set_net add_log last_reason].
      rewrite sends_app. auto.
    + apply G. cbn [log set_net add_log]. apply sends_app.
    + apply G. cbn [log set_net add_log]. apply sends_app.
Qed.

(** Closing writes nothing and raises nothing. *)
Lemma close_both_step (s : probe_state) :
  exists s',
    close_both s = (Ret tt, s')
    /\ last_reason s' = last_reason s
    /\ sends (log (pw s')) = sends (log (pw s)).
Proof.
  destruct (returns_try_pass (fh_close ;; sock_close) s) as ([] & s' & E).
  exists s'. split; [exact E |]. split.
  - revert E. unfold close_both, try_pass, fh_close, sock_close.
    apply keeps_reason_try_except; [| intros ?; apply keeps_reason_ret].
    repeat first
      [ apply keeps_reason_ret | apply keeps_reason_io
      | apply keeps_reason_bind; [| intros ?] ].
  - revert E. unfold try_pass, try_except, fh_close, sock_close, bind, io, lift, net_call, ret.
    destruct (net (pw s)) as [| [| |] [| [| |] rest]];
      cbn [pw set_pw net log set_net add_log];
      intros E; injection E as <-; cbn [pw set_pw net log set_net add_log];
      rewrite ?sends_app, ?app_nil_r; reflexivity.
Qed.

Section Dialogue.

Variable cfg : config.
Variables (email host : string) (timeout : float) (use_starttls : bool).

(** The body of the [try] on a plain session that reaches the reply to
    RCPT TO. *)
Lemma probe_body_rcpt (s0 : probe_state) (c0 w1 w2 w3 : net_ev)
    (n1 n2 n3 n4 n5 : list net_ev) (t1 ehlo t3 t4 : string) (mf code : Z)
    (k1 k2 k3 k4 : nat) :
  net (pw s0) = c0 :: n1 -> c0 <> Fail ->
  read_lines n1 [] None 0 = (Ret (220, t1), w1 :: n2, k1) -> w1 <> Fail ->
  read_lines n2 [] None 0 = (Ret (250, ehlo), w2 :: n3, k2) -> w2 <> Fail ->
  use_starttls && Py.contains "STARTTLS" (Py.upper ehlo) = false ->
  read_lines n3 [] None 0 = (Ret (mf, t3), w3 :: n4, k3) -> w3 <> Fail ->
  mf = 250 \/ mf = 251 ->
  read_lines n4 [] None 0 = (Ret (code, t4), n5, k4) ->
  exists r s',
    probe_body cfg email host timeout use_starttls s0 = (Ret r, s')
    /\ (code = 250 -> r = Some (Some true, "smtp-250"))
    /\ (450 <= code <= 452 -> r = Some (None, "smtp-temp"))
    /\ (500 <= code <= 599 -> r = Some (Some false, "smtp-5xx"))
    /\ (code <> 250 -> ~ 450 <= code <= 452 -> ~ 500 <= code <= 599 ->
        r = None /\ last_reason s' = "smtp-" +:+ code_or_unknown code)
    /\ sends (log (pw s'))
       = (sends (log (pw s0))
          ++ [EHLO; "MAIL FROM:<" +:+ PROBE_MAIL_FROM cfg +:+ ">" +:+ Py.CRLF;
              "RCPT TO:<" +:+ email +:+ ">" +:+ Py.CRLF; "QUIT" +:+ Py.CRLF])%list.
Proof.
  intros Hc0 Hc0' Hb Hw1 He Hw2 Htls Hm Hw3 Hmf Hr.
  unfold probe_body, create_connection.
  (* connect *)
  destruct (net_call_step (Connect host 25 timeout) s0 c0 n1 Hc0 Hc0')
    as (sa & Ea & Na & Ra & Sa).
  rewrite (bind_ret _ _ _ _ _ (bind_ret _ _ _ _ _ Ea)). unfold ret at 1.
  unfold set_sock at 1, set_fh at 1, modify. unfold bind at 1 2.
  set (sb := {| pw := pw sa; last_reason := last_reason sa;
                sock := sock {| pw := pw sa; last_reason := last_reason sa;
                                sock := Some (PlainSocket host); fh := fh sa |};
                fh := Some (PlainSocket host) |}).
  (* banner *)
  destruct (read_resp_step timeout sb _ _ _ (eq_ind_r (fun n => read_lines n [] None 0 = _)
                                              Hb Na)) as (sc & Ec & Nc & Rc & Sc).
  rewrite (bind_ret _ _ _ _ _ Ec). cbn [fst negb Z.eqb Pos.eqb]. unfold ret at 1.
  unfold bind at 1.
  (* EHLO *)
  destruct (fh_write_step EHLO sc w1 n2 Nc Hw1) as (sd & Ed & Nd & Rd & Sd).
  rewrite (bind_ret _ _ _ _ _ Ed).
  destruct (read_resp_step timeout sd _ _ _ (eq_ind_r (fun n => read_lines n [] None 0 = _)
                                              He Nd)) as (se & Ee & Ne & Re & Se).
  rewrite (bind_ret _ _ _ _ _ Ee). cbn [fst snd negb Z.eqb Pos.eqb].
  rewrite Htls. unfold ret at 1 2. unfold bind at 1 2.
  (* MAIL FROM *)
  destruct (fh_write_step ("MAIL FROM:<" +:+ PROBE_MAIL_FROM cfg +:+ ">" +:+ Py.CRLF)
              se w2 n3 Ne Hw2) as (sf & Ef & Nf & Rf & Sf).
  rewrite (bind_ret _ _ _ _ _ Ef).
  destruct (read_resp_step timeout sf _ _ _ (eq_ind_r (fun n => read_lines n [] None 0 = _)
                                              Hm Nf)) as (sg & Eg & Ng & Rg & Sg).
  rewrite (bind_ret _ _ _ _ _ Eg). cbn [fst].
  replace (negb ((mf =? 250) || (mf =? 251))) with false
    by (destruct Hmf as [-> | ->]; reflexivity).
  unfold ret at 1. unfold bind at 1.
  (* RCPT TO *)
  destruct (fh_write_step ("RCPT TO:<" +:+ email +:+ ">" +:+ Py.CRLF) sg w3 n4 Ng Hw3)
    as (sh & Eh & Nh & Rh & Sh).
  rewrite (bind_ret _ _ _ _ _ Eh).
  destruct (read_resp_step timeout sh _ _ _ (eq_ind_r (fun n => read_lines n [] None 0 = _)
                                              Hr Nh)) as (si & Ei & Ni & Ri & Si).
  rewrite (bind_ret _ _ _ _ _ Ei). cbv zeta. cbn [fst].
  (* QUIT *)
  destruct (quit_step timeout si) as (sj & Ej & Rj & Sj).
  rewrite (bind_ret _ _ _ _ _ Ej).
  assert (Hsends : sends (log (pw sj))
                   = (sends (log (pw s0))
                      ++ [EHLO; "MAIL FROM:<" +:+ PROBE_MAIL_FROM cfg +:+ ">" +:+ Py.CRLF;
                          "RCPT TO:<" +:+ email +:+ ">" +:+ Py.CRLF;
                          "QUIT" +:+ Py.CRLF])%list).
  { rewrite Sj, Si, Sh, Sg, Sf, Se, Sd, Sc. subst sb. cbn [pw]. rewrite Sa.
    cbn [sends]. rewrite app_nil_r, <- !app_assoc. reflexivity. }
  destruct (Z.eqb_spec code 250) as [E250 | N250].
  { destruct (close_both_step sj) as (sk & Ek & Rk & Sk).
    rewrite (bind_ret _ _ _ _ _ Ek). eexists _, sk. split; [reflexivity |].
    rewrite Sk. repeat split; try exact Hsends; intros; try reflexivity; lia. }
  destruct ((code =? 450) || (code =? 451) || (code =? 452)) eqn:Etemp.
  { destruct (close_both_step sj) as (sk & Ek & Rk & Sk).
    rewrite (bind_ret _ _ _ _ _ Ek). eexists _, sk. split; [reflexivity |].
    rewrite Sk. apply orb_true_iff in Etemp as [Etemp | Etemp];
      [apply orb_true_iff in Etemp as [Etemp | Etemp] |]; apply Z.eqb_eq in Etemp;
      repeat split; try exact Hsends; intros; try reflexivity; lia. }
  apply orb_false_iff in Etemp as [Etemp E452]. apply orb_false_iff in Etemp as [E450 E451].
  apply Z.eqb_neq in E450, E451, E452.
  destruct ((500 <=? code) && (code <=? 599)) eqn:E5.
  { destruct (close_both_step sj) as (sk & Ek & Rk & Sk).
    rewrite (bind_ret _ _ _ _ _ Ek). eexists _, sk. split; [reflexivity |].
    rewrite Sk. apply andb_true_iff in E5 as [Elo Ehi].
    apply Z.leb_le in Elo, Ehi.
    repeat split; try exact Hsends; intros; try reflexivity; lia. }
  unfold set_last_reason at 1, modify. unfold bind at 1.
  match goal with
  | |- context [bind close_both _ ?st] =>
      destruct (close_both_step st) as (sk & Ek & Rk & Sk);
      rewrite (bind_ret _ _ _ _ _ Ek)
  end.
  eexists _, sk. split; [reflexivity |].
  rewrite Sk. cbn [pw last_reason] in *.
  assert (E5' : ~ 500 <= code <= 599).
  { intros [Hlo Hhi]. apply Z.leb_le in Hlo, Hhi. rewrite Hlo, Hhi in E5. discriminate. }
  repeat split; try exact Hsends; intros; try reflexivity; try lia; try exact Rk.
Qed.

(** A body that returns is the iteration for its host. *)
Lemma probe_host_body (s : probe_state) (r : option (option bool * string))
    (s' : probe_state) :
  probe_body cfg email host timeout use_starttls
    {| pw := pw s; last_reason := last_reason s; sock := None; fh := None |} = (Ret r, s') ->
  probe_host cfg email timeout use_starttls host s = (Ret r, s').
Proof.
  intros Eb. unfold probe_host, bind, set_sock, set_fh, modify, try_except.
  cbn [pw last_reason sock fh]. rewrite Eb. reflexivity.
Qed.

(** X23: A plain session that reaches the reply to RCPT TO: the server greets
    with 220, answers 250 to EHLO without an offer of STARTTLS that the
    probe would take up, and 250 or 251 to MAIL FROM.  Then the code of
    the reply to RCPT TO decides: 250 is Accepted, 450 to 452 is the
    Inconclusive "smtp-temp", 500 to 599 is Rejected, and on any other
    code, 251 and the 0 of an unreadable reply included, the host is
    abandoned with the reason "smtp-" and the code.  The probe has
    written EHLO, MAIL FROM with the configured sender, RCPT TO with the
    address, and QUIT, whatever became of the QUIT. *)
Theorem rcpt_reply_decides (s : probe_state) (c0 w1 w2 w3 : net_ev)
    (n1 n2 n3 n4 n5 : list net_ev) (t1 ehlo t3 t4 : string) (mf code : Z)
    (k1 k2 k3 k4 : nat) :
  net (pw s) = c0 :: n1 -> c0 <> Fail ->
  read_lines n1 [] None 0 = (Ret (220, t1), w1 :: n2, k1) -> w1 <> Fail ->
  read_lines n2 [] None 0 = (Ret (250, ehlo), w2 :: n3, k2) -> w2 <> Fail ->
  use_starttls && Py.contains "STARTTLS" (Py.upper ehlo) = false ->
  read_lines n3 [] None 0 = (Ret (mf, t3), w3 :: n4, k3) -> w3 <> Fail ->
  mf = 250 \/ mf = 251 ->
  read_lines n4 [] None 0 = (Ret (code, t4), n5, k4) ->
  exists r s',
    probe_host cfg email timeout use_starttls host s = (Ret r, s')
    /\ (code = 250 -> r = Some (Some true, "smtp-250"))
    /\ (450 <= code <= 452 -> r = Some (None, "smtp-temp"))
    /\ (500 <= code <= 599 -> r = Some (Some false, "smtp-5xx"))
    /\ (code <> 250 -> ~ 450 <= code <= 452 -> ~ 500 <= code <= 599 ->
        r = None /\ last_reason s' = "smtp-" +:+ code_or_unknown code)
    /\ sends (log (pw s'))
       = (sends (log (pw s))
          ++ [EHLO; "MAIL FROM:<" +:+ PROBE_MAIL_FROM cfg +:+ ">" +:+ Py.CRLF;
              "RCPT TO:<" +:+ email +:+ ">" +:+ Py.CRLF; "QUIT" +:+ Py.CRLF])%list.
Proof.
  intros Hc0 Hc0' Hb Hw1 He Hw2 Htls Hm Hw3 Hmf Hr.
  destruct (probe_body_rcpt
              {| pw := pw s; last_reason := last_reason s; sock := None; fh := None |}
              c0 w1 w2 w3 n1 n2 n3 n4 n5 t1 ehlo t3 t4 mf code k1 k2 k3 k4
              Hc0 Hc0' Hb Hw1 He Hw2 Htls Hm Hw3 Hmf Hr) as (r & s' & Eb & H).
  exists r, s'. split; [| exact H].
  apply probe_host_body. exact Eb.
Qed.

End Dialogue.

(* ===================================================================== *)
(** * The iteration over the hosts and what ends it *)
(* ===================================================================== *)


Section Iteration.

Variable cfg : config.
Variables (email : string) (timeout : float) (use_starttls : bool).




End Iteration.

(** ** C4 *)






(* ===================================================================== *)
(** * Runs on a longer script *)
(* ===================================================================== *)

(** The world [w] with [extra] answers after those of its script. *)
Definition extended (extra : list net_ev) (w : world) : world :=
  set_net (net w ++ extra) w.

(** [m] does not look beyond the answers it uses.  A run that leaves
    answers unread is the same run, with the same unread answers and the
    further ones after them, when further answers follow the script; and
    a run on a script that gives out is the same run when failures follow
    the script, as an exhausted script answers every call with a failure:
    it then uses up at most one of them for each call it logs.  Its
    script, once empty, stays empty. *)
Definition tolerant {S A} (view : S -> world) (upd : world -> S -> S) (m : M S A) : Prop :=
  forall s o s',
    m s = (o, s') ->
    (net (view s) = [] -> net (view s') = [])
    /\ forall extra,
        net (view s') <> [] \/ Forall (eq Fail) extra ->
        exists extra',
          m (upd (extended extra (view s)) s) = (o, upd (extended extra' (view s')) s')
          /\ (net (view s') <> [] -> extra' = extra)
          /\ (Forall (eq Fail) extra ->
              Forall (eq Fail) extra'
              /\ (length extra + length (log (view s))
                  <= length extra' + length (log (view s')))%nat).

Section Tolerant.

Context {S : Type} (view : S -> world) (upd : world -> S -> S).
Hypothesis view_upd : forall w s, view (upd w s) = w.
Hypothesis upd_upd : forall w1 w2 s, upd w2 (upd w1 s) = upd w2 s.

Lemma tolerant_pure {A} (o : outcome A) : tolerant view upd (fun s => (o, s)).
Proof.
  intros s o' s' E. injection E as <- <-. split; [auto |].
  intros extra _. exists extra. split; [reflexivity |]. split; [auto |].
  intros Hf. split; [exact Hf | lia].
Qed.

Lemma tolerant_ret {A} (a : A) : tolerant view upd (ret a).
Proof. apply tolerant_pure. Qed.




Lemma tolerant_try_except {A} (m : M S A) (h : exn -> M S A) :
  tolerant view upd m -> (forall e, tolerant view upd (h e)) ->
  tolerant view upd (try_except m h).
Proof.
  intros Hm Hh s o s'. unfold try_except. destruct (m s) as [[a | e] s1] eqn:E.
  - intros E'. injection E' as <- <-. destruct (Hm _ _ _ E) as [Dm Tm].
    split; [exact Dm |]. intros extra Hpre.
    destruct (Tm extra Hpre) as (e1 & Em & H1 & H2). exists e1. rewrite Em. auto.
  - intros E'. destruct (Hm _ _ _ E) as [Dm Tm]. destruct (Hh e _ _ _ E') as [Dk Tk].
    split; [intros H; exact (Dk (Dm H)) |].
    intros extra Hpre.
    assert (Hpre1 : net (view s1) <> [] \/ Forall (eq Fail) extra).
    { destruct Hpre as [Hn | Hf]; [left; intros H0; exact (Hn (Dk H0)) | right; exact Hf]. }
    destruct (Tm extra Hpre1) as (e1 & Em & Hsame1 & Hfail1).
    assert (Hpre2 : net (view s') <> [] \/ Forall (eq Fail) e1).
    { destruct Hpre as [Hn | Hf]; [left; exact Hn | right; exact (proj1 (Hfail1 Hf))]. }
    destruct (Tk e1 Hpre2) as (e2 & Ek & Hsame2 & Hfail2).
    exists e2. rewrite Em. split; [exact Ek |]. split.
    + intros Hn. rewrite (Hsame2 Hn). apply Hsame1. intros H0. exact (Hn (Dk H0)).
    + intros Hf. destruct (Hfail1 Hf) as [F1 L1]. destruct (Hfail2 F1) as [F2 L2].
      split; [exact F2 | lia].
Qed.

Lemma tolerant_try_pass (m : M S unit) : tolerant view upd m -> tolerant view upd (try_pass m).
Proof. intros Hm. apply tolerant_try_except; [exact Hm | intros e; apply tolerant_ret]. Qed.




End Tolerant.








Section TolerantEngine.

Variable cfg : config.





Variable validate_email : string -> outcome (string * string).
Variable get_close_matches : string -> list string -> nat -> float -> list string.


End TolerantEngine.

(* ===================================================================== *)
(** * Peers that never stop *)
(* ===================================================================== *)

(** The script of a world is finite and [read_lines] recurses on it,
    while the [while True] of [_read_resp] reads for as long as lines
    come.  A peer that may go on for ever is a function from the number
    of a socket call to the answer that call gets. *)
Definition peer : Type := nat -> net_ev.

(** The first [n] answers of a peer. *)
Definition answers (p : peer) (n : nat) : list net_ev := map p (seq 0 n).








Section Peers.

Variable cfg : config.
Variable validate_email : string -> outcome (string * string).
Variable get_close_matches : string -> list string -> nat -> float -> list string.

(** ** C2 *)


End Peers.






Section Endless.

Variable cfg : config.
Variables (email : string) (timeout : float) (use_starttls : bool).



End Endless.


(* ===================================================================== *)
(** * Sample runs of the further properties *)
(* ===================================================================== *)

Lemma rejected_run_record : rejected_run = (Ret rejected_record, snd rejected_run).
Proof. vm_compute. reflexivity. Qed.

(** The cleared accept-all flag of a rejected address goes with a record
    that was probed. *)
Lemma reason_vocabulary_witness :
  In (r_reason rejected_record, r_verdict rejected_record)
     [("bad-syntax", "invalid"); ("no-mx", "invalid"); ("smtp-5xx", "invalid");
      ("accept-all", "risky"); ("unverifiable", "risky"); ("dns-only", "risky");
      ("smtp-250", "valid")].
Proof.
  apply (reason_vocabulary default_config sample_validate_email Difflib.get_close_matches
           "user@example.com" 6%float true true
           (sample_world (session "550 5.1.1 No such user")) rejected_record
           (snd rejected_run)).
  exact rejected_run_record.
Defined.

Lemma contact_status_is_verdict_witness :
  contact_status example_dns_only = r_verdict example_dns_only
  /\ contact_status example_dns_only <> "unknown".
Proof.
  apply (contact_status_is_verdict default_config sample_validate_email
           Difflib.get_close_matches "user@example.com" 6%float false true
           (sample_world []) example_dns_only
           (snd (check_mx "example.com" 6%float (sample_world [])))).
  vm_compute. reflexivity.
Defined.

Lemma score_by_verdict_witness :
  (r_verdict rejected_record = "invalid" ->
   In (r_score rejected_record) [0.05; 0.10; 0.15]%float)
  /\ (r_verdict rejected_record = "risky" ->
      PrimFloat.leb 0.2 (r_score rejected_record) = true
      /\ PrimFloat.leb (r_score rejected_record) 0.74 = true)
  /\ (r_verdict rejected_record = "valid" -> r_score rejected_record = 0.95%float).
Proof.
  apply (score_by_verdict default_config sample_validate_email Difflib.get_close_matches
           "user@example.com" 6%float true true
           (sample_world (session "550 5.1.1 No such user")) rejected_record
           (snd rejected_run)).
  exact rejected_run_record.
Defined.

(** The probe is not requested: the three sessions of the script are
    still to come after the run. *)
Lemma no_probe_no_network_witness :
  let w := sample_world accepting_script in
  let w' := snd (check_mx "example.com" 6%float w) in
  net w' = net w /\ entropy w' = entropy w /\ connects (log w') = connects (log w).
Proof.
  apply (no_probe_no_network default_config sample_validate_email
           Difflib.get_close_matches "user@example.com" 6%float false true
           (sample_world accepting_script) example_dns_only).
  - reflexivity.
  - vm_compute. reflexivity.
Defined.

Lemma checks_pipeline_witness :
  let c := r_checks rejected_record in
  (c_smtp_deliverable c = true -> c_smtp_checked c = true)
  /\ (c_smtp_checked c = true -> c_has_mx_or_a_record c = true)
  /\ (c_has_mx_or_a_record c = true -> c_has_valid_address_syntax c = true)
  /\ (r_verdict rejected_record = "valid" -> c_smtp_deliverable c = true)
  /\ (c_is_accept_all c <> None -> c_smtp_checked c = true).
Proof.
  apply (checks_pipeline default_config sample_validate_email Difflib.get_close_matches
           "user@example.com" 6%float true true
           (sample_world (session "550 5.1.1 No such user")) rejected_record
           (snd rejected_run)).
  exact rejected_run_record.
Defined.

(** The two exchangers of [example.com], answered in descending order,
    come back in ascending order and without their dots. *)
Lemma check_mx_fresh_witness :
  exists hosts pg w',
    check_mx "example.com" 6%float (sample_world []) = (Ret (true, hosts, pg), w')
    /\ Sorted str_le hosts
    /\ Permutation hosts
         (map (Py.rstrip_chars ["."%char]) ["mx2.example.com."; "mx1.example.com."])
    /\ (forall h pre, In h hosts -> chars h <> (pre ++ ["."%char])%list)
    /\ _mx_cache w' !! "example.com" = Some (true, hosts, pg).
Proof.
  apply (check_mx_fresh "example.com" 6%float (sample_world [])
           ["mx2.example.com."; "mx1.example.com."]).
  - reflexivity.
  - reflexivity.
Defined.

(** A domain the resolver does not know, asked again after a lookup of
    another domain and under a resolver that knows every domain. *)
Lemma check_mx_failure_is_cached_witness :
  let w1 := snd (check_mx "nowhere.test" 6%float (sample_world [])) in
  let w2 := {| _mx_cache := _mx_cache (snd (check_mx "gmail.com" 6%float w1));
               dns := other_dns; net := []; entropy := []; log := [] |} in
  fst (check_mx "nowhere.test" 6%float (sample_world [])) = Ret (false, [], EmptyString)
  /\ check_mx "nowhere.test" 3%float w2 = (Ret (false, [], EmptyString), w2).
Proof.
  intros w1 w2.
  apply (check_mx_failure_is_cached "nowhere.test" 6%float 3%float (sample_world []) w2
           (Exception "NXDOMAIN")).
  - reflexivity.
  - reflexivity.
  - apply (later_environment _ (snd (check_mx "gmail.com" 6%float w1))); [| reflexivity].
    apply later_check_mx, later_now.
Defined.


(** The reply to EHLO of the sample session: one continuation line and
    the final line. *)
Lemma read_lines_reply_witness :
  read_lines
    (map (fun p => Line (fst p)) [("250-mx greets you" +:+ Py.CRLF, "250-mx greets you")]
     ++ Line ("250 SIZE 1000000" +:+ Py.CRLF) :: [Done])
    [] None 0
  = (Ret (250, Py.join (String Py.LF EmptyString)
                 (map snd [("250-mx greets you" +:+ Py.CRLF, "250-mx greets you")]
                  ++ ["250 SIZE 1000000"])),
     [Done], 2%nat).
Proof.
  apply (read_lines_reply [("250-mx greets you" +:+ Py.CRLF, "250-mx greets you")]
           ("250 SIZE 1000000" +:+ Py.CRLF) "250 SIZE 1000000" 250 250 [Done]).
  - constructor; [| constructor]. exists 250. split; [| reflexivity].
    exists "2"%char, "5"%char, "0"%char, "-"%char, "mx greets you". repeat split.
  - exists "2"%char, "5"%char, "0"%char, " "%char, "SIZE 1000000". repeat split.
  - reflexivity.
  - exists "2"%char, "5"%char, "0"%char, "-"%char, "mx greets you". repeat split.
Defined.

(** A bare code without a fourth character. *)
Lemma read_lines_unrecognised_witness :
  let line := Py.rstrip_chars [Py.CR; Py.LF] ("250" +:+ Py.CRLF) in
  read_lines (Line ("250" +:+ Py.CRLF) :: [Done]) [] None 0 = (Ret (0, line), [Done], 1%nat).
Proof.
  apply (read_lines_unrecognised ("250" +:+ Py.CRLF) [Done]).
  left. apply Nat.ltb_lt. reflexivity.
Defined.

(** Four hosts and a network on which nothing connects: three attempts. *)
Lemma smtp_probe_unreachable_witness :
  exists w',
    smtp_probe default_config "user@example.com" ("mx1" :: ["mx2"; "mx3"; "mx4"]) 6%float
      true (sample_world [Fail; Fail])
    = (Ret (None, "smtp-inconclusive"), w')
    /\ connects (log w')
       = (connects (log (sample_world [Fail; Fail]))
          ++ firstn 3 ("mx1" :: ["mx2"; "mx3"; "mx4"]))%list
    /\ Forall (eq Fail) (net w').
Proof.
  apply (smtp_probe_unreachable default_config "user@example.com" 6%float true
           "mx1" ["mx2"; "mx3"; "mx4"] (sample_world [Fail; Fail])).
  repeat constructor.
Defined.

(** A server that greets with 554. *)
Lemma probe_host_bad_banner_witness :
  exists s',
    probe_host default_config "user@example.com" 6%float true "mx1.example.com"
      (probe_start (sample_world [Done; Line ("554 no service" +:+ Py.CRLF); Done; Done]))
    = (Ret None, s')
    /\ last_reason s' = "bad-banner-" +:+ Py.str_of_Z 554.
Proof.
  apply (probe_host_bad_banner default_config "user@example.com" 6%float true
           "mx1.example.com"
           (probe_start (sample_world [Done; Line ("554 no service" +:+ Py.CRLF); Done; Done]))
           Done [Line ("554 no service" +:+ Py.CRLF); Done; Done] [Done; Done] 554
           "554 no service" 1%nat).
  - reflexivity.
  - discriminate.
  - reflexivity.
  - discriminate.
Defined.

Lemma unreachable_is_unverifiable_witness :
  exists r w',
    validate_email_record default_config sample_validate_email Difflib.get_close_matches
      "user@example.com" 6%float true true (sample_world [Fail; Fail]) = (Ret r, w')
    /\ r_verdict r = "risky" /\ r_reason r = "unverifiable".
Proof.
  apply (unreachable_is_unverifiable default_config sample_validate_email
           Difflib.get_close_matches "user@example.com" 6%float true true
           (sample_world [Fail; Fail]) "user" "example.com"
           ["mx1.example.com"; "mx2.example.com"] EmptyString _
           (example_has_exchangers [Fail; Fail])).
  - reflexivity.
  - reflexivity.
  - repeat constructor.
Defined.

Lemma is_accept_all_single_witness :
  exists rnd wa ok note wb,
    random_choices alphabet 16 (sample_world (session "250 2.1.5 Ok")) = (Ret rnd, wa)
    /\ smtp_probe no_retry_config (rnd +:+ "@" +:+ "example.com") ("mx1.example.com" :: [])
         6%float true wa
       = (Ret (ok, note), wb)
    /\ is_accept_all no_retry_config "example.com" ("mx1.example.com" :: []) 6%float
         (sample_world (session "250 2.1.5 Ok"))
       = (Ret ok, wb).
Proof.
  apply (is_accept_all_single no_retry_config "example.com" "mx1.example.com" [] 6%float
           (sample_world (session "250 2.1.5 Ok"))).
  vm_compute. discriminate.
Defined.

Lemma normalize_clean_witness : normalize "a.b@c.d" = "a.b@c.d".
Proof.
  apply (normalize_clean "a.b@c.d").
  intros c H. cbn in H.
  repeat (destruct H as [<- | H];
          [split; [reflexivity | split; discriminate] |]).
  destruct H.
Defined.

(** The service address the sample validator rejects and the pattern
    accepts. *)
Lemma check_syntax_fallback_parts_witness :
  ("a.b+c@x-y.example.com" = "a.b+c" +:+ "@" +:+ "x-y.example.com"
   \/ "a.b+c@x-y.example.com"
      = "a.b+c" +:+ "@" +:+ "x-y.example.com" +:+ String Py.LF EmptyString)
  /\ "a.b+c" <> EmptyString /\ In "."%char (chars "x-y.example.com")
  /\ Forall (fun c => local_char c = true \/ c = "."%char) (chars "a.b+c")
  /\ Forall (fun c => domain_char c = true \/ c = "."%char) (chars "x-y.example.com").
Proof.
  apply (check_syntax_fallback_parts sample_validate_email "a.b+c@x-y.example.com"
           "a.b+c" "x-y.example.com").
  - reflexivity.
  - reflexivity.
Defined.

(** Three words, with blanks before, a tab between two of them and a
    blank after. *)
Lemma split_full_name_words_witness :
  _split_full_name
    (Some ("  " +:+ "Ada"
           +:+ String.concat EmptyString
                 (map (fun sw => fst sw +:+ snd sw)
                    [("  ", "King"); (String (Py.chr 9) EmptyString, "Lovelace")])
           +:+ " "))
  = ("Ada",
     Py.join " " (map snd [("  ", "King"); (String (Py.chr 9) EmptyString, "Lovelace")])).
Proof.
  apply (split_full_name_words "  " " " "Ada"
           [("  ", "King"); (String (Py.chr 9) EmptyString, "Lovelace")]).
  - repeat constructor.
  - repeat constructor.
  - split; [discriminate | repeat constructor].
  - repeat constructor; discriminate.
Defined.

Lemma split_full_name_blank_witness :
  _split_full_name (Some "   ") = (EmptyString, EmptyString).
Proof.
  apply (split_full_name_blank (Some "   ")). repeat constructor.
Defined.

Lemma typo_suggestion_known_fix_witness :
  typo_suggestion Difflib.get_close_matches "Gmail.CO" = Some "gmail.com"
  /\ Py.mem "gmail.com" FREE_PROVIDERS = true
  /\ "gmail.com" <> Py.lower "Gmail.CO".
Proof.
  apply (typo_suggestion_known_fix Difflib.get_close_matches "Gmail.CO" "gmail.com").
  do 3 right. left. reflexivity.
Defined.

(** A server that answers 251 (user not local, will forward) to RCPT TO:
    the host is abandoned with the reason "smtp-251". *)
Lemma rcpt_reply_decides_witness :
  let script := session "251 2.1.5 User not local" in
  let s := probe_start (sample_world script) in
  exists r s',
    probe_host default_config "user@example.com" 6%float true "mx1.example.com" s
    = (Ret r, s')
    /\ (251 = 250 -> r = Some (Some true, "smtp-250"))
    /\ (450 <= 251 <= 452 -> r = Some (None, "smtp-temp"))
    /\ (500 <= 251 <= 599 -> r = Some (Some false, "smtp-5xx"))
    /\ (251 <> 250 -> ~ 450 <= 251 <= 452 -> ~ 500 <= 251 <= 599 ->
        r = None /\ last_reason s' = "smtp-" +:+ code_or_unknown 251)
    /\ sends (log (pw s'))
       = (sends (log (pw s))
          ++ [EHLO; "MAIL FROM:<" +:+ PROBE_MAIL_FROM default_config +:+ ">" +:+ Py.CRLF;
              "RCPT TO:<" +:+ "user@example.com" +:+ ">" +:+ Py.CRLF;
              "QUIT" +:+ Py.CRLF])%list.
Proof.
  intros script s.
  apply (rcpt_reply_decides default_config "user@example.com" "mx1.example.com" 6%float
           true s Done Done Done Done
           (skipn 1 script) (skipn 3 script) (skipn 6 script) (skipn 8 script)
           (skipn 9 script)
           "220 mx ESMTP" ("250-mx greets you" +:+ String Py.LF "250 SIZE 1000000")
           "250 2.1.0 Ok" "251 2.1.5 User not local" 250 251 1%nat 2%nat 1%nat 1%nat).
  - reflexivity.
  - discriminate.
  - vm_compute. reflexivity.
  - discriminate.
  - vm_compute. reflexivity.
  - discriminate.
  - vm_compute. reflexivity.
  - vm_compute. reflexivity.
  - discriminate.
  - left. reflexivity.
  - vm_compute. reflexivity.
Defined.
